(** * A voice-assistant call runtime and its SIP provisioning tool

    Shallow embedding of [agent.py] (variant A), [agent1.py] (variant B)
    and [sip-config/sip_manager.py], with the properties of the written
    specification stated and settled against them.

    Conventions.
    - A Python [str] is a Rocq [string]; one [ascii] is one character, so
      the model covers the code points below 256.
    - [bytes] is [list Byte.byte]; an [int] is a [Z].
    - A [float] is the rational it denotes, and every float operation
      rounds to 53 significant bits (module [Float]).
    - Code that can raise returns an [outcome], [Ok v] or [Raise e]; where
      it also acts on the world it lives in the monad [M], which keeps the
      state reached when the exception was raised.
    - Everything outside the process (the SIP control plane, the two HTTP
      providers, the clock, the file system) is an explicit argument. *)

From Stdlib Require Import ZArith QArith Qround Qabs Qpower String Ascii List Lia Lqa Bool.
From Stdlib Require Import Sorted.
From Stdlib Require Import DecimalString.
From Stdlib Require Strings.Byte.
From stdpp Require Import gmap strings list.

Open Scope string_scope.
Open Scope list_scope.

(** ** Python prelude *)

Module Py.

(** The exceptions that the modelled code can meet. *)
Inductive exn : Type :=
| SystemExit (code : Z)
| EOFError
| RemoteError (what : string)
| ContentError (what : string)
| TypeError
| KeyError
| IndexError
| ValueError
| AttributeError
| ZeroDivisionError
| OSError (what : string)
| WaveError (what : string)
| StructError (what : string)
| RuntimeError.

Inductive outcome (A : Type) : Type :=
| Ok (v : A)
| Raise (e : exn).
Arguments Ok {A} v.
Arguments Raise {A} e.

Definition is_ok {A} (o : outcome A) : bool :=
  match o with Ok _ => true | Raise _ => false end.

(** Sequencing of code that can raise and has no other effect. *)
Definition and_then {A B} (o : outcome A) (k : A -> outcome B) : outcome B :=
  match o with Ok v => k v | Raise e => Raise e end.

(** A comprehension or loop that builds a list and stops at the first
    exception. *)
Fixpoint collect {A B} (f : A -> outcome B) (xs : list A) : outcome (list B) :=
  match xs with
  | [] => Ok []
  | x :: rest =>
      and_then (f x) (fun y => and_then (collect f rest) (fun ys => Ok (y :: ys)))
  end.

(** [l[i]] on a list: a negative index counts from the end. *)
Definition getitem {A} (l : list A) (i : Z) : outcome A :=
  let n := Z.of_nat (length l) in
  let j := if (i <? 0)%Z then (i + n)%Z else i in
  if ((0 <=? j) && (j <? n))%Z then
    match nth_error l (Z.to_nat j) with
    | Some x => Ok x
    | None => Raise IndexError
    end
  else Raise IndexError.

(** [range(n)] *)
Definition range (n : Z) : list Z := map Z.of_nat (seq 0 (Z.to_nat n)).

(** [str(n)] for an [int]. *)
Definition str_of_int (n : Z) : string := NilZero.string_of_int (Z.to_int n).

(** State-and-exception monad over a world [W]. *)
Definition M (W A : Type) : Type := W -> outcome A * W.

Definition ret {W A} (v : A) : M W A := fun w => (Ok v, w).

Definition bind {W A B} (m : M W A) (k : A -> M W B) : M W B :=
  fun w => match m w with
           | (Ok v, w') => k v w'
           | (Raise e, w') => (Raise e, w')
           end.

Definition raise {W A} (e : exn) : M W A := fun w => (Raise e, w).

Definition get {W} : M W W := fun w => (Ok w, w).
Definition modify {W} (f : W -> W) : M W unit := fun w => (Ok tt, f w).

(** [for x in xs: body x] *)
Fixpoint for_each {W A} (xs : list A) (body : A -> M W unit) : M W unit :=
  match xs with
  | [] => ret tt
  | x :: rest => bind (body x) (fun _ => for_each rest body)
  end.

(** [s.lower()] on the characters of the model: the ASCII capitals and the
    capitals of the Latin-1 block move down by 32. *)
Definition lower_char (c : ascii) : ascii :=
  let n := nat_of_ascii c in
  if ((65 <=? n) && (n <=? 90) || (192 <=? n) && (n <=? 222) && negb (n =? 215))%nat
  then ascii_of_nat (n + 32) else c.

Fixpoint lower (s : string) : string :=
  match s with
  | EmptyString => EmptyString
  | String c rest => String (lower_char c) (lower rest)
  end.

(** [str.isspace] for one character below 256. *)
Definition is_space (c : ascii) : bool :=
  let n := nat_of_ascii c in
  ((9 <=? n) && (n <=? 13) || (28 <=? n) && (n <=? 32) || (n =? 133) || (n =? 160))%nat.

Fixpoint lstrip (s : string) : string :=
  match s with
  | EmptyString => EmptyString
  | String c rest => if is_space c then lstrip rest else s
  end.

(** Drops the trailing white space: a character is kept when it is not
    white space or when something is kept after it. *)
Fixpoint rstrip (s : string) : string :=
  match s with
  | EmptyString => EmptyString
  | String c rest =>
      match rstrip rest with
      | EmptyString => if is_space c then EmptyString else String c EmptyString
      | kept => String c kept
      end
  end.

(** [s.strip()] *)
Definition strip (s : string) : string := rstrip (lstrip s).

(** Truth value of a [str]. *)
Definition truthy_str (s : string) : bool :=
  match s with EmptyString => false | _ => true end.

(** [x or default] for an optional string ([None] and the empty string are both falsy). *)
Definition str_or (x : option string) (default : string) : string :=
  match x with
  | Some s => if truthy_str s then s else default
  | None => default
  end.

(** [s.replace(old, new)] for a non-empty [old]: the occurrences are found
    from the left and do not overlap; [skip] counts the characters of an
    occurrence still to be dropped. *)
Fixpoint replace_from (old new : string) (skip : nat) (s : string) : string :=
  match s with
  | EmptyString => EmptyString
  | String c rest =>
      match skip with
      | S k => replace_from old new k rest
      | O =>
          if String.prefix old s
          then new +:+ replace_from old new (String.length old - 1) rest
          else String c (replace_from old new 0 rest)
      end
  end.

Definition replace (old new s : string) : string := replace_from old new 0 s.

(** [s.split(sep)[0]] for a one-character [sep]: the text before the first
    separator. *)
Fixpoint before (sep : ascii) (s : string) : string :=
  match s with
  | EmptyString => EmptyString
  | String c rest => if Ascii.eqb c sep then EmptyString else String c (before sep rest)
  end.

(** [s.endswith(c)] for one character. *)
Fixpoint ends_with (c : ascii) (s : string) : bool :=
  match s with
  | EmptyString => false
  | String x EmptyString => Ascii.eqb x c
  | String _ rest => ends_with c rest
  end.

(** [os.path.join(a, b)] on POSIX: an absolute [b] replaces [a], and the
    separator is added unless [a] is empty or ends with one. *)
Definition path_join (a b : string) : string :=
  if String.prefix "/" b then b
  else if negb (truthy_str a) || ends_with "/" a then a +:+ b
  else a +:+ "/" +:+ b.

(** [x or None] for a string read from the terminal. *)
Definition or_none (s : string) : option string :=
  if truthy_str s then Some s else None.

End Py.

Module PyNotations.
Notation "x <- m ;; k" := (Py.bind m (fun x => k))
  (at level 100, m at next level, right associativity).
Notation "m ;;; k" := (Py.bind m (fun _ => k))
  (at level 100, right associativity).
End PyNotations.

(** ** Python [float]

    A [float] is an IEEE binary64 number.  The model takes a finite one as
    the rational it denotes and an operation as the exact operation
    followed by [round], rounding to 53 significant bits, ties to even.
    The exponent range is not modelled: no computation of this program on a
    WAV file overflows or reaches the subnormal numbers. *)

Module Float.
Import Py.
Local Open Scope Q_scope.

Definition pow2 (k : Z) : Q := 2 ^ k.

(** The nearest integer, ties to the even one. *)
Definition half_even (q : Q) : Z :=
  let f := Qfloor q in
  match Qcompare (q - inject_Z f) (1 # 2) with
  | Lt => f
  | Gt => (f + 1)%Z
  | Eq => if Z.even f then f else (f + 1)%Z
  end.

(** For [q <> 0], the [e] with [2^e <= |q| < 2^(e+1)]. *)
Definition binade (q : Q) : Z :=
  let k := (Z.log2 (Z.abs (Qnum q)) - Z.log2 (Zpos (Qden q)))%Z in
  if Qle_bool (pow2 k) (Qabs q) then k else (k - 1)%Z.

Definition round (q : Q) : Q :=
  if Qeq_bool q 0 then 0
  else let e := (binade q - 52)%Z in
       Qred (inject_Z (half_even (q / pow2 e)) * pow2 e).

(** [float(n)] *)
Definition of_int (n : Z) : Q := round (inject_Z n).

Definition add (x y : Q) : Q := round (x + y).
Definition sub (x y : Q) : Q := round (x - y).
Definition mul (x y : Q) : Q := round (x * y).

(** [x / y] on floats. *)
Definition truediv (x y : Q) : outcome Q :=
  if Qeq_bool y 0 then Raise ZeroDivisionError else Ok (round (x / y)).

(** [a / b] on ints: the quotient, rounded once. *)
Definition int_truediv (a b : Z) : outcome Q :=
  if (b =? 0)%Z then Raise ZeroDivisionError
  else Ok (round (inject_Z a / inject_Z b)).

(** Half a unit in the last place, relative to the value. *)
Definition eps : Q := 1 # (2 ^ 53).

(** [int(x)]: towards zero. *)
Definition to_int (x : Q) : Z := Z.quot (Qnum x) (Zpos (Qden x)).

(** [f"{x:.1f}"]: one decimal of the exact value, ties to even. *)
Definition format_1f (x : Q) : string :=
  let tenths := half_even (Qabs x * 10) in
  (if Qlt_le_dec x 0 then "-" else EmptyString) +:+
  str_of_int (tenths / 10) +:+ "." +:+ str_of_int (tenths mod 10).

End Float.

(** ** [sip_manager.py]: the provisioning tool *)

Module Sip.
Import Py PyNotations.

Record SIPInboundTrunkInfo : Type := {
  in_sip_trunk_id : string;
  in_name : string;
  in_numbers : list string;
  in_allowed_addresses : list string }.

Record SIPOutboundTrunkInfo : Type := {
  out_sip_trunk_id : string;
  out_name : string;
  out_address : string;
  out_numbers : list string;
  out_auth_username : string;
  out_auth_password : string }.

(** The alternatives of the rule message; this tool builds only the
    individual one. *)
Inductive SIPDispatchRule : Type :=
| dispatch_rule_direct (room_name : string)
| dispatch_rule_individual (room_prefix : string)
| dispatch_rule_callee (room_prefix : string).

Record SIPDispatchRuleInfo : Type := {
  sip_dispatch_rule_id : string;
  rule_name : string;
  rule_trunk_ids : list string;
  rule : SIPDispatchRule }.

(** What [lk.sip] is asked. *)
Inductive Request : Type :=
| ListSIPInboundTrunkRequest
| ListSIPOutboundTrunkRequest
| ListSIPDispatchRuleRequest
| CreateSIPInboundTrunkRequest (trunk : SIPInboundTrunkInfo)
| CreateSIPOutboundTrunkRequest (trunk : SIPOutboundTrunkInfo)
| CreateSIPDispatchRuleRequest (name : string) (trunk_ids : list string)
                               (rule : SIPDispatchRule)
| DeleteSIPTrunkRequest (sip_trunk_id : string)
| DeleteSIPDispatchRuleRequest (sip_dispatch_rule_id : string).

Definition is_delete (r : Request) : bool :=
  match r with
  | DeleteSIPTrunkRequest _ | DeleteSIPDispatchRuleRequest _ => true
  | _ => false
  end.

Definition is_create (r : Request) : bool :=
  match r with
  | CreateSIPInboundTrunkRequest _ | CreateSIPOutboundTrunkRequest _
  | CreateSIPDispatchRuleRequest _ _ _ => true
  | _ => false
  end.

(** The control plane.  Each call sees the requests received before it, so
    any server, stateful or failing, is one of these. *)
Record ControlPlane : Type := {
  list_sip_inbound_trunk : list Request -> outcome (list SIPInboundTrunkInfo);
  list_sip_outbound_trunk : list Request -> outcome (list SIPOutboundTrunkInfo);
  list_sip_dispatch_rule : list Request -> outcome (list SIPDispatchRuleInfo);
  create_sip_inbound_trunk :
    list Request -> SIPInboundTrunkInfo -> outcome SIPInboundTrunkInfo;
  create_sip_outbound_trunk :
    list Request -> SIPOutboundTrunkInfo -> outcome SIPOutboundTrunkInfo;
  create_sip_dispatch_rule :
    list Request -> string -> list string -> SIPDispatchRule ->
    outcome SIPDispatchRuleInfo;
  delete_sip_trunk : list Request -> string -> outcome unit;
  delete_sip_dispatch_rule : list Request -> string -> outcome unit }.

(** What the process does that can be seen from outside, oldest first. *)
Inductive Event : Type :=
| Opened (client : nat)
| Called (client : nat) (req : Request)
| Closed (client : nat)
| Printed (line : string)
| Prompted (prompt : string).

Record World : Type := {
  trace : list Event;
  stdin : list string }.

Definition emit (e : Event) : M World unit :=
  modify (fun w => {| trace := trace w ++ [e]; stdin := stdin w |}).

Definition print (line : string) : M World unit := emit (Printed line).

(** [input(prompt)]: end of input raises [EOFError]. *)
Definition input (prompt : string) : M World string :=
  emit (Prompted prompt) ;;;
  w <- get ;;
  match stdin w with
  | [] => raise EOFError
  | line :: rest =>
      modify (fun w => {| trace := trace w; stdin := rest |}) ;;; ret line
  end.

Fixpoint requests (tr : list Event) : list Request :=
  match tr with
  | [] => []
  | Called _ r :: rest => r :: requests rest
  | _ :: rest => requests rest
  end.

Fixpoint printed (tr : list Event) : list string :=
  match tr with
  | [] => []
  | Printed s :: rest => s :: printed rest
  | _ :: rest => printed rest
  end.

Fixpoint opened (tr : list Event) : list nat :=
  match tr with
  | [] => []
  | Opened c :: rest => c :: opened rest
  | _ :: rest => opened rest
  end.

Fixpoint closed (tr : list Event) : list nat :=
  match tr with
  | [] => []
  | Closed c :: rest => c :: closed rest
  | _ :: rest => closed rest
  end.

(** The clients that were opened and not closed. *)
Definition still_open (tr : list Event) : list nat :=
  filter (fun c => c ∉ closed tr) (opened tr).

(** An object identity that the trace has not used. *)
Definition fresh (tr : list Event) : nat :=
  S (list_max (opened tr ++ closed tr)).

(** [api.LiveKitAPI(...)]: a new object, never seen before. *)
Definition LiveKitAPI : M World nat :=
  w <- get ;;
  let c := fresh (trace w) in
  emit (Opened c) ;;; ret c.

Definition aclose (lk : nat) : M World unit := emit (Closed lk).

(** [await lk.sip.f(req)]: the request goes out, then the answer of the
    control plane is returned or raised. *)
Definition call {A} (lk : nat) (req : Request)
    (answer : list Request -> outcome A) : M World A :=
  w <- get ;;
  emit (Called lk req) ;;;
  match answer (requests (trace w)) with
  | Ok v => ret v
  | Raise e => raise e
  end.

Section Tool.

Variable cp : ControlPlane.
(** How an f-string shows a repeated string field and a rule message. *)
Variable show_strings : list string -> string.
Variable show_rule : SIPDispatchRule -> string.

Definition list_sip_trunks : M World unit :=
  lk <- LiveKitAPI ;;
  print (String "010" "=== Inbound SIP Trunks ===") ;;;
  inbound_trunks <- call lk ListSIPInboundTrunkRequest (list_sip_inbound_trunk cp) ;;
  for_each inbound_trunks (fun trunk =>
    print ("  ID: " +:+ in_sip_trunk_id trunk) ;;;
    print ("  Name: " +:+ in_name trunk) ;;;
    print ("  Numbers: " +:+ show_strings (in_numbers trunk)) ;;;
    print EmptyString) ;;;
  print (String "010" "=== Outbound SIP Trunks ===") ;;;
  outbound_trunks <- call lk ListSIPOutboundTrunkRequest (list_sip_outbound_trunk cp) ;;
  for_each outbound_trunks (fun trunk =>
    print ("  ID: " +:+ out_sip_trunk_id trunk) ;;;
    print ("  Name: " +:+ out_name trunk) ;;;
    print ("  Address: " +:+ out_address trunk) ;;;
    print ("  Numbers: " +:+ show_strings (out_numbers trunk)) ;;;
    print EmptyString) ;;;
  aclose lk.

Definition list_dispatch_rules : M World unit :=
  lk <- LiveKitAPI ;;
  print (String "010" "=== SIP Dispatch Rules ===") ;;;
  rules <- call lk ListSIPDispatchRuleRequest (list_sip_dispatch_rule cp) ;;
  for_each rules (fun r =>
    print ("  ID: " +:+ sip_dispatch_rule_id r) ;;;
    print ("  Name: " +:+ rule_name r) ;;;
    print ("  Trunk IDs: " +:+ show_strings (rule_trunk_ids r)) ;;;
    print ("  Rule: " +:+ show_rule (rule r)) ;;;
    print EmptyString) ;;;
  aclose lk.

(** [allowed_addresses or []] *)
Definition list_or_empty (x : option (list string)) : list string :=
  match x with Some l => l | None => [] end.

Definition create_inbound_trunk (name : string) (numbers : list string)
    (allowed_addresses : option (list string)) : M World SIPInboundTrunkInfo :=
  lk <- LiveKitAPI ;;
  let request := {| in_sip_trunk_id := EmptyString; in_name := name; in_numbers := numbers;
                    in_allowed_addresses := list_or_empty allowed_addresses |} in
  trunk <- call lk (CreateSIPInboundTrunkRequest request)
             (fun h => create_sip_inbound_trunk cp h request) ;;
  print ("Created inbound trunk: " +:+ in_sip_trunk_id trunk) ;;;
  aclose lk ;;;
  ret trunk.

Definition create_outbound_trunk (name address : string) (numbers : list string)
    (auth_username auth_password : option string) : M World SIPOutboundTrunkInfo :=
  lk <- LiveKitAPI ;;
  let request := {| out_sip_trunk_id := EmptyString; out_name := name; out_address := address;
                    out_numbers := numbers;
                    out_auth_username := str_or auth_username EmptyString;
                    out_auth_password := str_or auth_password EmptyString |} in
  trunk <- call lk (CreateSIPOutboundTrunkRequest request)
             (fun h => create_sip_outbound_trunk cp h request) ;;
  print ("Created outbound trunk: " +:+ out_sip_trunk_id trunk) ;;;
  aclose lk ;;;
  ret trunk.

Definition create_dispatch_rule (name room_prefix : string)
    (trunk_ids : option (list string)) : M World SIPDispatchRuleInfo :=
  lk <- LiveKitAPI ;;
  let ids := list_or_empty trunk_ids in
  let r := dispatch_rule_individual room_prefix in
  created <- call lk (CreateSIPDispatchRuleRequest name ids r)
               (fun h => create_sip_dispatch_rule cp h name ids r) ;;
  print ("Created dispatch rule: " +:+ sip_dispatch_rule_id created) ;;;
  aclose lk ;;;
  ret created.

Definition delete_inbound_trunk (trunk_id : string) : M World unit :=
  lk <- LiveKitAPI ;;
  call lk (DeleteSIPTrunkRequest trunk_id) (fun h => delete_sip_trunk cp h trunk_id) ;;;
  print ("Deleted trunk: " +:+ trunk_id) ;;;
  aclose lk.

Definition delete_dispatch_rule (rule_id : string) : M World unit :=
  lk <- LiveKitAPI ;;
  call lk (DeleteSIPDispatchRuleRequest rule_id)
    (fun h => delete_sip_dispatch_rule cp h rule_id) ;;;
  print ("Deleted dispatch rule: " +:+ rule_id) ;;;
  aclose lk.

Definition setup_twilio_trunk (phone_number twilio_domain : string)
    (twilio_username twilio_password : option string)
  : M World (SIPInboundTrunkInfo * SIPOutboundTrunkInfo * SIPDispatchRuleInfo) :=
  print "Setting up Twilio SIP Trunk..." ;;;
  inbound <- create_inbound_trunk "Twilio Inbound" [phone_number] None ;;
  outbound <- create_outbound_trunk "Twilio Outbound" twilio_domain [phone_number]
                twilio_username twilio_password ;;
  created <- create_dispatch_rule "Voice Agent Dispatch" "call-"
               (Some [in_sip_trunk_id inbound]) ;;
  print (String "010" "=== Setup Complete ===") ;;;
  print ("Inbound Trunk ID: " +:+ in_sip_trunk_id inbound) ;;;
  print ("Outbound Trunk ID: " +:+ out_sip_trunk_id outbound) ;;;
  print ("Dispatch Rule ID: " +:+ sip_dispatch_rule_id created) ;;;
  ret (inbound, outbound, created).

Definition usage : string :=
  String "010" ("LiveKit SIP Management Script" +:+ String "010" (String "010" (
  "Usage:" +:+ String "010" (
  "    python sip_manager.py list           - List all trunks and rules" +:+ String "010" (
  "    python sip_manager.py setup          - Interactive setup for Twilio" +:+ String "010" (
  "    python sip_manager.py delete-all     - Delete all trunks and rules" +:+ String "010" (
  "        "))))))).

(** The script body under [if __name__ == "__main__"], given [sys.argv]. *)
Definition main (argv : list string) : M World unit :=
  match argv with
  | [] | [_] => print usage ;;; raise (SystemExit 0)
  | _ :: command :: _ =>
      if String.eqb command "list" then
        list_sip_trunks ;;; list_dispatch_rules
      else if String.eqb command "setup" then
        print "Twilio SIP Trunk Setup" ;;;
        phone <- input "Enter your Twilio phone number (e.g., +1234567890): " ;;
        domain <- input "Enter your Twilio SIP domain (e.g., xxx.pstn.twilio.com): " ;;
        username <- input "Enter Twilio username (press Enter to skip): " ;;
        password <- input "Enter Twilio password (press Enter to skip): " ;;
        setup_twilio_trunk phone domain (or_none username) (or_none password) ;;;
        ret tt
      else if String.eqb command "delete-all" then
        confirm <- input "Are you sure you want to delete all SIP trunks and rules? (yes/no): " ;;
        if String.eqb (lower confirm) "yes" then
          list_sip_trunks ;;;
          print "Deletion not implemented - use lk.exe CLI to delete individual items"
        else ret tt
      else print ("Unknown command: " +:+ command)
  end.

(** The operations of the tool. *)
Inductive Operation : Type :=
| OpListTrunks
| OpListRules
| OpList
| OpCreateInbound (name : string) (numbers : list string)
                  (allowed_addresses : option (list string))
| OpCreateOutbound (name address : string) (numbers : list string)
                   (auth_username auth_password : option string)
| OpCreateRule (name room_prefix : string) (trunk_ids : option (list string))
| OpDeleteTrunk (trunk_id : string)
| OpDeleteRule (rule_id : string)
| OpSetup (phone_number twilio_domain : string)
          (twilio_username twilio_password : option string).

Definition run (op : Operation) : M World unit :=
  match op with
  | OpListTrunks => list_sip_trunks
  | OpListRules => list_dispatch_rules
  | OpList => list_sip_trunks ;;; list_dispatch_rules
  | OpCreateInbound n ns a => create_inbound_trunk n ns a ;;; ret tt
  | OpCreateOutbound n a ns u p => create_outbound_trunk n a ns u p ;;; ret tt
  | OpCreateRule n r t => create_dispatch_rule n r t ;;; ret tt
  | OpDeleteTrunk t => delete_inbound_trunk t
  | OpDeleteRule r => delete_dispatch_rule r
  | OpSetup ph d u p => setup_twilio_trunk ph d u p ;;; ret tt
  end.

End Tool.

(** The request of an operation that concerns one resource. *)
Definition single_request (op : Operation) : option Request :=
  match op with
  | OpCreateInbound name numbers allowed_addresses =>
      Some (CreateSIPInboundTrunkRequest
              {| in_sip_trunk_id := EmptyString; in_name := name; in_numbers := numbers;
                 in_allowed_addresses := list_or_empty allowed_addresses |})
  | OpCreateOutbound name address numbers auth_username auth_password =>
      Some (CreateSIPOutboundTrunkRequest
              {| out_sip_trunk_id := EmptyString; out_name := name; out_address := address;
                 out_numbers := numbers;
                 out_auth_username := str_or auth_username EmptyString;
                 out_auth_password := str_or auth_password EmptyString |})
  | OpCreateRule name room_prefix trunk_ids =>
      Some (CreateSIPDispatchRuleRequest name (list_or_empty trunk_ids)
              (dispatch_rule_individual room_prefix))
  | OpDeleteTrunk trunk_id => Some (DeleteSIPTrunkRequest trunk_id)
  | OpDeleteRule rule_id => Some (DeleteSIPDispatchRuleRequest rule_id)
  | OpListTrunks | OpListRules | OpList | OpSetup _ _ _ _ => None
  end.

(** The clients opened between two traces that are open at the end. *)
Definition leaked (before after : list Event) : list nat :=
  filter (fun c => c ∉ opened before) (still_open after).

(** A run [m] from [w] ends in [o] after adding the events [d]. *)
Definition runs {A} (m : M World A) (w : World) (o : outcome A) (d : list Event)
    (rest : list string) : Prop :=
  m w = (o, {| trace := trace w ++ d; stdin := rest |}).

(** Any run adds events to the trace and consumes a prefix of the input;
    [shape m P] says that what it adds satisfies [P]. *)
Definition shape {A} (m : M World A) (P : outcome A -> list Event -> Prop) : Prop :=
  forall w, exists o d i, runs m w o d i /\ P o d.

(** What a run may add: only requests accepted by [allowed], and, when it
    ends without an exception, as many closings as openings, client for
    client. *)
Definition tidy (allowed : Request -> bool) {A} (o : outcome A) (d : list Event) : Prop :=
  (is_ok o = true -> opened d = closed d) /\ forallb allowed (requests d) = true.

(** Inside one client session: the run opens [os] and closes [cs] when it
    ends without an exception. *)
Definition bal (os cs : list nat) (allowed : Request -> bool) {A}
    (o : outcome A) (d : list Event) : Prop :=
  (is_ok o = true -> opened d = os /\ closed d = cs) /\
  forallb allowed (requests d) = true.

Definition is_list_trunks (r : Request) : bool :=
  match r with
  | ListSIPInboundTrunkRequest | ListSIPOutboundTrunkRequest => true
  | _ => false
  end.

Definition any_request (r : Request) : bool := true.

(** A control plane where every call returns. *)
Definition obliging : ControlPlane := {|
  list_sip_inbound_trunk _ := Ok [];
  list_sip_outbound_trunk _ := Ok [];
  list_sip_dispatch_rule _ := Ok [];
  create_sip_inbound_trunk _ t :=
    Ok {| in_sip_trunk_id := "ST_in"; in_name := in_name t; in_numbers := in_numbers t;
          in_allowed_addresses := in_allowed_addresses t |};
  create_sip_outbound_trunk _ t :=
    Ok {| out_sip_trunk_id := "ST_out"; out_name := out_name t;
          out_address := out_address t; out_numbers := out_numbers t;
          out_auth_username := out_auth_username t;
          out_auth_password := out_auth_password t |};
  create_sip_dispatch_rule _ name ids r :=
    Ok {| sip_dispatch_rule_id := "SDR_1"; rule_name := name; rule_trunk_ids := ids;
          rule := r |};
  delete_sip_trunk _ _ := Ok tt;
  delete_sip_dispatch_rule _ _ := Ok tt |}.

(** A control plane that cannot be reached. *)
Definition unreachable : ControlPlane := {|
  list_sip_inbound_trunk _ := Raise (RemoteError "connection refused");
  list_sip_outbound_trunk _ := Raise (RemoteError "connection refused");
  list_sip_dispatch_rule _ := Raise (RemoteError "connection refused");
  create_sip_inbound_trunk _ _ := Raise (RemoteError "connection refused");
  create_sip_outbound_trunk _ _ := Raise (RemoteError "connection refused");
  create_sip_dispatch_rule _ _ _ _ := Raise (RemoteError "connection refused");
  delete_sip_trunk _ _ := Raise (RemoteError "connection refused");
  delete_sip_dispatch_rule _ _ := Raise (RemoteError "connection refused") |}.

Definition show_plain (l : list string) : string := String.concat ", " l.
Definition show_rule_plain (r : SIPDispatchRule) : string :=
  match r with
  | dispatch_rule_direct n => n
  | dispatch_rule_individual p => p
  | dispatch_rule_callee p => p
  end.

Definition start : World := {| trace := []; stdin := [] |}.

(** The three creation requests of [setup_twilio_trunk]. *)
Definition inbound_request (phone : string) : SIPInboundTrunkInfo :=
  {| in_sip_trunk_id := EmptyString; in_name := "Twilio Inbound";
     in_numbers := [phone]; in_allowed_addresses := [] |}.

Definition outbound_request (phone domain : string) (user pass : option string)
  : SIPOutboundTrunkInfo :=
  {| out_sip_trunk_id := EmptyString; out_name := "Twilio Outbound";
     out_address := domain; out_numbers := [phone];
     out_auth_username := str_or user EmptyString;
     out_auth_password := str_or pass EmptyString |}.

Definition is_list (r : Request) : bool :=
  match r with
  | ListSIPInboundTrunkRequest | ListSIPOutboundTrunkRequest
  | ListSIPDispatchRuleRequest => true
  | _ => false
  end.

(** A run that ends without an exception has sent exactly [rs]. *)
Definition sends (rs : list Request) {A} (o : outcome A) (d : list Event) : Prop :=
  is_ok o = true -> requests d = rs.

(** A run that opens no client, closes none and sends nothing. *)
Definition silent (d : list Event) : Prop :=
  requests d = [] /\ opened d = [] /\ closed d = [].

(** The commands that [main] knows. *)
Definition known_command (command : string) : bool :=
  String.eqb command "list" || String.eqb command "setup" ||
  String.eqb command "delete-all".

(** A control plane that creates inbound trunks and nothing else. *)
Definition outbound_down : ControlPlane := {|
  list_sip_inbound_trunk := list_sip_inbound_trunk obliging;
  list_sip_outbound_trunk := list_sip_outbound_trunk obliging;
  list_sip_dispatch_rule := list_sip_dispatch_rule obliging;
  create_sip_inbound_trunk := create_sip_inbound_trunk obliging;
  create_sip_outbound_trunk _ _ := Raise (RemoteError "service unavailable");
  create_sip_dispatch_rule := create_sip_dispatch_rule obliging;
  delete_sip_trunk := delete_sip_trunk obliging;
  delete_sip_dispatch_rule := delete_sip_dispatch_rule obliging |}.

End Sip.

(** ** Recorders and mixdown ([agent.py], [agent1.py]) *)

Module Rec.
Import Py.
Local Open Scope Z_scope.

Abbreviation byte := Byte.byte.
Abbreviation bytes := (list Byte.byte).

Definition byte_to_Z (b : byte) : Z := Z.of_N (Byte.to_N b).

Definition byte_of_Z (z : Z) : byte :=
  match Byte.of_N (Z.to_N (z mod 256)) with
  | Some b => b
  | None => Byte.x00
  end.

(** *** [struct]: format [<Nh], little-endian signed 16-bit *)

Definition int16_min : Z := -32768.
Definition int16_max : Z := 32767.

Definition in_int16 (v : Z) : bool := (int16_min <=? v) && (v <=? int16_max).

Definition in16 (v : Z) : Prop := -32768 <= v <= 32767.

Definition decode_h (lo hi : byte) : Z :=
  let u := byte_to_Z lo + 256 * byte_to_Z hi in
  if u <? 32768 then u else u - 65536.

Definition encode_h (v : Z) : bytes :=
  [byte_of_Z v; byte_of_Z (v / 256)].

Fixpoint unpack_pairs (data : bytes) : list Z :=
  match data with
  | lo :: hi :: rest => decode_h lo hi :: unpack_pairs rest
  | _ => []
  end.

(** [struct.unpack(f'<{count}h', data)]: the buffer must hold exactly
    [2 * count] bytes; the error names the size that the format requires. *)
Definition struct_unpack_h (count : Z) (data : bytes) : outcome (list Z) :=
  if Z.of_nat (length data) =? 2 * count then Ok (unpack_pairs data)
  else Raise (StructError ("unpack requires a buffer of " +:+ str_of_int (2 * count) +:+
                           " bytes")).

(** [struct.pack(f'<{count}h', *values)]: as many values as announced, each
    a signed 16-bit number. *)
Definition struct_pack_h (count : Z) (values : list Z) : outcome bytes :=
  if negb (Z.of_nat (length values) =? count) then
    Raise (StructError ("pack expected " +:+ str_of_int count +:+
                        " items for packing (got " +:+
                        str_of_int (Z.of_nat (length values)) +:+ ")"))
  else if forallb in_int16 values then Ok (flat_map encode_h values)
  else Raise (StructError "'h' format requires -32768 <= number <= 32767").

(** *** The transcript *)

Inductive Message : Type :=
| UserMessage (text : string) (timestamp : Z) (language : option string)
| AgentMessage (text : string) (timestamp : Z).

Definition message_role (m : Message) : string :=
  match m with UserMessage _ _ _ => "user" | AgentMessage _ _ => "assistant" end.

Definition message_text (m : Message) : string :=
  match m with UserMessage t _ _ => t | AgentMessage t _ => t end.

(** The dictionary that [json.dump] writes. *)
Record RecordingData : Type := {
  start_time : Z;
  end_time : Z;
  duration_seconds : Q;
  messages : list Message }.

(** *** The outside world of a call *)

Inductive File : Type :=
| WavFile (nchannels sampwidth framerate : Z) (data : bytes)
| JsonFile (doc : RecordingData)
| RawFile (content : bytes).

(** What the process does, oldest first.  [Stopped] marks a call of a
    recorder's [stop]; [Wrote] a file created or replaced. *)
Inductive Event : Type :=
| Printed (line : string)
| PrintedError (prefix : string) (e : exn)
| Stopped (filepath : string)
| Wrote (filepath : string).

(** [clock k] is what the [k]-th call of [datetime.now()] returns, in
    microseconds; [fs_error path] is the error that opening [path] for
    writing raises, if any. *)
Record World : Type := {
  files : gmap string File;
  fs_error : string -> option string;
  clock : nat -> Z;
  reads : nat;
  trace : list Event }.

Definition emit (e : Event) (w : World) : World :=
  {| files := files w; fs_error := fs_error w; clock := clock w; reads := reads w;
     trace := trace w ++ [e] |}.

(** The recorders stopped and the files written along a trace. *)
Fixpoint stops (tr : list Event) : list string :=
  match tr with
  | [] => []
  | Stopped p :: rest => p :: stops rest
  | _ :: rest => stops rest
  end.

Fixpoint writes (tr : list Event) : list string :=
  match tr with
  | [] => []
  | Wrote p :: rest => p :: writes rest
  | _ :: rest => writes rest
  end.

(** A world with no file, where every path can be written. *)
Definition blank_world : World :=
  {| files := ∅; fs_error := fun _ => None; clock := fun k => Z.of_nat k * 1000000;
     reads := 0; trace := [] |}.

Definition print (line : string) (w : World) : World := emit (Printed line) w.

(** [datetime.now()] *)
Definition now (w : World) : Z * World :=
  (clock w (reads w),
   {| files := files w; fs_error := fs_error w; clock := clock w;
      reads := S (reads w); trace := trace w |}).

Definition store (path : string) (f : File) (w : World) : World :=
  emit (Wrote path)
    {| files := <[path := f]> (files w); fs_error := fs_error w; clock := clock w;
       reads := reads w; trace := trace w |}.

(** [os.path.exists(path)] *)
Definition exists_ (path : string) (w : World) : bool :=
  match files w !! path with Some _ => true | None => false end.

(** [wave.open(path, 'wb')], the three setters, [writeframes] and the
    closing of the file.  Opening creates the file; a rejected parameter
    leaves it empty. *)
Definition wave_write (path : string) (nchannels sampwidth framerate : Z)
    (data : bytes) (w : World) : outcome unit * World :=
  match fs_error w path with
  | Some msg => (Raise (OSError msg), w)
  | None =>
      if nchannels <? 1 then
        (Raise (WaveError "bad # of channels"), store path (RawFile []) w)
      else if (sampwidth <? 1) || (4 <? sampwidth) then
        (Raise (WaveError "bad sample width"), store path (RawFile []) w)
      else if framerate <=? 0 then
        (Raise (WaveError "bad frame rate"), store path (RawFile []) w)
      else (Ok tt, store path (WavFile nchannels sampwidth framerate data) w)
  end.

(** [readframes(nframes)] with the [nframes] of the header: the frames that
    the data holds in full. *)
Definition whole_frames (nchannels sampwidth : Z) (data : bytes) : bytes :=
  let framesize := nchannels * sampwidth in
  let nframes := Z.of_nat (length data) / framesize in
  firstn (Z.to_nat (nframes * framesize)) data.

(** [wave.open(path, 'rb')], [getparams()] and [readframes(nframes)]:
    channels, sample width, rate and the whole frames of the data. *)
Definition wave_read (path : string) (w : World) : outcome (Z * Z * Z * bytes) :=
  match files w !! path with
  | None => Raise (OSError "No such file or directory")
  | Some (WavFile nchannels sampwidth framerate data) =>
      if (nchannels <? 1) then Raise (WaveError "bad # of channels")
      else if (sampwidth <? 1) then Raise (WaveError "bad sample width")
      else Ok (nchannels, sampwidth, framerate, whole_frames nchannels sampwidth data)
  | Some _ => Raise (WaveError "file does not start with RIFF id")
  end.

(** [rtc.AudioFrame] *)
Record AudioFrame : Type := {
  frame_data : bytes;
  frame_sample_rate : Z;
  frame_num_channels : Z }.

(** *** [LocalAudioRecorder] (variant A) *)

Record LocalAudioRecorder : Type := {
  la_filepath : string;
  la_sample_rate : Z;
  la_num_channels : Z;
  la_frames : list bytes;
  la_is_recording : bool }.

Module LocalAudioRecorder.

(** [__init__]; the defaults are 48000 Hz and one channel. *)
Definition init (filepath : string) (sample_rate num_channels : Z) : LocalAudioRecorder :=
  {| la_filepath := filepath; la_sample_rate := sample_rate;
     la_num_channels := num_channels; la_frames := []; la_is_recording := false |}.

Definition default_sample_rate : Z := 48000.
Definition default_num_channels : Z := 1.

Definition start (self : LocalAudioRecorder) (w : World) : LocalAudioRecorder * World :=
  ({| la_filepath := la_filepath self; la_sample_rate := la_sample_rate self;
      la_num_channels := la_num_channels self; la_frames := [];
      la_is_recording := true |},
   print ("Local audio recording started: " +:+ la_filepath self) w).

(** [add_frame]; [None] is a missing frame. *)
Definition add_frame (self : LocalAudioRecorder) (frame : option AudioFrame)
  : LocalAudioRecorder :=
  match frame with
  | Some f =>
      if la_is_recording self then
        {| la_filepath := la_filepath self; la_sample_rate := la_sample_rate self;
           la_num_channels := la_num_channels self;
           la_frames := la_frames self ++ [frame_data f];
           la_is_recording := true |}
      else self
  | None => self
  end.

(** The [try] block of [stop]. *)
Definition save (self : LocalAudioRecorder) (w : World) : outcome unit * World :=
  let audio_data := concat (la_frames self) in
  match wave_write (la_filepath self) (la_num_channels self) 2 (la_sample_rate self)
          audio_data w with
  | (Raise e, w1) => (Raise e, w1)
  | (Ok _, w1) =>
      match Float.int_truediv (Z.of_nat (length audio_data))
              (la_sample_rate self * la_num_channels self * 2) with
      | Raise e => (Raise e, w1)
      | Ok duration =>
          (Ok tt,
           print ("Local audio recording saved: " +:+ la_filepath self +:+ " (" +:+
                  Float.format_1f duration +:+ " seconds, " +:+
                  str_of_int (Z.of_nat (length (la_frames self))) +:+ " frames)") w1)
      end
  end.

Definition stop (self : LocalAudioRecorder) (w : World) : LocalAudioRecorder * World :=
  let self' := {| la_filepath := la_filepath self; la_sample_rate := la_sample_rate self;
                  la_num_channels := la_num_channels self; la_frames := la_frames self;
                  la_is_recording := false |} in
  let w0 := emit (Stopped (la_filepath self)) w in
  match la_frames self with
  | [] => (self', print "No audio frames recorded" w0)
  | _ :: _ =>
      match save self' w0 with
      | (Ok _, w1) => (self', w1)
      | (Raise e, w1) => (self', emit (PrintedError "Error saving audio recording: " e) w1)
      end
  end.

(** The frames of a track delivered one after the other. *)
Definition add_frames (self : LocalAudioRecorder) (frames : list AudioFrame)
  : LocalAudioRecorder :=
  fold_left (fun r f => add_frame r (Some f)) frames self.

(** [start], the frames, [stop]: the recorder of [my_agent]. *)
Definition session (filepath : string) (frames : list AudioFrame) (w : World)
  : LocalAudioRecorder * World :=
  let (r, w1) := start (init filepath default_sample_rate default_num_channels) w in
  stop (add_frames r frames) w1.

End LocalAudioRecorder.

(** *** [AudioRecorder] (variant B) *)

Record AudioRecorder : Type := {
  ar_filepath : string;
  ar_num_channels : Z;
  ar_frames : list bytes;
  ar_sample_rate : option Z;
  ar_is_recording : bool }.

Module AudioRecorder.

Definition init (filepath : string) (num_channels : Z) : AudioRecorder :=
  {| ar_filepath := filepath; ar_num_channels := num_channels; ar_frames := [];
     ar_sample_rate := None; ar_is_recording := false |}.

Definition start (self : AudioRecorder) (w : World) : AudioRecorder * World :=
  ({| ar_filepath := ar_filepath self; ar_num_channels := ar_num_channels self;
      ar_frames := []; ar_sample_rate := None; ar_is_recording := true |},
   print ("Audio recording started: " +:+ ar_filepath self) w).

Definition add_frame (self : AudioRecorder) (frame : option AudioFrame) (w : World)
  : AudioRecorder * World :=
  match frame with
  | Some f =>
      if ar_is_recording self then
        match ar_sample_rate self with
        | None =>
            ({| ar_filepath := ar_filepath self; ar_num_channels := ar_num_channels self;
                ar_frames := ar_frames self ++ [frame_data f];
                ar_sample_rate := Some (frame_sample_rate f);
                ar_is_recording := true |},
             print ("  Detected sample rate: " +:+ str_of_int (frame_sample_rate f) +:+
                    " Hz for " +:+ ar_filepath self) w)
        | Some _ =>
            ({| ar_filepath := ar_filepath self; ar_num_channels := ar_num_channels self;
                ar_frames := ar_frames self ++ [frame_data f];
                ar_sample_rate := ar_sample_rate self;
                ar_is_recording := true |}, w)
        end
      else (self, w)
  | None => (self, w)
  end.

Definition save (self : AudioRecorder) (sample_rate : Z) (w : World)
  : outcome unit * World :=
  let audio_data := concat (ar_frames self) in
  match wave_write (ar_filepath self) (ar_num_channels self) 2 sample_rate audio_data w with
  | (Raise e, w1) => (Raise e, w1)
  | (Ok _, w1) =>
      match Float.int_truediv (Z.of_nat (length audio_data))
              (sample_rate * ar_num_channels self * 2) with
      | Raise e => (Raise e, w1)
      | Ok duration =>
          (Ok tt,
           print ("Audio saved: " +:+ ar_filepath self +:+ " (" +:+
                  Float.format_1f duration +:+ "s, " +:+ str_of_int sample_rate +:+
                  "Hz, " +:+ str_of_int (Z.of_nat (length (ar_frames self))) +:+
                  " frames)") w1)
      end
  end.

Definition stop (self : AudioRecorder) (w : World) : AudioRecorder * World :=
  let w0 := emit (Stopped (ar_filepath self)) w in
  match ar_frames self with
  | [] =>
      ({| ar_filepath := ar_filepath self; ar_num_channels := ar_num_channels self;
          ar_frames := []; ar_sample_rate := ar_sample_rate self;
          ar_is_recording := false |},
       print ("No audio frames recorded for " +:+ ar_filepath self) w0)
  | _ :: _ =>
      let rate := match ar_sample_rate self with Some r => r | None => 48000 end in
      let self' := {| ar_filepath := ar_filepath self;
                      ar_num_channels := ar_num_channels self;
                      ar_frames := ar_frames self; ar_sample_rate := Some rate;
                      ar_is_recording := false |} in
      match save self' rate w0 with
      | (Ok _, w1) => (self', w1)
      | (Raise e, w1) => (self', emit (PrintedError "Error saving audio recording: " e) w1)
      end
  end.

(** The frames of a track delivered one after the other. *)
Definition add_frames (self : AudioRecorder) (frames : list AudioFrame) (w : World)
  : AudioRecorder * World :=
  fold_left (fun rw f => add_frame (fst rw) (Some f) (snd rw)) frames (self, w).

(** The recorder after the frames, whatever the world: the buffer grows,
    and a rate not yet known is the rate of the first frame. *)
Definition fed (self : AudioRecorder) (frames : list AudioFrame) : AudioRecorder :=
  {| ar_filepath := ar_filepath self; ar_num_channels := ar_num_channels self;
     ar_frames := ar_frames self ++ map frame_data frames;
     ar_sample_rate :=
       match ar_sample_rate self with
       | Some rate => Some rate
       | None => option_map frame_sample_rate (head frames)
       end;
     ar_is_recording := ar_is_recording self |}.

(** What every call keeps: a buffer that holds a frame has a rate. *)
Definition rated (self : AudioRecorder) : Prop :=
  ar_frames self = [] \/ exists rate, ar_sample_rate self = Some rate.

(** [AudioRecorder(filepath)] as [start_recording] builds it. *)
Definition default_num_channels : Z := 1.

(** [start], the frames, [stop]. *)
Definition session (filepath : string) (frames : list AudioFrame) (w : World)
  : AudioRecorder * World :=
  let (r, w1) := start (init filepath default_num_channels) w in
  let (r', w2) := add_frames r frames w1 in
  stop r' w2.

(** One call of the recorder from outside, for sequences of calls. *)
Inductive Call : Type :=
| CallStart
| CallAddFrame (frame : option AudioFrame)
| CallStop.

Definition step (c : Call) (rw : AudioRecorder * World) : AudioRecorder * World :=
  match c with
  | CallStart => start (fst rw) (snd rw)
  | CallAddFrame frame => add_frame (fst rw) frame (snd rw)
  | CallStop => stop (fst rw) (snd rw)
  end.

Definition steps (cs : list Call) (rw : AudioRecorder * World) : AudioRecorder * World :=
  fold_left (fun acc c => step c acc) cs rw.

End AudioRecorder.

(** *** [ConversationRecorder] (the same class in both variants) *)

Record ConversationRecorder : Type := {
  cr_filepath : string;
  cr_transcript : list Message;
  cr_start_time : Z;
  cr_is_recording : bool }.

Module ConversationRecorder.

Definition init (filepath : string) (w : World) : ConversationRecorder * World :=
  let (t, w1) := now w in
  ({| cr_filepath := filepath; cr_transcript := []; cr_start_time := t;
      cr_is_recording := false |}, w1).

Definition start (self : ConversationRecorder) (w : World) : ConversationRecorder * World :=
  let (t, w1) := now w in
  ({| cr_filepath := cr_filepath self; cr_transcript := []; cr_start_time := t;
      cr_is_recording := true |},
   print ("Conversation recording started: " +:+ cr_filepath self) w1).

Definition append (self : ConversationRecorder) (m : Message) : ConversationRecorder :=
  {| cr_filepath := cr_filepath self; cr_transcript := cr_transcript self ++ [m];
     cr_start_time := cr_start_time self; cr_is_recording := cr_is_recording self |}.

(** The guard of both [add_] methods: [self.is_recording and text.strip()]. *)
Definition accepts (self : ConversationRecorder) (text : string) : bool :=
  cr_is_recording self && truthy_str (strip text).

Definition add_user_message (self : ConversationRecorder) (text : string)
    (language : option string) (w : World) : ConversationRecorder * World :=
  if accepts self text then
    let (t, w1) := now w in (append self (UserMessage text t language), w1)
  else (self, w).

Definition default_language : option string := Some "en".

Definition add_agent_message (self : ConversationRecorder) (text : string) (w : World)
  : ConversationRecorder * World :=
  if accepts self text then
    let (t, w1) := now w in (append self (AgentMessage text t), w1)
  else (self, w).

(** The [try] block of [stop]: the dictionary is built, then the file is
    opened and written. *)
Definition save (self : ConversationRecorder) (w : World) : outcome unit * World :=
  let (t_end, w1) := now w in
  let (t_now, w2) := now w1 in
  match Float.int_truediv (t_now - cr_start_time self) 1000000 with
  | Raise e => (Raise e, w2)
  | Ok seconds =>
      let recording_data :=
        {| start_time := cr_start_time self; end_time := t_end;
           duration_seconds := seconds; messages := cr_transcript self |} in
      match fs_error w2 (cr_filepath self) with
      | Some msg => (Raise (OSError msg), w2)
      | None =>
          (Ok tt,
           print ("Conversation recording saved: " +:+ cr_filepath self +:+ " (" +:+
                  str_of_int (Z.of_nat (length (cr_transcript self))) +:+ " messages)")
             (store (cr_filepath self) (JsonFile recording_data) w2))
      end
  end.

Definition stop (self : ConversationRecorder) (w : World) : ConversationRecorder * World :=
  let self' := {| cr_filepath := cr_filepath self; cr_transcript := cr_transcript self;
                  cr_start_time := cr_start_time self; cr_is_recording := false |} in
  let w0 := emit (Stopped (cr_filepath self)) w in
  match cr_transcript self with
  | [] => (self', print "No conversation recorded" w0)
  | _ :: _ =>
      match save self' w0 with
      | (Ok _, w1) => (self', w1)
      | (Raise e, w1) =>
          (self', emit (PrintedError "Error saving conversation recording: " e) w1)
      end
  end.

(** One call of the recorder from outside, for sequences of calls. *)
Inductive Call : Type :=
| CallStart
| CallAddUser (text : string) (language : option string)
| CallAddAgent (text : string)
| CallStop.

Definition step (c : Call) (sw : ConversationRecorder * World)
  : ConversationRecorder * World :=
  match c with
  | CallStart => start (fst sw) (snd sw)
  | CallAddUser text language => add_user_message (fst sw) text language (snd sw)
  | CallAddAgent text => add_agent_message (fst sw) text (snd sw)
  | CallStop => stop (fst sw) (snd sw)
  end.

Definition steps (cs : list Call) (sw : ConversationRecorder * World)
  : ConversationRecorder * World :=
  fold_left (fun acc c => step c acc) cs sw.

(** Role and text of the entry a call offers, when it offers one. *)
Definition offered (c : Call) : option (string * string) :=
  match c with
  | CallAddUser text _ => Some ("user", text)
  | CallAddAgent text => Some ("assistant", text)
  | _ => None
  end.

(** A text made of white space only (the empty text included). *)
Fixpoint blank (text : string) : bool :=
  match text with
  | EmptyString => true
  | String c rest => is_space c && blank rest
  end.

(** What the transcript must hold after the calls [cs], as roles and
    texts: [start] empties it and switches recording on, [stop] switches it
    off, and an offer is added at the end when recording is on and the text
    is not blank. *)
Fixpoint expected (active : bool) (sofar : list (string * string)) (cs : list Call)
  : list (string * string) :=
  match cs with
  | [] => sofar
  | CallStart :: rest => expected true [] rest
  | CallStop :: rest => expected false sofar rest
  | CallAddUser text _ :: rest =>
      expected active
        (if active && negb (blank text) then sofar ++ [("user", text)] else sofar) rest
  | CallAddAgent text :: rest =>
      expected active
        (if active && negb (blank text) then sofar ++ [("assistant", text)] else sofar)
        rest
  end.

Definition summary (m : Message) : string * string := (message_role m, message_text m).

(** No entry of the transcript is blank. *)
Definition clean (self : ConversationRecorder) : Prop :=
  Forall (fun m => blank (message_text m) = false) (cr_transcript self).

Definition message_timestamp (m : Message) : Z :=
  match m with UserMessage _ t _ => t | AgentMessage _ t => t end.

(** The instants of a recording in the order in which they are written:
    the start, then the entries. *)
Definition instants (self : ConversationRecorder) : list Z :=
  cr_start_time self :: map message_timestamp (cr_transcript self).

(** The dictionary that [stop] builds from a recorder in the world [w]:
    the end is the next reading of the clock and the duration is taken from
    the reading after that. *)
Definition recording_data (self : ConversationRecorder) (w : World) : RecordingData :=
  {| start_time := cr_start_time self;
     end_time := clock w (reads w);
     duration_seconds :=
       Float.round (inject_Z (clock w (S (reads w)) - cr_start_time self) /
                    inject_Z 1000000);
     messages := cr_transcript self |}.

(** A clock that never goes back. *)
Definition monotone (clock : nat -> Z) : Prop :=
  forall i j, (i <= j)%nat -> clock i <= clock j.

(** What every call keeps under a clock [c] that never goes back: the
    world still reads [c], the instants are in order, and none is later
    than the next reading. *)
Definition timely (c : nat -> Z) (rw : ConversationRecorder * World) : Prop :=
  clock (snd rw) = c /\
  StronglySorted Z.le (instants (fst rw)) /\
  Forall (fun t => t <= c (reads (snd rw))) (instants (fst rw)).

End ConversationRecorder.

(** *** [combine_audio_files] (variant B) *)

Definition len {A} (l : list A) : Z := Z.of_nat (length l).

Definition interpolate (s0 s1 : Z) (frac : Q) : Z :=
  Float.to_int
    (Float.add (Float.mul (Float.of_int s0) (Float.sub (Float.of_int 1) frac))
               (Float.mul (Float.of_int s1) frac)).

(** The body of the loop of [resample] for the output index [i]. *)
Definition resample_at (samples : list Z) (ratio : Q) (i : Z) : outcome Z :=
  and_then (Float.truediv (Float.of_int i) ratio) (fun src_idx =>
  let idx := Float.to_int src_idx in
  if idx >=? len samples - 1 then getitem samples (-1)
  else
    let frac := Float.sub src_idx (Float.of_int idx) in
    and_then (getitem samples idx) (fun s0 =>
    and_then (getitem samples (idx + 1)) (fun s1 =>
    Ok (interpolate s0 s1 frac)))).

Definition resample (samples : list Z) (from_rate to_rate : Z) : outcome (list Z) :=
  if from_rate =? to_rate then Ok samples
  else
    and_then (Float.int_truediv to_rate from_rate) (fun ratio =>
    let new_length := Float.to_int (Float.mul (Float.of_int (len samples)) ratio) in
    collect (resample_at samples ratio) (range new_length)).

(** [samples.extend([0] * (max_length - len(samples)))] *)
Definition pad (samples : list Z) (max_length : Z) : list Z :=
  samples ++ repeat 0 (Z.to_nat (max_length - len samples)).

Definition clamp (v : Z) : Z := Z.max (-32768) (Z.min 32767 v).

Definition mix (u a : Z) : Z := clamp ((u + a) / 2).

Fixpoint zip_mix (us as_ : list Z) : list Z :=
  match us, as_ with
  | u :: us', a :: as' => mix u a :: zip_mix us' as'
  | _, _ => []
  end.

(** The mix without the clamp. *)
Definition average (u a : Z) : Z := (u + a) / 2.

Fixpoint zip_average (us as_ : list Z) : list Z :=
  match us, as_ with
  | u :: us', a :: as' => average u a :: zip_average us' as'
  | _, _ => []
  end.

(** The samples of the mixdown of two decoded recordings. *)
Definition mixdown (user_samples : list Z) (user_rate : Z)
    (agent_samples : list Z) (agent_rate : Z) : outcome (list Z) :=
  let target_sample_rate := Z.max user_rate agent_rate in
  and_then (resample user_samples user_rate target_sample_rate) (fun user_samples =>
  and_then (resample agent_samples agent_rate target_sample_rate) (fun agent_samples =>
  let max_length := Z.max (len user_samples) (len agent_samples) in
  Ok (zip_mix (pad user_samples max_length) (pad agent_samples max_length)))).

(** The [try] block of [combine_audio_files]. *)
Definition combine_try (user_audio_path agent_audio_path output_path : string)
    (w : World) : outcome unit * World :=
  match wave_read user_audio_path w with
  | Raise e => (Raise e, w)
  | Ok (_, _, user_rate, user_frames) =>
  match wave_read agent_audio_path w with
  | Raise e => (Raise e, w)
  | Ok (_, _, agent_rate, agent_frames) =>
  let target_sample_rate := Z.max user_rate agent_rate in
  match
    and_then (struct_unpack_h (len user_frames / 2) user_frames) (fun user_samples =>
    and_then (struct_unpack_h (len agent_frames / 2) agent_frames) (fun agent_samples =>
    and_then (mixdown user_samples user_rate agent_samples agent_rate) (fun mixed_samples =>
    and_then (struct_pack_h (len mixed_samples) mixed_samples) (fun mixed_bytes =>
    Ok (mixed_samples, mixed_bytes)))))
  with
  | Raise e => (Raise e, w)
  | Ok (mixed_samples, mixed_bytes) =>
  match wave_write output_path 1 2 target_sample_rate mixed_bytes w with
  | (Raise e, w1) => (Raise e, w1)
  | (Ok _, w1) =>
  match Float.int_truediv (len mixed_samples) target_sample_rate with
  | Raise e => (Raise e, w1)
  | Ok duration =>
      (Ok tt,
       print ("Combined audio saved: " +:+ output_path +:+ " (" +:+
              Float.format_1f duration +:+ "s, " +:+ str_of_int target_sample_rate +:+
              "Hz)") w1)
  end end end end end.

Definition combine_audio_files (user_audio_path agent_audio_path output_path : string)
    (w : World) : bool * World :=
  match combine_try user_audio_path agent_audio_path output_path w with
  | (Ok _, w1) => (true, w1)
  | (Raise e, w1) => (false, emit (PrintedError "Error combining audio files: " e) w1)
  end.

(** A frame of two samples. *)
Definition one_frame : AudioFrame :=
  {| frame_data := [Byte.x01; Byte.x00; Byte.xff; Byte.x7f];
     frame_sample_rate := 48000; frame_num_channels := 1 |}.

(** A step that calls no [stop]. *)
Definition stopless (w w' : World) : Prop := stops (trace w') = stops (trace w).


(** The directories of the file system, and what refuses a creation. *)
Record Disk : Type := {
  dirs : gset string;
  mkdir_error : string -> option string }.

(** [os.path.exists(path)]: a directory or a file. *)
Definition path_exists (path : string) (d : Disk) (w : World) : bool :=
  bool_decide (path ∈ dirs d) || exists_ path w.

(** [os.makedirs(path)] where the parent of [path] is there: one directory
    is created. *)
Definition makedirs (path : string) (d : Disk) (w : World) : outcome unit * Disk :=
  if path_exists path d w then (Raise (OSError "File exists"), d)
  else match mkdir_error d path with
       | Some msg => (Raise (OSError msg), d)
       | None => (Ok tt, {| dirs := {[path]} ∪ dirs d; mkdir_error := mkdir_error d |})
       end.

(** A disk with no directory where every creation is accepted. *)
Definition empty_disk : Disk := {| dirs := ∅; mkdir_error := fun _ => None |}.

(** A world where no file can be written. *)
Definition read_only : World :=
  {| files := ∅; fs_error := fun _ => Some "Read-only file system";
     clock := fun k => Z.of_nat k * 1000000; reads := 0; trace := [] |}.

(** Two short recordings, at 8000 Hz and at 16000 Hz. *)
Definition user_wav : File :=
  WavFile 1 2 8000 [Byte.x00; Byte.x00; Byte.x64; Byte.x00; Byte.x38; Byte.xff].

Definition agent_wav : File :=
  WavFile 1 2 16000 [Byte.xff; Byte.x7f; Byte.x00; Byte.x80].

Definition two_recordings : World :=
  {| files := <["recordings/user_audio_1.wav" := user_wav]>
                (<["recordings/agent_audio_1.wav" := agent_wav]> ∅);
     fs_error := fun _ => None; clock := fun k => Z.of_nat k * 1000000;
     reads := 0; trace := [] |}.

End Rec.

(** ** Resampling as the specification words it

    Step 4 of the mixdown, not taken from the code: for the output index
    [i] in [[0, floor(len * ratio))], where [ratio = targetRate /
    sourceRate], the source position is [srcPos = i / ratio] and [idx] its
    floor; from [len - 1] on the last sample is used, otherwise the two
    neighbours are interpolated, [sample[idx] * (1 - frac) + sample[idx + 1]
    * frac] with [frac = srcPos - idx], and the value is truncated.  There
    is no separate case for equal rates.  The numbers are Python floats,
    each operation rounded. *)

Module MixdownSpec.
Import Py.
Local Open Scope Z_scope.

Definition linear (s0 s1 : Z) (frac : Q) : Q :=
  Float.add (Float.mul (Float.of_int s0) (Float.sub (Float.of_int 1) frac))
            (Float.mul (Float.of_int s1) frac).

Definition sample_at (samples : list Z) (ratio : Q) (i : Z) : Z :=
  let length := Z.of_nat (List.length samples) in
  let sample k := nth (Z.to_nat k) samples 0 in
  let src_pos := Float.round (Float.of_int i / ratio)%Q in
  let idx := Qfloor src_pos in
  if length - 1 <=? idx then sample (length - 1)
  else Float.to_int (linear (sample idx) (sample (idx + 1))
                       (Float.sub src_pos (Float.of_int idx))).

Definition resampled (samples : list Z) (source_rate target_rate : Z) : list Z :=
  let length := Z.of_nat (List.length samples) in
  let ratio := Float.round (inject_Z target_rate / inject_Z source_rate)%Q in
  let new_length := Qfloor (Float.mul (Float.of_int length) ratio) in
  map (fun i => sample_at samples ratio (Z.of_nat i)) (seq 0 (Z.to_nat new_length)).

End MixdownSpec.

(** ** Call teardown, variant A ([agent.py]) *)

Module AgentA.
Import Py Rec.

(** [ctx]: the job of the call, with the shutdowns requested so far. *)
Record JobContext : Type := { shutdown_requests : nat }.

(** The module globals and what surrounds them. *)
Record State : Type := {
  conversation_recorder : option ConversationRecorder;
  audio_recorder : option LocalAudioRecorder;
  job_context : option JobContext;
  world : World }.

Definition stop_conversation (s : State) : State :=
  match conversation_recorder s with
  | Some r =>
      let (_, w) := ConversationRecorder.stop r (world s) in
      {| conversation_recorder := None; audio_recorder := audio_recorder s;
         job_context := job_context s; world := w |}
  | None => s
  end.

Definition stop_audio (s : State) : State :=
  match audio_recorder s with
  | Some r =>
      let (_, w) := LocalAudioRecorder.stop r (world s) in
      {| conversation_recorder := conversation_recorder s; audio_recorder := None;
         job_context := job_context s; world := w |}
  | None => s
  end.

(** The shutdown callback registered by [my_agent]. *)
Definition on_shutdown (s : State) : State := stop_audio (stop_conversation s).

(** [get_job_context()]: the job of the running task; without one it
    raises [RuntimeError] and never returns [None]. *)
Definition get_job_context (s : State) : outcome JobContext :=
  match job_context s with
  | Some ctx => Ok ctx
  | None => Raise RuntimeError
  end.

(** [ctx.shutdown()] when there is a job. *)
Definition request_shutdown (s : State) : State :=
  match job_context s with
  | None => s
  | Some ctx =>
      {| conversation_recorder := conversation_recorder s;
         audio_recorder := audio_recorder s;
         job_context := Some {| shutdown_requests := S (shutdown_requests ctx) |};
         world := world s |}
  end.

(** [get_job_context()] is the first statement: without a job the
    exception leaves before a recorder is touched. *)
Definition hangup_call (s : State) : outcome unit * State :=
  match get_job_context s with
  | Raise e => (Raise e, s)
  | Ok _ => (Ok tt, request_shutdown (stop_audio (stop_conversation s)))
  end.

(** One frame of a subscribed track reaches [capture_audio]. *)
Definition capture_audio (frame : option AudioFrame) (s : State) : State :=
  match audio_recorder s with
  | Some r =>
      if la_is_recording r then
        {| conversation_recorder := conversation_recorder s;
           audio_recorder := Some (LocalAudioRecorder.add_frame r frame);
           job_context := job_context s; world := world s |}
      else s
  | None => s
  end.

(** The two transcript hooks. *)
Definition on_user_transcribed (is_final : bool) (transcript : string)
    (language : option string) (s : State) : State :=
  match conversation_recorder s with
  | Some r =>
      if is_final then
        let (r', w) := ConversationRecorder.add_user_message r transcript language (world s) in
        {| conversation_recorder := Some r'; audio_recorder := audio_recorder s;
           job_context := job_context s; world := w |}
      else s
  | None => s
  end.

Definition on_conversation_item (role : string) (text_content : option string)
    (s : State) : State :=
  match conversation_recorder s, text_content with
  | Some r, Some text =>
      if String.eqb role "assistant" && truthy_str text then
        let (r', w) := ConversationRecorder.add_agent_message r text (world s) in
        {| conversation_recorder := Some r'; audio_recorder := audio_recorder s;
           job_context := job_context s; world := w |}
      else s
  | _, _ => s
  end.

(** What can be called on the globals at the end of a call. *)
Inductive Teardown : Type := Shutdown | Hangup.

(** The globals and the world after a teardown, whether it returned or
    raised. *)
Definition teardown (t : Teardown) (s : State) : State :=
  match t with Shutdown => on_shutdown s | Hangup => snd (hangup_call s) end.

(** A teardown that returns: the shutdown callback always, the hang-up
    when there is a job. *)
Definition returns (t : Teardown) (s : State) : bool :=
  match t with
  | Shutdown => true
  | Hangup => match job_context s with Some _ => true | None => false end
  end.

Definition teardowns (ts : list Teardown) (s : State) : State :=
  fold_left (fun acc t => teardown t acc) ts s.

Definition path_of {R} (filepath : R -> string) (r : option R) : list string :=
  match r with Some x => [filepath x] | None => [] end.

(** The paths of the recorders that the globals refer to, in the order in
    which a teardown visits them. *)
Definition referenced (s : State) : list string :=
  path_of cr_filepath (conversation_recorder s) ++ path_of la_filepath (audio_recorder s).

(** What reaches the hooks during a call. *)
Inductive CallEvent : Type :=
| FrameArrived (frame : option AudioFrame)
| UserTranscribed (is_final : bool) (transcript : string) (language : option string)
| ItemAdded (role : string) (text_content : option string).

Definition handle (ev : CallEvent) (s : State) : State :=
  match ev with
  | FrameArrived frame => capture_audio frame s
  | UserTranscribed is_final transcript language =>
      on_user_transcribed is_final transcript language s
  | ItemAdded role text_content => on_conversation_item role text_content s
  end.

(** The events of a call in the order of arrival. *)
Definition handles (evs : list CallEvent) (s : State) : State :=
  fold_left (fun acc ev => handle ev acc) evs s.

(** The frames among the events, in the order of arrival. *)
Fixpoint frames_of (evs : list CallEvent) : list AudioFrame :=
  match evs with
  | [] => []
  | FrameArrived (Some frame) :: rest => frame :: frames_of rest
  | _ :: rest => frames_of rest
  end.

(** Role and text of what the events of a call put on record: the final
    transcripts of the user and the items of the assistant, when they are
    not blank. *)
Fixpoint said (evs : list CallEvent) : list (string * string) :=
  match evs with
  | [] => []
  | UserTranscribed true transcript _ :: rest =>
      if ConversationRecorder.blank transcript then said rest
      else ("user", transcript) :: said rest
  | ItemAdded role (Some text) :: rest =>
      if String.eqb role "assistant" && negb (ConversationRecorder.blank text)
      then ("assistant", text) :: said rest
      else said rest
  | _ :: rest => said rest
  end.

(** *** The start of a call *)

Section Start.

(** [os.path.dirname(os.path.abspath(__file__))] *)
Variable script_dir : string.
(** [t.strftime("%Y%m%d_%H%M%S")] for a reading [t] of the clock. *)
Variable strftime : Z -> string.

Definition recordings_dir : string := path_join script_dir "recordings".

Definition transcript_filepath (timestamp : string) : string :=
  path_join recordings_dir ("transcript_" +:+ timestamp +:+ ".json").

Definition audio_filepath (timestamp : string) : string :=
  path_join recordings_dir ("audio_" +:+ timestamp +:+ ".wav").

(** The recording set-up of [my_agent]: its body up to
    [audio_recorder.start()]. *)
Definition my_agent (d : Disk) (s : State) : outcome unit * Disk * State :=
  match (if path_exists recordings_dir d (world s) then (Ok tt, d)
         else makedirs recordings_dir d (world s)) with
  | (Raise e, d1) => (Raise e, d1, s)
  | (Ok _, d1) =>
      let (t, w1) := now (world s) in
      let timestamp := strftime t in
      let (r0, w2) := ConversationRecorder.init (transcript_filepath timestamp) w1 in
      let (r1, w3) := ConversationRecorder.start r0 w2 in
      let (a, w4) := LocalAudioRecorder.start
                       (LocalAudioRecorder.init (audio_filepath timestamp) 48000 1) w3 in
      (Ok tt, d1,
       {| conversation_recorder := Some r1; audio_recorder := Some a;
          job_context := job_context s; world := w4 |})
  end.

End Start.

(** A state with a job and no recorder. *)
Definition before_call (w : World) : State :=
  {| conversation_recorder := None; audio_recorder := None;
     job_context := Some {| shutdown_requests := 0 |}; world := w |}.

End AgentA.

(** ** Call teardown, variant B ([agent1.py]) *)

Module AgentB.
Import Py Rec.

Record JobContext : Type := { shutdown_requests : nat }.

Record State : Type := {
  conversation_recorder : option ConversationRecorder;
  user_audio_recorder : option AudioRecorder;
  agent_audio_recorder : option AudioRecorder;
  job_context : option JobContext;
  world : World }.

Definition stop_conversation (s : State) : State :=
  match conversation_recorder s with
  | Some r =>
      let (_, w) := ConversationRecorder.stop r (world s) in
      {| conversation_recorder := None; user_audio_recorder := user_audio_recorder s;
         agent_audio_recorder := agent_audio_recorder s;
         job_context := job_context s; world := w |}
  | None => s
  end.

(** Each audio stop also yields the path kept in a local variable. *)
Definition stop_user_audio (s : State) : option string * State :=
  match user_audio_recorder s with
  | Some r =>
      let (_, w) := AudioRecorder.stop r (world s) in
      (Some (ar_filepath r),
       {| conversation_recorder := conversation_recorder s; user_audio_recorder := None;
          agent_audio_recorder := agent_audio_recorder s;
          job_context := job_context s; world := w |})
  | None => (None, s)
  end.

Definition stop_agent_audio (s : State) : option string * State :=
  match agent_audio_recorder s with
  | Some r =>
      let (_, w) := AudioRecorder.stop r (world s) in
      (Some (ar_filepath r),
       {| conversation_recorder := conversation_recorder s;
          user_audio_recorder := user_audio_recorder s; agent_audio_recorder := None;
          job_context := job_context s; world := w |})
  | None => (None, s)
  end.

Definition with_world (s : State) (w : World) : State :=
  {| conversation_recorder := conversation_recorder s;
     user_audio_recorder := user_audio_recorder s;
     agent_audio_recorder := agent_audio_recorder s;
     job_context := job_context s; world := w |}.

(** The mixdown step shared by [stop_recording] and [hangup_call]. *)
Definition combine_if_both (user_audio_path agent_audio_path : option string)
    (s : State) : State :=
  match user_audio_path, agent_audio_path with
  | Some up, Some ap =>
      if truthy_str up && truthy_str ap && exists_ up (world s) && exists_ ap (world s)
      then
        let combined_path := replace "user_audio_" "call_recording_" up in
        with_world s (snd (combine_audio_files up ap combined_path (world s)))
      else s
  | _, _ => s
  end.

Definition is_some {A} (o : option A) : bool :=
  match o with Some _ => true | None => false end.

Definition stop_recording (s : State) : bool * State :=
  let stopped := is_some (conversation_recorder s) || is_some (user_audio_recorder s)
                 || is_some (agent_audio_recorder s) in
  let s1 := stop_conversation s in
  let (user_audio_path, s2) := stop_user_audio s1 in
  let (agent_audio_path, s3) := stop_agent_audio s2 in
  let s4 := combine_if_both user_audio_path agent_audio_path s3 in
  if stopped then (true, s4)
  else (false, with_world s4 (print "No active recording to stop" (world s4))).

(** The shutdown callback registered by [my_agent]. *)
Definition stop_recording_on_shutdown (s : State) : State := snd (stop_recording s).

(** [get_job_context()]: the job of the running task; without one it
    raises [RuntimeError] and never returns [None]. *)
Definition get_job_context (s : State) : outcome JobContext :=
  match job_context s with
  | Some ctx => Ok ctx
  | None => Raise RuntimeError
  end.

Definition request_shutdown (s : State) : State :=
  match job_context s with
  | None => s
  | Some ctx =>
      {| conversation_recorder := conversation_recorder s;
         user_audio_recorder := user_audio_recorder s;
         agent_audio_recorder := agent_audio_recorder s;
         job_context := Some {| shutdown_requests := S (shutdown_requests ctx) |};
         world := world s |}
  end.

(** [get_job_context()] is the first statement: without a job the
    exception leaves before a recorder is touched. *)
Definition hangup_call (s : State) : outcome unit * State :=
  match get_job_context s with
  | Raise e => (Raise e, s)
  | Ok _ =>
      let s1 := stop_conversation s in
      let (user_audio_path, s2) := stop_user_audio s1 in
      let (agent_audio_path, s3) := stop_agent_audio s2 in
      (Ok tt, request_shutdown (combine_if_both user_audio_path agent_audio_path s3))
  end.

Inductive Teardown : Type := Shutdown | Hangup.

(** The globals and the world after a teardown, whether it returned or
    raised. *)
Definition teardown (t : Teardown) (s : State) : State :=
  match t with
  | Shutdown => stop_recording_on_shutdown s
  | Hangup => snd (hangup_call s)
  end.

(** A teardown that returns: the shutdown callback always, the hang-up
    when there is a job. *)
Definition returns (t : Teardown) (s : State) : bool :=
  match t with
  | Shutdown => true
  | Hangup => is_some (job_context s)
  end.

Definition teardowns (ts : list Teardown) (s : State) : State :=
  fold_left (fun acc t => teardown t acc) ts s.

Definition path_of (r : option AudioRecorder) : list string :=
  match r with Some x => [ar_filepath x] | None => [] end.

Definition referenced (s : State) : list string :=
  match conversation_recorder s with Some r => [cr_filepath r] | None => [] end ++
  path_of (user_audio_recorder s) ++ path_of (agent_audio_recorder s).

(** *** The hooks of [my_agent] *)

(** One frame of a subscribed track reaches [capture_user_audio_frames]. *)
Definition capture_user_audio_frames (frame : option AudioFrame) (s : State) : State :=
  match user_audio_recorder s with
  | Some r =>
      if ar_is_recording r then
        let (r', w) := AudioRecorder.add_frame r frame (world s) in
        {| conversation_recorder := conversation_recorder s;
           user_audio_recorder := Some r';
           agent_audio_recorder := agent_audio_recorder s;
           job_context := job_context s; world := w |}
      else s
  | None => s
  end.

(** One frame of the published track reaches [capture_agent_audio_frames]. *)
Definition capture_agent_audio_frames (frame : option AudioFrame) (s : State) : State :=
  match agent_audio_recorder s with
  | Some r =>
      if ar_is_recording r then
        let (r', w) := AudioRecorder.add_frame r frame (world s) in
        {| conversation_recorder := conversation_recorder s;
           user_audio_recorder := user_audio_recorder s;
           agent_audio_recorder := Some r';
           job_context := job_context s; world := w |}
      else s
  | None => s
  end.

(** The two transcript hooks. *)
Definition on_user_transcribed (is_final : bool) (transcript : string)
    (language : option string) (s : State) : State :=
  match conversation_recorder s with
  | Some r =>
      if is_final then
        let (r', w) := ConversationRecorder.add_user_message r transcript language (world s) in
        {| conversation_recorder := Some r';
           user_audio_recorder := user_audio_recorder s;
           agent_audio_recorder := agent_audio_recorder s;
           job_context := job_context s; world := w |}
      else s
  | None => s
  end.

Definition on_conversation_item (role : string) (text_content : option string)
    (s : State) : State :=
  match conversation_recorder s, text_content with
  | Some r, Some text =>
      if String.eqb role "assistant" && truthy_str text then
        let (r', w) := ConversationRecorder.add_agent_message r text (world s) in
        {| conversation_recorder := Some r';
           user_audio_recorder := user_audio_recorder s;
           agent_audio_recorder := agent_audio_recorder s;
           job_context := job_context s; world := w |}
      else s
  | _, _ => s
  end.

Inductive Track : Type := UserTrack | AgentTrack.

(** What reaches the hooks during a call. *)
Inductive CallEvent : Type :=
| FrameArrived (track : Track) (frame : AudioFrame)
| UserTranscribed (is_final : bool) (transcript : string) (language : option string)
| ItemAdded (role : string) (text_content : option string).

Definition handle (ev : CallEvent) (s : State) : State :=
  match ev with
  | FrameArrived UserTrack frame => capture_user_audio_frames (Some frame) s
  | FrameArrived AgentTrack frame => capture_agent_audio_frames (Some frame) s
  | UserTranscribed is_final transcript language =>
      on_user_transcribed is_final transcript language s
  | ItemAdded role text_content => on_conversation_item role text_content s
  end.

(** The events of a call in the order of arrival, the tracks and the
    transcript interleaved. *)
Definition handles (evs : list CallEvent) (s : State) : State :=
  fold_left (fun acc ev => handle ev acc) evs s.

Definition same_track (t t' : Track) : bool :=
  match t, t' with
  | UserTrack, UserTrack | AgentTrack, AgentTrack => true
  | _, _ => false
  end.

(** The frames of one track, in the order of arrival. *)
Fixpoint frames_of (t : Track) (evs : list CallEvent) : list AudioFrame :=
  match evs with
  | [] => []
  | FrameArrived t' frame :: rest =>
      if same_track t t' then frame :: frames_of t rest else frames_of t rest
  | _ :: rest => frames_of t rest
  end.

(** Role and text of what the events of a call put on record: the final
    transcripts of the user and the items of the assistant, when they are
    not blank. *)
Fixpoint said (evs : list CallEvent) : list (string * string) :=
  match evs with
  | [] => []
  | UserTranscribed true transcript _ :: rest =>
      if ConversationRecorder.blank transcript then said rest
      else ("user", transcript) :: said rest
  | ItemAdded role (Some text) :: rest =>
      if String.eqb role "assistant" && negb (ConversationRecorder.blank text)
      then ("assistant", text) :: said rest
      else said rest
  | _ :: rest => said rest
  end.

(** *** The start of a call *)

Definition recordings_dir : string := "recordings".

Definition transcript_filepath (timestamp : string) : string :=
  recordings_dir +:+ "/transcript_" +:+ timestamp +:+ ".json".

Definition user_audio_filepath (timestamp : string) : string :=
  recordings_dir +:+ "/user_audio_" +:+ timestamp +:+ ".wav".

Definition agent_audio_filepath (timestamp : string) : string :=
  recordings_dir +:+ "/agent_audio_" +:+ timestamp +:+ ".wav".

Section Start.

(** [t.strftime("%Y%m%d_%H%M%S")] for a reading [t] of the clock. *)
Variable strftime : Z -> string.

Definition start_recording (room_name : string) (d : Disk) (s : State)
  : outcome unit * Disk * State :=
  match (if path_exists recordings_dir d (world s) then (Ok tt, d)
         else makedirs recordings_dir d (world s)) with
  | (Raise e, d1) => (Raise e, d1, s)
  | (Ok _, d1) =>
      let (t, w1) := now (world s) in
      let timestamp := strftime t in
      let (r0, w2) := ConversationRecorder.init (transcript_filepath timestamp) w1 in
      let (r1, w3) := ConversationRecorder.start r0 w2 in
      let s1 := {| conversation_recorder := Some r1;
                   user_audio_recorder := user_audio_recorder s;
                   agent_audio_recorder := agent_audio_recorder s;
                   job_context := job_context s; world := w3 |} in
      match get_job_context s1 with
      | Raise e => (Raise e, d1, s1)
      | Ok ctx =>
          (* [ctx is None] is false for the job that was returned *)
          let is_console_mode := false || String.prefix "FAKE_" room_name in
          if is_console_mode then
            (Ok tt, d1,
             with_world s1
               (print ("Console mode: Transcript recording started. " +:+
                       "Note: Audio recording requires LiveKit room mode.") w3))
          else
            let (u, w4) := AudioRecorder.start
                             (AudioRecorder.init (user_audio_filepath timestamp)
                                AudioRecorder.default_num_channels) w3 in
            let (a, w5) := AudioRecorder.start
                             (AudioRecorder.init (agent_audio_filepath timestamp)
                                AudioRecorder.default_num_channels) w4 in
            (Ok tt, d1,
             {| conversation_recorder := Some r1;
                user_audio_recorder := Some u;
                agent_audio_recorder := Some a;
                job_context := job_context s;
                world := print ("  - Agent audio: " +:+ agent_audio_filepath timestamp)
                           (print ("  - User audio: " +:+ user_audio_filepath timestamp)
                              (print ("  - Transcript: " +:+ transcript_filepath timestamp)
                                 (print "LiveKit room mode: Recording started" w5))) |})
      end
  end.

End Start.

(** A character that [%Y%m%d_%H%M%S] can produce. *)
Definition stamp_char (c : ascii) : bool :=
  let n := nat_of_ascii c in
  ((48 <=? n) && (n <=? 57) || (n =? 95))%nat.

Definition timestamp_like (timestamp : string) : Prop :=
  Forall (fun c => stamp_char c = true) (list_ascii_of_string timestamp).

(** The path that [stop_recording] and [hangup_call] give the mixdown. *)
Definition combined_path (path : string) : string :=
  replace "user_audio_" "call_recording_" path.

Definition call_recording_path (timestamp : string) : string :=
  recordings_dir +:+ "/call_recording_" +:+ timestamp +:+ ".wav".

(** A state with a job and no recorder. *)
Definition before_call (w : World) : State :=
  {| conversation_recorder := None; user_audio_recorder := None;
     agent_audio_recorder := None; job_context := Some {| shutdown_requests := 0 |};
     world := w |}.

(** A state with no job and no recorder. *)
Definition without_job (w : World) : State :=
  {| conversation_recorder := None; user_audio_recorder := None;
     agent_audio_recorder := None; job_context := None; world := w |}.

End AgentB.

(** ** The weather tool ([Assistant.get_weather], both variants) *)

Module Weather.
Import Py.

(** A decoded JSON document, as [response.json()] returns it.  A [float]
    is the rational it denotes. *)
#[warnings="-register-all"]
Inductive JSON : Type :=
| JNull
| JBool (b : bool)
| JInt (n : Z)
| JFloat (x : Q)
| JStr (s : string)
| JList (items : list JSON)
| JDict (entries : list (string * JSON)).

(** Truth value. *)
Definition truthy (v : JSON) : bool :=
  match v with
  | JNull => false
  | JBool b => b
  | JInt n => negb (n =? 0)%Z
  | JFloat x => negb (Qeq_bool x 0)
  | JStr s => truthy_str s
  | JList items => match items with [] => false | _ => true end
  | JDict entries => match entries with [] => false | _ => true end
  end.

Fixpoint lookup (key : string) (entries : list (string * JSON)) : option JSON :=
  match entries with
  | [] => None
  | (k, v) :: rest => if String.eqb k key then Some v else lookup key rest
  end.

(** [v.get(key, default)]: only a [dict] has the method. *)
Definition get (v : JSON) (key : string) (default : JSON) : outcome JSON :=
  match v with
  | JDict entries =>
      Ok (match lookup key entries with Some x => x | None => default end)
  | _ => Raise AttributeError
  end.

(** [v[key]] with a string key. *)
Definition item (v : JSON) (key : string) : outcome JSON :=
  match v with
  | JDict entries =>
      match lookup key entries with Some x => Ok x | None => Raise KeyError end
  | _ => Raise TypeError
  end.

(** The [i]-th character as a string. *)
Definition char_at (s : string) (i : Z) : outcome JSON :=
  match getitem (list_ascii_of_string s) i with
  | Ok c => Ok (JStr (String c EmptyString))
  | Raise e => Raise e
  end.

(** [v[i]] with an integer index. *)
Definition index (v : JSON) (i : Z) : outcome JSON :=
  match v with
  | JList items => getitem items i
  | JStr s => char_at s i
  | JDict _ => Raise KeyError
  | _ => Raise TypeError
  end.

(** [len(v)] *)
Definition len (v : JSON) : outcome Z :=
  match v with
  | JList items => Ok (Z.of_nat (length items))
  | JStr s => Ok (Z.of_nat (String.length s))
  | JDict entries => Ok (Z.of_nat (length entries))
  | _ => Raise TypeError
  end.

Fixpoint substring_of (needle s : string) : bool :=
  String.prefix needle s ||
  match s with
  | EmptyString => false
  | String _ rest => substring_of needle rest
  end.

Definition is_str (key : string) (v : JSON) : bool :=
  match v with JStr s => String.eqb s key | _ => false end.

(** [key in v] for a string [key]. *)
Definition contains (v : JSON) (key : string) : outcome bool :=
  match v with
  | JDict entries => Ok (match lookup key entries with Some _ => true | None => false end)
  | JList items => Ok (existsb (is_str key) items)
  | JStr s => Ok (substring_of key s)
  | _ => Raise TypeError
  end.

Definition WEATHER_CODES : list (Z * string) :=
  [ (0, "clear sky"); (1, "mainly clear"); (2, "partly cloudy"); (3, "overcast");
    (45, "foggy"); (48, "depositing rime fog"); (51, "light drizzle");
    (53, "moderate drizzle"); (55, "dense drizzle"); (61, "slight rain");
    (63, "moderate rain"); (65, "heavy rain"); (71, "slight snow");
    (73, "moderate snow"); (75, "heavy snow"); (77, "snow grains");
    (80, "slight rain showers"); (81, "moderate rain showers");
    (82, "violent rain showers"); (85, "slight snow showers");
    (86, "heavy snow showers"); (95, "thunderstorm");
    (96, "thunderstorm with slight hail"); (99, "thunderstorm with heavy hail") ]%Z.

Fixpoint code_text (code : Z) (table : list (Z * string)) : option string :=
  match table with
  | [] => None
  | (k, text) :: rest => if (k =? code)%Z then Some text else code_text code rest
  end.

(** The integer that a key of the table must equal to match [v]: [True] is
    1, a float matches when it is whole, a string or [None] matches
    nothing, and a list or dict cannot be hashed. *)
Definition as_key (v : JSON) : outcome (option Z) :=
  match v with
  | JInt n => Ok (Some n)
  | JBool b => Ok (Some (if b then 1 else 0)%Z)
  | JFloat x => Ok (if Qeq_bool x (inject_Z (Qfloor x)) then Some (Qfloor x) else None)
  | JStr _ | JNull => Ok None
  | JList _ | JDict _ => Raise TypeError
  end.

(** [WEATHER_CODES.get(v, default)] *)
Definition describe (v : JSON) (default : string) : outcome string :=
  and_then (as_key v) (fun k =>
  Ok (match k with
      | Some code => match code_text code WEATHER_CODES with
                     | Some text => text
                     | None => default
                     end
      | None => default
      end)).

Record GeoData : Type := {
  lat : Q;
  lon : Q;
  display_name : JSON }.

(** What an HTTP exchange gives once the response has arrived: the status
    and what [response.json()] does. *)
Record Response : Type := {
  status : Z;
  json : outcome JSON }.

Section Tool.

(** [float(s)] for a string; [None] when it does not parse. *)
Variable parse_float : string -> option Q.
(** [str(x)] for a float, a list or a dict, as an f-string shows it. *)
Variable show_float : Q -> string.
Variable show_container : JSON -> string.
(** The two providers; [Raise] is an exchange that fails before a response
    arrives. *)
Variable geocoder : string -> outcome Response.
Variable forecaster : Q -> Q -> outcome Response.

(** [float(v)] *)
Definition to_float (v : JSON) : outcome Q :=
  match v with
  | JInt n => Ok (Float.of_int n)
  | JFloat x => Ok x
  | JBool b => Ok (if b then 1 else 0)%Q
  | JStr s => match parse_float s with Some x => Ok x | None => Raise ValueError end
  | _ => Raise TypeError
  end.

(** [f"{v}"] *)
Definition show (v : JSON) : string :=
  match v with
  | JNull => "None"
  | JBool b => if b then "True" else "False"
  | JInt n => str_of_int n
  | JFloat x => show_float x
  | JStr s => s
  | _ => show_container v
  end.

Definition geocode_location (location : string) : outcome (option GeoData) :=
  and_then (geocoder location) (fun response =>
  if (status response =? 200)%Z then
    and_then (json response) (fun data =>
    if truthy data then
      and_then (index data 0) (fun d0 =>
      and_then (item d0 "lat") (fun v =>
      and_then (to_float v) (fun la =>
      and_then (index data 0) (fun d1 =>
      and_then (item d1 "lon") (fun v' =>
      and_then (to_float v') (fun lo =>
      and_then (index data 0) (fun d2 =>
      and_then (item d2 "display_name") (fun name =>
      Ok (Some {| lat := la; lon := lo; display_name := name |})))))))))
    else Ok None)
  else Ok None).

Definition get_weather_data (la lo : Q) : outcome (option JSON) :=
  and_then (forecaster la lo) (fun response =>
  if (status response =? 200)%Z then
    and_then (json response) (fun data => Ok (Some data))
  else Ok None).

Definition clause (high low : JSON) (conditions : string) (precip : JSON) : string :=
  " Tomorrow's forecast: high of " +:+ show high +:+ " degrees, low of " +:+ show low +:+
  " degrees, " +:+ conditions +:+ ", " +:+ show precip +:+ "% chance of precipitation.".

(** [x[1] if len(x) > 1 else 0] *)
Definition second_or_zero (x : JSON) : outcome JSON :=
  and_then (len x) (fun n => if (n >? 1)%Z then index x 1 else Ok (JInt 0)).

(** The lines under [# Parse forecast]. *)
Definition forecast_info (daily : JSON) : outcome string :=
  and_then (if truthy daily then contains daily "time" else Ok false) (fun has_time =>
  if has_time then
    and_then (get daily "temperature_2m_max" (JList [])) (fun temps_max =>
    and_then (get daily "temperature_2m_min" (JList [])) (fun temps_min =>
    and_then (get daily "precipitation_probability_max" (JList [])) (fun precip_prob =>
    and_then (get daily "weather_code" (JList [])) (fun daily_codes =>
    and_then (len temps_max) (fun n =>
    if (n >=? 2)%Z then
      and_then (second_or_zero daily_codes) (fun code =>
      and_then (describe code "unknown") (fun tomorrow_conditions =>
      and_then (second_or_zero precip_prob) (fun tomorrow_precip =>
      and_then (index temps_max 1) (fun high =>
      and_then (index temps_min 1) (fun low =>
      Ok (clause high low tomorrow_conditions tomorrow_precip))))))
    else Ok EmptyString)))))
  else Ok EmptyString).

(** [name.split(",")[0]]: only a [str] has the method. *)
Definition short_name (name : JSON) : outcome string :=
  match name with
  | JStr s => Ok (before "," s)
  | _ => Raise AttributeError
  end.

Definition not_found (location : string) : string :=
  "Sorry, I couldn't find the location '" +:+ location +:+
  "'. Please try a different city or place name.".

Definition not_fetched (location : string) : string :=
  "Sorry, I couldn't fetch weather data for " +:+ location +:+ ". Please try again later.".

Definition current_sentence (short_location : string)
    (temp feels_like : JSON) (conditions : string) (humidity wind_speed : JSON) : string :=
  "Current weather in " +:+ short_location +:+ ": " +:+ show temp +:+
  " degrees Celsius, feels like " +:+ show feels_like +:+ " degrees. " +:+
  "Conditions: " +:+ conditions +:+ ". Humidity: " +:+ show humidity +:+
  "%. Wind speed: " +:+ show wind_speed +:+ " kilometers per hour.".

(** The tool after both look-ups have given something. *)
Definition report (geo_data : GeoData) (weather_data : JSON) : outcome string :=
  and_then (get weather_data "current" (JDict [])) (fun current =>
  and_then (get weather_data "daily" (JDict [])) (fun daily =>
  and_then (get current "temperature_2m" (JStr "N/A")) (fun temp =>
  and_then (get current "apparent_temperature" (JStr "N/A")) (fun feels_like =>
  and_then (get current "relative_humidity_2m" (JStr "N/A")) (fun humidity =>
  and_then (get current "wind_speed_10m" (JStr "N/A")) (fun wind_speed =>
  and_then (get current "weather_code" (JInt 0)) (fun weather_code =>
  and_then (describe weather_code "unknown conditions") (fun conditions =>
  and_then (forecast_info daily) (fun info =>
  and_then (short_name (display_name geo_data)) (fun short_location =>
  Ok (current_sentence short_location temp feels_like conditions humidity wind_speed
      +:+ info))))))))))).

Definition get_weather (location : string) : outcome string :=
  and_then (geocode_location location) (fun geo_data =>
  match geo_data with
  | None => Ok (not_found location)
  | Some geo =>
      and_then (get_weather_data (lat geo) (lon geo)) (fun weather_data =>
      match weather_data with
      | None => Ok (not_fetched location)
      | Some data =>
          if truthy data then report geo data else Ok (not_fetched location)
      end)
  end).

End Tool.

(** *** Payloads of the documented shape

    The weather provider answers with an object whose [current] block holds
    the requested variables and whose [daily] block holds [time] and one
    array per requested variable.  Every key may be missing. *)

Record Current : Type := {
  temperature_2m : option JSON;
  apparent_temperature : option JSON;
  relative_humidity_2m : option JSON;
  wind_speed_10m : option JSON;
  current_code : option Z }.

Record Daily : Type := {
  time : option JSON;
  temperature_2m_max : option (list JSON);
  temperature_2m_min : option (list JSON);
  precipitation_probability_max : option (list JSON);
  daily_codes : option (list Z) }.

Record Forecast : Type := {
  current : option Current;
  daily : option Daily }.

Definition entry {A} (key : string) (f : A -> JSON) (x : option A)
  : list (string * JSON) :=
  match x with Some v => [(key, f v)] | None => [] end.

Definition encode_current (c : Current) : JSON :=
  JDict (entry "temperature_2m" id (temperature_2m c) ++
         entry "relative_humidity_2m" id (relative_humidity_2m c) ++
         entry "apparent_temperature" id (apparent_temperature c) ++
         entry "weather_code" JInt (current_code c) ++
         entry "wind_speed_10m" id (wind_speed_10m c)).

Definition encode_daily (d : Daily) : JSON :=
  JDict (entry "time" id (time d) ++
         entry "temperature_2m_max" JList (temperature_2m_max d) ++
         entry "temperature_2m_min" JList (temperature_2m_min d) ++
         entry "precipitation_probability_max" JList (precipitation_probability_max d) ++
         entry "weather_code" (fun l => JList (map JInt l)) (daily_codes d)).

Definition encode (f : Forecast) : JSON :=
  JDict (entry "current" encode_current (current f) ++
         entry "daily" encode_daily (daily f)).

Definition or_default {A} (x : option A) (default : A) : A :=
  match x with Some v => v | None => default end.

Definition words (code : Z) (default : string) : string :=
  or_default (code_text code WEATHER_CODES) default.

Definition second_or {A} (l : list A) (default : A) : A :=
  match l with _ :: x :: _ => x | _ => default end.

Section Expected.

Variable show_float : Q -> string.
Variable show_container : JSON -> string.

(** The clause that a daily block of the documented shape must give. *)
Definition expected_clause (d : option Daily) : string :=
  match d with
  | None => EmptyString
  | Some d =>
      match time d, or_default (temperature_2m_max d) [],
            or_default (temperature_2m_min d) [] with
      | Some _, _ :: high :: _, _ :: low :: _ =>
          clause show_float show_container high low
            (words (second_or (or_default (daily_codes d) []) 0%Z) "unknown")
            (second_or (or_default (precipitation_probability_max d) []) (JInt 0))
      | _, _, _ => EmptyString
      end
  end.

Definition na : JSON := JStr "N/A".

Definition no_current : Current :=
  {| temperature_2m := None; apparent_temperature := None;
     relative_humidity_2m := None; wind_speed_10m := None; current_code := None |}.

(** The sentence that a payload of the documented shape must give. *)
Definition expected_sentence (name : string) (f : Forecast) : string :=
  let c := or_default (current f) no_current in
  current_sentence show_float show_container (before "," name)
    (or_default (temperature_2m c) na) (or_default (apparent_temperature c) na)
    (words (or_default (current_code c) 0%Z) "unknown conditions")
    (or_default (relative_humidity_2m c) na) (or_default (wind_speed_10m c) na)
  +:+ expected_clause (daily f).

End Expected.

(** The entries of the encoded blocks. *)
Definition daily_entries (d : Daily) : list (string * JSON) :=
  match encode_daily d with JDict e => e | _ => [] end.

Definition current_entries (c : Current) : list (string * JSON) :=
  match encode_current c with JDict e => e | _ => [] end.

(** The daily block holds a low for tomorrow whenever it holds a high. *)
Definition lows_cover_highs (d : option Daily) : bool :=
  match d with
  | None => true
  | Some d =>
      match time d, or_default (temperature_2m_max d) [],
            or_default (temperature_2m_min d) [] with
      | Some _, _ :: _ :: _, ([] | [_]) => false
      | _, _, _ => true
      end
  end.

(** An exchange that completed and brought nothing usable: another status
    than 200, or a falsy document. *)
Definition nothing_usable (o : outcome Response) : bool :=
  match o with
  | Ok r =>
      negb (status r =? 200)%Z ||
      match json r with Ok data => negb (truthy data) | Raise _ => false end
  | Raise _ => false
  end.

(** An exchange that completed with the document [data]. *)
Definition answered (data : JSON) : outcome Response :=
  Ok {| status := 200; json := Ok data |}.

(** A match of the geocoder, of the documented shape: coordinates as
    decimal strings and a name. *)
Record Place : Type := {
  place_lat : string;
  place_lon : string;
  place_name : string }.

Definition encode_place (p : Place) : JSON :=
  JDict [("lat", JStr (place_lat p)); ("lon", JStr (place_lon p));
         ("display_name", JStr (place_name p))].

(** Sample parameters: floats shown as fractions, containers not shown,
    and a parser that knows two coordinates. *)
Definition plain_float (x : Q) : string :=
  str_of_int (Qnum x) +:+ "/" +:+ str_of_int (Zpos (Qden x)).

Definition plain_container (v : JSON) : string := "[...]".

Definition parse_known (s : string) : option Q :=
  if String.eqb s "48.85" then Some (Float.round (4885 # 100))
  else if String.eqb s "2.35" then Some (Float.round (235 # 100))
  else None.

Definition paris : Place :=
  {| place_lat := "48.85"; place_lon := "2.35";
     place_name := "Paris, Ile-de-France, France" |}.

Definition sample_current : Current :=
  {| temperature_2m := Some (JInt 21); apparent_temperature := Some (JInt 20);
     relative_humidity_2m := Some (JInt 50); wind_speed_10m := Some (JInt 10);
     current_code := Some 0%Z |}.

Definition sample_daily (with_time : bool) : Daily :=
  {| time := if with_time then Some (JList [JStr "2024-05-01"; JStr "2024-05-02"])
             else None;
     temperature_2m_max := Some [JInt 22; JInt 24];
     temperature_2m_min := Some [JInt 11; JInt 12];
     precipitation_probability_max := Some [JInt 0; JInt 30];
     daily_codes := Some [1; 61]%Z |}.

Definition sample_forecast (with_time : bool) : Forecast :=
  {| current := Some sample_current; daily := Some (sample_daily with_time) |}.

(** Sample providers. *)
Definition finds_paris (location : string) : outcome Response :=
  answered (JList [encode_place paris]).

Definition finds_nothing (location : string) : outcome Response :=
  answered (JList []).

Definition refuses (location : string) : outcome Response :=
  Raise (RemoteError "connection refused").

Definition garbles (location : string) : outcome Response :=
  Ok {| status := 200; json := Raise (ContentError "not a JSON document") |}.

Definition forecasts (with_time : bool) (la lo : Q) : outcome Response :=
  answered (encode (sample_forecast with_time)).

Definition overloaded (la lo : Q) : outcome Response :=
  Ok {| status := 503; json := Raise (ContentError "not a JSON document") |}.

Definition drops (la lo : Q) : outcome Response :=
  Raise (RemoteError "connection reset").

(** A daily block with a high for tomorrow and no low. *)
Definition lowless_daily : Daily :=
  {| time := Some (JList [JStr "2024-05-01"; JStr "2024-05-02"]);
     temperature_2m_max := Some [JInt 22; JInt 24];
     temperature_2m_min := Some [JInt 11];
     precipitation_probability_max := Some [JInt 0; JInt 30];
     daily_codes := Some [1; 61]%Z |}.

Definition lowless_forecast : Forecast :=
  {| current := Some sample_current; daily := Some lowless_daily |}.

End Weather.


(** * Properties *)

(** ** The provisioning tool *)

Module SipFacts.
Import Py PyNotations Sip.

Lemma requests_app (a b : list Event) : requests (a ++ b) = requests a ++ requests b.
Proof.
  induction a as [|e a IH]; simpl; [reflexivity|].
  destruct e; simpl; rewrite ?IH; reflexivity.
Qed.

Lemma printed_app (a b : list Event) : printed (a ++ b) = printed a ++ printed b.
Proof.
  induction a as [|e a IH]; simpl; [reflexivity|].
  destruct e; simpl; rewrite ?IH; reflexivity.
Qed.

Lemma opened_app (a b : list Event) : opened (a ++ b) = opened a ++ opened b.
Proof.
  induction a as [|e a IH]; simpl; [reflexivity|].
  destruct e; simpl; rewrite ?IH; reflexivity.
Qed.

Lemma closed_app (a b : list Event) : closed (a ++ b) = closed a ++ closed b.
Proof.
  induction a as [|e a IH]; simpl; [reflexivity|].
  destruct e; simpl; rewrite ?IH; reflexivity.
Qed.

Lemma runs_ret {A} (v : A) w : runs (ret v) w (Ok v) [] (stdin w).
Proof. unfold runs, ret. destruct w; simpl. rewrite app_nil_r. reflexivity. Qed.

Lemma runs_emit e w : runs (emit e) w (Ok tt) [e] (stdin w).
Proof. reflexivity. Qed.

Lemma runs_bind_ok {A B} (m : M World A) (k : A -> M World B) w v d1 i1 o d2 i2 :
  runs m w (Ok v) d1 i1 ->
  runs (k v) {| trace := trace w ++ d1; stdin := i1 |} o d2 i2 ->
  runs (x <- m ;; k x) w o (d1 ++ d2) i2.
Proof.
  unfold runs, bind. intros -> H. simpl in H. rewrite H, app_assoc. reflexivity.
Qed.

Lemma runs_bind_raise {A B} (m : M World A) (k : A -> M World B) w e d i :
  runs m w (Raise e) d i -> runs (x <- m ;; k x) w (Raise e) d i.
Proof. unfold runs, bind. intros ->. reflexivity. Qed.

Lemma shape_ret {A} (v : A) (P : outcome A -> list Event -> Prop) :
  P (Ok v) [] -> shape (ret v : M World A) P.
Proof. intros H w. exists (Ok v), [], (stdin w). split; [apply runs_ret | exact H]. Qed.

Lemma shape_raise {A} e (P : outcome A -> list Event -> Prop) :
  P (Raise e) [] -> shape (raise e : M World A) P.
Proof.
  intros H w. exists (Raise e), [], (stdin w). split; [|exact H].
  unfold runs, raise. destruct w; simpl. rewrite app_nil_r. reflexivity.
Qed.

Lemma shape_emit e (P : outcome unit -> list Event -> Prop) :
  P (Ok tt) [e] -> shape (emit e) P.
Proof. intros H w. exists (Ok tt), [e], (stdin w). split; [apply runs_emit | exact H]. Qed.

Lemma shape_bind {A B} (m : M World A) (k : A -> M World B)
    (P : outcome A -> list Event -> Prop) (Q : outcome B -> list Event -> Prop) :
  shape m P ->
  (forall v d1, P (Ok v) d1 -> shape (k v) (fun o d2 => Q o (d1 ++ d2))) ->
  (forall e d1, P (Raise e) d1 -> Q (Raise e) d1) ->
  shape (x <- m ;; k x) Q.
Proof.
  intros Hm Hk He w. destruct (Hm w) as (o & d1 & i1 & Hr & HP).
  destruct o as [v|e].
  - destruct (Hk v d1 HP {| trace := trace w ++ d1; stdin := i1 |})
      as (o2 & d2 & i2 & Hr2 & HQ).
    exists o2, (d1 ++ d2), i2. split; [|exact HQ].
    eapply runs_bind_ok; eassumption.
  - exists (Raise e), d1, i1. split; [|auto]. apply runs_bind_raise; assumption.
Qed.

Lemma shape_weaken {A} (m : M World A) (P Q : outcome A -> list Event -> Prop) :
  shape m P -> (forall o d, P o d -> Q o d) -> shape m Q.
Proof.
  intros Hm HPQ w. destruct (Hm w) as (o & d & i & Hr & HP).
  exists o, d, i. auto.
Qed.

Lemma tidy_app allowed {A B} (o1 : outcome A) (o2 : outcome B) d1 d2 :
  is_ok o1 = true -> tidy allowed o1 d1 -> tidy allowed o2 d2 -> tidy allowed o2 (d1 ++ d2).
Proof.
  intros Hok [Ho1 Hr1] [Ho2 Hr2]. split.
  - intros H. rewrite opened_app, closed_app, Ho1, Ho2; auto.
  - rewrite requests_app, forallb_app, Hr1, Hr2. reflexivity.
Qed.

Lemma shape_tidy_bind allowed {A B} (m : M World A) (k : A -> M World B) :
  shape m (tidy allowed) -> (forall v, shape (k v) (tidy allowed)) ->
  shape (x <- m ;; k x) (tidy allowed).
Proof.
  intros Hm Hk. eapply shape_bind; [exact Hm | |].
  - intros v d1 H1. eapply shape_weaken; [apply Hk|].
    intros o d2 H2. eapply tidy_app; [|exact H1|exact H2]. reflexivity.
  - intros e d1 [_ H]. split; [discriminate | exact H].
Qed.

Lemma shape_print line allowed : shape (print line) (tidy allowed).
Proof. apply shape_emit. split; reflexivity. Qed.

Lemma shape_for_each allowed {A} (xs : list A) (body : A -> M World unit) :
  (forall x, shape (body x) (tidy allowed)) -> shape (for_each xs body) (tidy allowed).
Proof.
  intros Hb. induction xs as [|x xs IH]; simpl.
  - apply shape_ret. split; reflexivity.
  - apply shape_tidy_bind; [apply Hb | intros _; exact IH].
Qed.

Lemma shape_input prompt allowed : shape (input prompt) (tidy allowed).
Proof.
  intros [tr ins]. unfold input, bind, emit, modify, get, raise, ret, runs; simpl.
  destruct ins as [|line rest]; simpl.
  - exists (Raise EOFError), [Prompted prompt], []. split; [reflexivity|].
    split; [discriminate | reflexivity].
  - exists (Ok line), [Prompted prompt], rest. split; [reflexivity|].
    split; reflexivity.
Qed.

Lemma shape_bal_bind os1 cs1 os2 cs2 allowed {A B} (m : M World A) (k : A -> M World B) :
  shape m (bal os1 cs1 allowed) -> (forall v, shape (k v) (bal os2 cs2 allowed)) ->
  shape (x <- m ;; k x) (bal (os1 ++ os2) (cs1 ++ cs2) allowed).
Proof.
  intros Hm Hk. eapply shape_bind; [exact Hm | |].
  - intros v d1 [H1 R1]. eapply shape_weaken; [apply Hk|].
    intros o d2 [H2 R2]. split.
    + intros Hok. rewrite opened_app, closed_app.
      destruct (H1 eq_refl) as [-> ->]. destruct (H2 Hok) as [-> ->].
      split; reflexivity.
    + rewrite requests_app, forallb_app, R1, R2. reflexivity.
  - intros e d1 [_ H]. split; [discriminate | exact H].
Qed.

Lemma shape_quiet_then os cs allowed {A B} (m : M World A) (k : A -> M World B) :
  shape m (bal [] [] allowed) -> (forall v, shape (k v) (bal os cs allowed)) ->
  shape (x <- m ;; k x) (bal os cs allowed).
Proof. intros Hm Hk. apply (shape_bal_bind [] [] os cs); assumption. Qed.

Lemma shape_bal_print line allowed : shape (print line) (bal [] [] allowed).
Proof. apply shape_emit. split; [split|]; reflexivity. Qed.

Lemma shape_bal_ret allowed {A} (v : A) : shape (ret v : M World A) (bal [] [] allowed).
Proof. apply shape_ret. split; [split|]; reflexivity. Qed.

Lemma shape_bal_for_each allowed {A} (xs : list A) (body : A -> M World unit) :
  (forall x, shape (body x) (bal [] [] allowed)) ->
  shape (for_each xs body) (bal [] [] allowed).
Proof.
  intros Hb. induction xs as [|x xs IH]; simpl.
  - apply shape_bal_ret.
  - apply shape_quiet_then; [apply Hb | intros _; exact IH].
Qed.

Lemma shape_call allowed {A} lk req (answer : list Request -> outcome A) :
  allowed req = true -> shape (call lk req answer) (bal [] [] allowed).
Proof.
  intros Hreq [tr ins]. unfold call, bind, get, emit, modify, ret, raise, runs; simpl.
  destruct (answer (requests tr)) as [v|e].
  - exists (Ok v), [Called lk req], ins. split; [reflexivity|].
    split; [split; reflexivity | simpl; rewrite Hreq; reflexivity].
  - exists (Raise e), [Called lk req], ins. split; [reflexivity|].
    split; [discriminate | simpl; rewrite Hreq; reflexivity].
Qed.

Lemma shape_aclose allowed lk : shape (aclose lk) (bal [] [lk] allowed).
Proof. apply shape_emit. split; [split|]; reflexivity. Qed.

Lemma shape_aclose_ret allowed lk {A} (v : A) :
  shape (aclose lk ;;; ret v) (bal [] [lk] allowed).
Proof.
  apply (shape_bal_bind [] [lk] [] []); [apply shape_aclose | intros _; apply shape_bal_ret].
Qed.

(** A session that closes the client it opened is tidy. *)
Lemma shape_session allowed {A} (body : nat -> M World A) :
  (forall lk, shape (body lk) (bal [] [lk] allowed)) ->
  shape (lk <- LiveKitAPI ;; body lk) (tidy allowed).
Proof.
  intros Hb [tr ins].
  destruct (Hb (fresh tr) {| trace := tr ++ [Opened (fresh tr)]; stdin := ins |})
    as (o & d & i & Hr & [Hbal Hreq]).
  exists o, (Opened (fresh tr) :: d), i. split.
  - unfold runs, LiveKitAPI, bind, get, emit, modify, ret in *; simpl in *.
    rewrite Hr, <- app_assoc. reflexivity.
  - split; [|exact Hreq]. intros Hok. destruct (Hbal Hok) as [Ho Hc].
    simpl. rewrite Ho, Hc. reflexivity.
Qed.

Section ToolFacts.

Variable cp : ControlPlane.
Variable show_strings : list string -> string.
Variable show_rule : SIPDispatchRule -> string.

Ltac quiet_steps :=
  repeat first
    [ apply shape_aclose_ret
    | apply shape_aclose
    | apply shape_bal_print
    | apply shape_bal_ret
    | apply shape_call; reflexivity
    | apply shape_bal_for_each; intros ?
    | apply shape_quiet_then; [|intros ?] ].

Lemma list_sip_trunks_shape allowed :
  allowed ListSIPInboundTrunkRequest = true ->
  allowed ListSIPOutboundTrunkRequest = true ->
  shape (list_sip_trunks cp show_strings) (tidy allowed).
Proof.
  intros Hi Ho. unfold list_sip_trunks. apply shape_session. intros lk.
  apply shape_quiet_then; [apply shape_bal_print | intros _].
  apply shape_quiet_then; [apply shape_call; exact Hi | intros ins].
  apply shape_quiet_then; [quiet_steps | intros _].
  apply shape_quiet_then; [apply shape_bal_print | intros _].
  apply shape_quiet_then; [apply shape_call; exact Ho | intros outs].
  apply shape_quiet_then; [quiet_steps | intros _].
  apply shape_aclose.
Qed.

Lemma list_dispatch_rules_shape allowed :
  allowed ListSIPDispatchRuleRequest = true ->
  shape (list_dispatch_rules cp show_strings show_rule) (tidy allowed).
Proof.
  intros Hr. unfold list_dispatch_rules. apply shape_session. intros lk.
  apply shape_quiet_then; [apply shape_bal_print | intros _].
  apply shape_quiet_then; [apply shape_call; exact Hr | intros rules].
  apply shape_quiet_then; [quiet_steps | intros _].
  apply shape_aclose.
Qed.

Lemma create_inbound_trunk_shape name numbers allowed_addresses :
  shape (create_inbound_trunk cp name numbers allowed_addresses) (tidy any_request).
Proof. unfold create_inbound_trunk. apply shape_session. intros lk. quiet_steps. Qed.

Lemma create_outbound_trunk_shape name address numbers user pass :
  shape (create_outbound_trunk cp name address numbers user pass) (tidy any_request).
Proof. unfold create_outbound_trunk. apply shape_session. intros lk. quiet_steps. Qed.

Lemma create_dispatch_rule_shape name room_prefix trunk_ids :
  shape (create_dispatch_rule cp name room_prefix trunk_ids) (tidy any_request).
Proof. unfold create_dispatch_rule. apply shape_session. intros lk. quiet_steps. Qed.

Lemma delete_inbound_trunk_shape trunk_id :
  shape (delete_inbound_trunk cp trunk_id) (tidy any_request).
Proof. unfold delete_inbound_trunk. apply shape_session. intros lk. quiet_steps. Qed.

Lemma delete_dispatch_rule_shape rule_id :
  shape (delete_dispatch_rule cp rule_id) (tidy any_request).
Proof. unfold delete_dispatch_rule. apply shape_session. intros lk. quiet_steps. Qed.

Lemma setup_twilio_trunk_shape phone domain user pass :
  shape (setup_twilio_trunk cp phone domain user pass) (tidy any_request).
Proof.
  unfold setup_twilio_trunk.
  apply shape_tidy_bind; [apply shape_print | intros _].
  apply shape_tidy_bind; [apply create_inbound_trunk_shape | intros inbound].
  apply shape_tidy_bind; [apply create_outbound_trunk_shape | intros outbound].
  apply shape_tidy_bind; [apply create_dispatch_rule_shape | intros created].
  repeat (apply shape_tidy_bind; [apply shape_print | intros _]).
  apply shape_ret. split; reflexivity.
Qed.

Lemma run_shape op : shape (run cp show_strings show_rule op) (tidy any_request).
Proof.
  destruct op; simpl.
  - apply list_sip_trunks_shape; reflexivity.
  - apply list_dispatch_rules_shape; reflexivity.
  - apply shape_tidy_bind; [apply list_sip_trunks_shape; reflexivity | intros _].
    apply list_dispatch_rules_shape; reflexivity.
  - apply shape_tidy_bind; [apply create_inbound_trunk_shape | intros _].
    apply shape_ret; split; reflexivity.
  - apply shape_tidy_bind; [apply create_outbound_trunk_shape | intros _].
    apply shape_ret; split; reflexivity.
  - apply shape_tidy_bind; [apply create_dispatch_rule_shape | intros _].
    apply shape_ret; split; reflexivity.
  - apply delete_inbound_trunk_shape.
  - apply delete_dispatch_rule_shape.
  - apply shape_tidy_bind; [apply setup_twilio_trunk_shape | intros _].
    apply shape_ret; split; reflexivity.
Qed.

Lemma main_delete_all_shape prog rest :
  shape (main cp show_strings show_rule (prog :: "delete-all" :: rest))
        (tidy is_list_trunks).
Proof.
  unfold main. simpl.
  apply shape_tidy_bind; [apply shape_input | intros confirm].
  destruct (String.eqb (lower confirm) "yes").
  - apply shape_tidy_bind; [apply list_sip_trunks_shape; reflexivity | intros _].
    apply shape_print.
  - apply shape_ret. split; reflexivity.
Qed.

End ToolFacts.

Lemma leaked_app_nil (tr d : list Event) :
  opened d = closed d -> leaked tr (tr ++ d) = [].
Proof.
  intros Hd. unfold leaked, still_open.
  rewrite opened_app, closed_app, <- Hd.
  apply list_eq. intros i. rewrite lookup_nil.
  destruct (filter _ _ !! i) as [c|] eqn:E; [exfalso | reflexivity].
  apply list_elem_of_lookup_2 in E.
  apply list_elem_of_filter in E as [Hold E].
  apply list_elem_of_filter in E as [Hnc E].
  apply elem_of_app in E as [E|E]; [contradiction|].
  apply Hnc, elem_of_app. right. exact E.
Qed.

(** C4, as amended: for every operation of the tool and every control
    plane, when the operation ends without an exception (no control-plane
    call raised), every client it opened has been closed. *)
Theorem clients_closed_when_calls_return cp show_strings show_rule op w v w' :
  run cp show_strings show_rule op w = (Ok v, w') ->
  leaked (trace w) (trace w') = [].
Proof.
  intros Hrun.
  destruct (run_shape cp show_strings show_rule op w) as (o & d & i & Hr & [Hbal _]).
  unfold runs in Hr. rewrite Hrun in Hr. injection Hr as <- ->. simpl.
  apply leaked_app_nil, Hbal. reflexivity.
Qed.

Lemma clients_closed_when_calls_return_witness :
  leaked (trace start)
    (trace (snd (run obliging show_plain show_rule_plain
                   (OpSetup "+15550100" "example.pstn.twilio.com" None None) start))) = [].
Proof.
  apply (clients_closed_when_calls_return obliging show_plain show_rule_plain
           (OpSetup "+15550100" "example.pstn.twilio.com" None None) start tt).
  vm_compute. reflexivity.
Defined.

(** C4, as stated, fails: when the control plane raises, the operation
    ends with the exception and its client is still open. *)
Lemma client_left_open_on_error :
  let r := run unreachable show_plain show_rule_plain OpListTrunks start in
  fst r = Raise (RemoteError "connection refused") /\
  leaked (trace start) (trace (snd r)) = [1%nat] /\
  closed (trace (snd r)) = [].
Proof. vm_compute. repeat split; reflexivity. Qed.

(** C9: whatever the operator answers, [delete-all] sends no delete
    request; the only requests it can send are the two trunk listings. *)
Theorem delete_all_never_deletes cp show_strings show_rule prog rest tr answer more :
  let w := {| trace := tr; stdin := answer :: more |} in
  let w' := snd (main cp show_strings show_rule (prog :: "delete-all" :: rest) w) in
  exists d, trace w' = tr ++ d /\
    Forall (fun r => is_delete r = false) (requests d) /\
    Forall (fun r => r = ListSIPInboundTrunkRequest \/ r = ListSIPOutboundTrunkRequest)
           (requests d).
Proof.
  intros w w'.
  destruct (main_delete_all_shape cp show_strings show_rule prog rest w)
    as (o & d & i & Hr & [_ Hreq]).
  exists d. split; [subst w'; rewrite Hr; reflexivity|].
  rewrite forallb_forall in Hreq.
  split; apply List.Forall_forall; intros r Hin; specialize (Hreq r Hin);
    destruct r; simpl in *; auto; discriminate.
Qed.

Lemma requests_snoc_quiet (tr : list Event) (e : Event) :
  (forall c r, e <> Called c r) -> requests (tr ++ [e]) = requests tr.
Proof.
  intros H. rewrite requests_app. destruct e; simpl; rewrite ?app_nil_r; try reflexivity.
  exfalso. eapply H. reflexivity.
Qed.

Lemma requests_snoc_called (tr : list Event) c r :
  requests (tr ++ [Called c r]) = requests tr ++ [r].
Proof. rewrite requests_app. reflexivity. Qed.

(** C8: when the three creation calls return, [setup_twilio_trunk] sends
    exactly these three requests in this order, the rule scoped to the id
    of the inbound trunk just created, returns the three objects and ends
    its report with their three ids. *)
Theorem setup_issues_three_creations cp phone domain user pass w tin tout rl :
  let h := requests (trace w) in
  let r1 := CreateSIPInboundTrunkRequest (inbound_request phone) in
  let r2 := CreateSIPOutboundTrunkRequest (outbound_request phone domain user pass) in
  let r3 := CreateSIPDispatchRuleRequest "Voice Agent Dispatch" [in_sip_trunk_id tin]
              (dispatch_rule_individual "call-") in
  create_sip_inbound_trunk cp h (inbound_request phone) = Ok tin ->
  create_sip_outbound_trunk cp (h ++ [r1]) (outbound_request phone domain user pass)
    = Ok tout ->
  create_sip_dispatch_rule cp (h ++ [r1; r2]) "Voice Agent Dispatch"
    [in_sip_trunk_id tin] (dispatch_rule_individual "call-") = Ok rl ->
  exists w',
    setup_twilio_trunk cp phone domain user pass w = (Ok (tin, tout, rl), w') /\
    requests (trace w') = h ++ [r1; r2; r3] /\
    printed (trace w') = printed (trace w) ++
      [ "Setting up Twilio SIP Trunk...";
        "Created inbound trunk: " +:+ in_sip_trunk_id tin;
        "Created outbound trunk: " +:+ out_sip_trunk_id tout;
        "Created dispatch rule: " +:+ sip_dispatch_rule_id rl;
        String "010" "=== Setup Complete ===";
        "Inbound Trunk ID: " +:+ in_sip_trunk_id tin;
        "Outbound Trunk ID: " +:+ out_sip_trunk_id tout;
        "Dispatch Rule ID: " +:+ sip_dispatch_rule_id rl ].
Proof.
  intros h r1 r2 r3 H1 H2 H3.
  unfold setup_twilio_trunk, create_inbound_trunk, create_outbound_trunk,
    create_dispatch_rule, LiveKitAPI, call, aclose, print, emit, modify, get, bind, ret.
  cbn [trace stdin fst snd list_or_empty].
  repeat (rewrite ?requests_snoc_called; rewrite ?requests_snoc_quiet by discriminate).
  fold h. fold (inbound_request phone). rewrite H1.
  cbn [trace stdin fst snd list_or_empty].
  repeat (rewrite ?requests_snoc_called; rewrite ?requests_snoc_quiet by discriminate).
  fold h. fold (outbound_request phone domain user pass). fold r1. rewrite H2.
  cbn [trace stdin fst snd list_or_empty].
  repeat (rewrite ?requests_snoc_called; rewrite ?requests_snoc_quiet by discriminate).
  fold h. fold r1 r2. rewrite <- (app_assoc h [r1] [r2]). simpl ([r1] ++ [r2]). rewrite H3.
  cbn [trace stdin fst snd list_or_empty].
  eexists. split; [reflexivity|]. cbn [trace].
  split.
  - repeat (rewrite ?requests_snoc_called; rewrite ?requests_snoc_quiet by discriminate).
    fold h r1 r2 r3. rewrite <- !app_assoc. reflexivity.
  - rewrite !printed_app. simpl. rewrite ?app_nil_r, <- !app_assoc. reflexivity.
Qed.

Lemma setup_issues_three_creations_witness :
  exists w',
    setup_twilio_trunk obliging "+15550100" "sip.example.com" (Some "alice") None start
      = (Ok ({| in_sip_trunk_id := "ST_in"; in_name := "Twilio Inbound";
                in_numbers := ["+15550100"]; in_allowed_addresses := [] |},
             {| out_sip_trunk_id := "ST_out"; out_name := "Twilio Outbound";
                out_address := "sip.example.com"; out_numbers := ["+15550100"];
                out_auth_username := "alice"; out_auth_password := EmptyString |},
             {| sip_dispatch_rule_id := "SDR_1"; rule_name := "Voice Agent Dispatch";
                rule_trunk_ids := ["ST_in"];
                rule := dispatch_rule_individual "call-" |}), w') /\
    length (requests (trace w')) = 3%nat.
Proof.
  destruct (setup_issues_three_creations obliging "+15550100" "sip.example.com"
              (Some "alice") None start _ _ _ eq_refl eq_refl eq_refl)
    as (w' & Hrun & Hreq & _).
  exists w'. split; [exact Hrun|]. rewrite Hreq. reflexivity.
Defined.

End SipFacts.

(** ** The transcript recorder *)

Module TranscriptFacts.
Import Py Rec Rec.ConversationRecorder.

Lemma lstrip_empty s : truthy_str (lstrip s) = negb (blank s).
Proof.
  induction s as [|c s IH]; simpl; [reflexivity|].
  destruct (is_space c); simpl; [exact IH | reflexivity].
Qed.

Lemma rstrip_empty s : truthy_str (rstrip s) = negb (blank s).
Proof.
  induction s as [|c s IH]; simpl; [reflexivity|].
  destruct (rstrip s) eqn:E; simpl in *.
  - apply (f_equal negb) in IH. rewrite negb_involutive in IH. simpl in IH.
    rewrite <- IH, andb_true_r. destruct (is_space c); reflexivity.
  - apply (f_equal negb) in IH. rewrite negb_involutive in IH. simpl in IH.
    rewrite <- IH, andb_false_r. reflexivity.
Qed.

Lemma lstrip_blank s : blank (lstrip s) = blank s.
Proof.
  induction s as [|c s IH]; simpl; [reflexivity|].
  destruct (is_space c) eqn:E; simpl; [exact IH | rewrite E; reflexivity].
Qed.

Lemma strip_truthy s : truthy_str (strip s) = negb (blank s).
Proof. unfold strip. rewrite rstrip_empty, lstrip_blank. reflexivity. Qed.

Lemma accepts_spec self text :
  accepts self text = cr_is_recording self && negb (blank text).
Proof. unfold accepts. rewrite strip_truthy. reflexivity. Qed.

Lemma step_clean c self w : clean self -> clean (fst (step c (self, w))).
Proof.
  unfold clean. intros H. destruct c; simpl.
  - unfold start. destruct (now w). simpl. constructor.
  - unfold add_user_message. rewrite accepts_spec.
    destruct (cr_is_recording self && negb (blank text)) eqn:E; simpl; [|exact H].
    apply andb_true_iff in E as [_ E]. apply negb_true_iff in E.
    apply Forall_app. split; [exact H|]. constructor; [exact E | constructor].
  - unfold add_agent_message. rewrite accepts_spec.
    destruct (cr_is_recording self && negb (blank text)) eqn:E; simpl; [|exact H].
    apply andb_true_iff in E as [_ E]. apply negb_true_iff in E.
    apply Forall_app. split; [exact H|]. constructor; [exact E | constructor].
  - unfold stop. destruct (cr_transcript self) eqn:E; simpl.
    + constructor.
    + destruct (save _ _) as [[|] ?]; simpl; exact H.
Qed.

Lemma steps_clean cs self w : clean self -> clean (fst (steps cs (self, w))).
Proof.
  revert self w. induction cs as [|c cs IH]; intros self w H; simpl; [exact H|].
  destruct (step c (self, w)) as [self' w'] eqn:E.
  apply IH. change self' with (fst (self', w')). rewrite <- E. apply step_clean, H.
Qed.

Lemma steps_expected cs self w :
  map summary (cr_transcript (fst (steps cs (self, w)))) =
    expected (cr_is_recording self) (map summary (cr_transcript self)) cs.
Proof.
  revert self w. induction cs as [|c cs IH]; intros self w; simpl; [reflexivity|].
  destruct c; simpl.
  - unfold start. destruct (now w) as [t w1]. rewrite IH. reflexivity.
  - unfold add_user_message. rewrite accepts_spec.
    destruct (cr_is_recording self && negb (blank text)) eqn:E.
    + destruct (now w) as [t w1]. rewrite IH. simpl. rewrite map_app. reflexivity.
    + apply IH.
  - unfold add_agent_message. rewrite accepts_spec.
    destruct (cr_is_recording self && negb (blank text)) eqn:E.
    + destruct (now w) as [t w1]. rewrite IH. simpl. rewrite map_app. reflexivity.
    + apply IH.
  - unfold stop. destruct (cr_transcript self) eqn:E.
    + rewrite IH. simpl. rewrite ?E. reflexivity.
    + destruct (save _ _) as [[|] ?]; rewrite IH; simpl; rewrite ?E; reflexivity.
Qed.

(** C6: [add_user_message] and [add_agent_message] append one entry when
    the recorder is recording and the text has a character that is not
    white space, and change nothing otherwise; so along any sequence of
    calls on a new recorder no entry of the transcript is blank, and the
    transcript holds the accepted offers made since the last [start], in
    the order of the calls. *)
Theorem transcript_takes_nonblank_when_active :
  (forall self text language w,
     add_user_message self text language w =
       if cr_is_recording self && negb (blank text)
       then (append self (UserMessage text (clock w (reads w)) language), snd (now w))
       else (self, w)) /\
  (forall self text w,
     add_agent_message self text w =
       if cr_is_recording self && negb (blank text)
       then (append self (AgentMessage text (clock w (reads w))), snd (now w))
       else (self, w)) /\
  (forall filepath w cs,
     Forall (fun m => blank (message_text m) = false)
       (cr_transcript (fst (steps cs (init filepath w))))) /\
  (forall self w cs,
     map summary (cr_transcript (fst (steps cs (self, w)))) =
       expected (cr_is_recording self) (map summary (cr_transcript self)) cs).
Proof.
  repeat split.
  - intros. unfold add_user_message. rewrite accepts_spec.
    destruct (_ && _); reflexivity.
  - intros. unfold add_agent_message. rewrite accepts_spec.
    destruct (_ && _); reflexivity.
  - intros. destruct (init filepath w) as [r0 w0] eqn:E.
    apply steps_clean. unfold init in E. destruct (now w). injection E as <- _.
    constructor.
  - intros self w cs. apply steps_expected.
Qed.

End TranscriptFacts.

(** ** The unified audio recorder (variant A) *)

Module RecorderFacts.
Import Py Rec Rec.LocalAudioRecorder.
Local Open Scope Z_scope.

Lemma add_frames_recording self frames :
  la_is_recording self = true ->
  add_frames self frames =
    {| la_filepath := la_filepath self; la_sample_rate := la_sample_rate self;
       la_num_channels := la_num_channels self;
       la_frames := la_frames self ++ map frame_data frames;
       la_is_recording := true |}.
Proof.
  unfold add_frames. revert self.
  induction frames as [|f frames IH]; intros self Hrec; cbn [fold_left map].
  - rewrite app_nil_r. destruct self; simpl in *. subst. reflexivity.
  - assert (Hone : add_frame self (Some f) =
                   {| la_filepath := la_filepath self;
                      la_sample_rate := la_sample_rate self;
                      la_num_channels := la_num_channels self;
                      la_frames := la_frames self ++ [frame_data f];
                      la_is_recording := true |})
      by (unfold add_frame; rewrite Hrec; reflexivity).
    rewrite Hone, IH by reflexivity. simpl.
    rewrite <- app_assoc. reflexivity.
Qed.

Lemma stop_saves self w b bs :
  la_frames self = b :: bs ->
  fs_error w (la_filepath self) = None ->
  1 <= la_num_channels self ->
  0 < la_sample_rate self ->
  let data := concat (la_frames self) in
  let duration :=
    Float.round (inject_Z (len data) /
                 inject_Z (la_sample_rate self * la_num_channels self * 2)) in
  snd (stop self w) =
    print ("Local audio recording saved: " +:+ la_filepath self +:+ " (" +:+
           Float.format_1f duration +:+ " seconds, " +:+
           str_of_int (len (la_frames self)) +:+ " frames)")
      (store (la_filepath self)
         (WavFile (la_num_channels self) 2 (la_sample_rate self) data)
         (emit (Stopped (la_filepath self)) w)).
Proof.
  intros Hfr Hfs Hch Hrate data duration.
  unfold stop, save, wave_write. rewrite Hfr.
  cbn [la_filepath la_sample_rate la_num_channels la_frames emit fs_error].
  rewrite Hfs.
  destruct (Z.ltb_spec (la_num_channels self) 1) as [?|_]; [lia|].
  change ((2 <? 1) || (4 <? 2)) with false. cbv iota.
  destruct (Z.leb_spec (la_sample_rate self) 0) as [?|_]; [lia|].
  unfold Float.int_truediv.
  destruct (Z.eqb_spec (la_sample_rate self * la_num_channels self * 2) 0) as [E|_];
    [nia|].
  subst data duration. rewrite Hfr. reflexivity.
Qed.

Lemma stop_empty self w :
  la_frames self = [] ->
  snd (stop self w) = print "No audio frames recorded" (emit (Stopped (la_filepath self)) w).
Proof. intros H. unfold stop. rewrite H. reflexivity. Qed.

(** C7: a recorder built with the defaults of [my_agent], started, fed the
    frames [f :: fs] and stopped, on a path that can be written, leaves at
    its path a WAV file of 1 channel, 2-byte samples and 48000 Hz whose
    data is the frames in delivery order, and reports the duration
    [total bytes / (48000 * 1 * 2)] and the number of frames; with no frame
    it writes nothing. *)
Theorem recorder_writes_frames_in_order filepath f fs w :
  fs_error w filepath = None ->
  let frames := f :: fs in
  let data := concat (map frame_data frames) in
  let duration := Float.round (inject_Z (len data) / inject_Z (48000 * 1 * 2)) in
  files (snd (session filepath frames w)) =
    <[filepath := WavFile 1 2 48000 data]> (files w) /\
  trace (snd (session filepath frames w)) =
    trace w ++
    [ Printed ("Local audio recording started: " +:+ filepath);
      Stopped filepath;
      Wrote filepath;
      Printed ("Local audio recording saved: " +:+ filepath +:+ " (" +:+
               Float.format_1f duration +:+ " seconds, " +:+
               str_of_int (len frames) +:+ " frames)") ] /\
  files (snd (session filepath [] w)) = files w /\
  trace (snd (session filepath [] w)) =
    trace w ++
    [ Printed ("Local audio recording started: " +:+ filepath);
      Stopped filepath;
      Printed "No audio frames recorded" ].
Proof.
  intros Hfs frames data duration.
  unfold session, start, init, default_sample_rate, default_num_channels.
  cbn [la_filepath].
  rewrite !add_frames_recording by reflexivity.
  cbn [la_filepath la_sample_rate la_num_channels la_frames app map].
  rewrite (stop_saves _ _ (frame_data f) (map frame_data fs));
    cbn [la_filepath la_sample_rate la_num_channels la_frames print emit fs_error];
    [ | reflexivity | exact Hfs | lia | lia ].
  rewrite stop_empty by reflexivity.
  cbn [la_filepath trace print emit store files].
  repeat split.
  - rewrite <- !app_assoc. subst duration data frames. unfold len.
    cbn [length map concat app]. rewrite length_map. reflexivity.
  - rewrite <- !app_assoc. reflexivity.
Qed.

Lemma recorder_writes_frames_in_order_witness :
  files (snd (session "recordings/audio.wav" [one_frame; one_frame] blank_world)) =
    <["recordings/audio.wav" :=
        WavFile 1 2 48000
          [Byte.x01; Byte.x00; Byte.xff; Byte.x7f; Byte.x01; Byte.x00; Byte.xff; Byte.x7f]]>
      ∅.
Proof.
  exact (proj1 (recorder_writes_frames_in_order "recordings/audio.wav" one_frame
                  [one_frame] blank_world eq_refl)).
Defined.

End RecorderFacts.

(** ** Teardown of a call *)

Module TeardownFacts.
Import Py Rec.

Lemma stops_app (a b : list Event) : stops (a ++ b) = stops a ++ stops b.
Proof.
  induction a as [|e a IH]; simpl; [reflexivity|].
  destruct e; simpl; rewrite ?IH; reflexivity.
Qed.

Lemma writes_app (a b : list Event) : writes (a ++ b) = writes a ++ writes b.
Proof.
  induction a as [|e a IH]; simpl; [reflexivity|].
  destruct e; simpl; rewrite ?IH; reflexivity.
Qed.






Lemma stopless_now w : stopless w (snd (now w)).
Proof. reflexivity. Qed.







(** *** Variant A *)









(** *** Variant B *)










End TeardownFacts.

(** ** The weather tool *)

Module WeatherFacts.
Import Py Weather.

Section Facts.

Variable parse_float : string -> option Q.
Variable show_float : Q -> string.
Variable show_container : JSON -> string.

Lemma describe_code code default :
  describe (JInt code) default = Ok (words code default).
Proof. reflexivity. Qed.

Lemma index_1 (a b : JSON) l : index (JList (a :: b :: l)) 1 = Ok b.
Proof.
  unfold index, getitem. change (1 <? 0)%Z with false. cbv iota.
  change (0 <=? 1)%Z with true. rewrite andb_true_l.
  destruct (Z.ltb_spec 1 (Z.of_nat (length (a :: b :: l)))) as [_|H];
    [reflexivity | simpl length in H; lia].
Qed.

Lemma second_or_zero_list (l : list JSON) :
  second_or_zero (JList l) = Ok (second_or l (JInt 0)).
Proof.
  unfold second_or_zero. cbn [len and_then].
  destruct l as [|a [|b l]]; try reflexivity.
  destruct (Z.gtb_spec (Z.of_nat (length (a :: b :: l))) 1) as [_|H];
    [apply index_1 | simpl length in H; lia].
Qed.

Lemma second_or_map (l : list Z) :
  second_or (map JInt l) (JInt 0) = JInt (second_or l 0%Z).
Proof. destruct l as [|a [|b l]]; reflexivity. Qed.

Lemma len_ge_2 (l : list JSON) :
  (Z.of_nat (length l) >=? 2)%Z = match l with _ :: _ :: _ => true | _ => false end.
Proof.
  destruct l as [|a [|b l]]; try reflexivity.
  destruct (Z.geb_spec (Z.of_nat (length (a :: b :: l))) 2) as [_|H];
    [reflexivity | simpl length in H; lia].
Qed.

Lemma lookup_truthy key entries v :
  lookup key entries = Some v -> truthy (JDict entries) = true.
Proof. destruct entries; [discriminate | reflexivity]. Qed.

Lemma lookup_daily d :
  lookup "time" (daily_entries d) = time d /\
  lookup "temperature_2m_max" (daily_entries d) = option_map JList (temperature_2m_max d) /\
  lookup "temperature_2m_min" (daily_entries d) = option_map JList (temperature_2m_min d) /\
  lookup "precipitation_probability_max" (daily_entries d) =
    option_map JList (precipitation_probability_max d) /\
  lookup "weather_code" (daily_entries d) =
    option_map (fun l => JList (map JInt l)) (daily_codes d).
Proof.
  destruct d as [[t|] [mx|] [mn|] [pr|] [cs|]]; repeat split; reflexivity.
Qed.

Lemma get_list (x : option (list JSON)) :
  or_default (option_map JList x) (JList []) = JList (or_default x []).
Proof. destruct x; reflexivity. Qed.

Lemma get_codes (x : option (list Z)) :
  or_default (option_map (fun l => JList (map JInt l)) x) (JList []) =
    JList (map JInt (or_default x [])).
Proof. destruct x; reflexivity. Qed.

(** The forecast lines on a daily block of the documented shape. *)
Lemma forecast_info_typed d :
  lows_cover_highs (Some d) = true ->
  forecast_info show_float show_container (encode_daily d) =
    Ok (expected_clause show_float show_container (Some d)).
Proof.
  intros Hcover.
  destruct (lookup_daily d) as (Ht & Hmx & Hmn & Hpr & Hcs).
  change (encode_daily d) with (JDict (daily_entries d)).
  generalize dependent (daily_entries d). intros E Ht Hmx Hmn Hpr Hcs.
  unfold forecast_info, expected_clause, lows_cover_highs in *.
  cbn [contains get].
  destruct (time d) as [t|].
  - rewrite (lookup_truthy _ _ _ Ht), Ht. cbn [and_then].
    rewrite Hmx, Hmn, Hpr, Hcs.
    change (match option_map JList ?x with Some v => v | None => JList [] end)
      with (or_default (option_map JList x) (JList [])).
    change (match option_map ?f (daily_codes d) with Some v => v | None => JList [] end)
      with (or_default (option_map f (daily_codes d)) (JList [])).
    rewrite !get_list, get_codes. cbn [len and_then].
    rewrite len_ge_2.
    destruct (or_default (temperature_2m_max d) []) as [|h1 [|h2 mx]]; try reflexivity.
    destruct (or_default (temperature_2m_min d) []) as [|l1 [|l2 mn]]; try discriminate.
    rewrite !second_or_zero_list, second_or_map. cbn [and_then].
    rewrite describe_code. cbn [and_then]. rewrite !index_1. reflexivity.
  - rewrite Ht. destruct (truthy (JDict E)); reflexivity.
Qed.

Lemma forecast_info_absent :
  forecast_info show_float show_container (JDict []) = Ok EmptyString.
Proof. reflexivity. Qed.

Lemma lookup_current c :
  lookup "temperature_2m" (current_entries c) = temperature_2m c /\
  lookup "apparent_temperature" (current_entries c) = apparent_temperature c /\
  lookup "relative_humidity_2m" (current_entries c) = relative_humidity_2m c /\
  lookup "wind_speed_10m" (current_entries c) = wind_speed_10m c /\
  lookup "weather_code" (current_entries c) = option_map JInt (current_code c).
Proof.
  destruct c as [[t|] [a|] [h|] [w|] [k|]]; repeat split; reflexivity.
Qed.

Lemma lookup_forecast f :
  match encode f with
  | JDict e =>
      lookup "current" e = option_map encode_current (current f) /\
      lookup "daily" e = option_map encode_daily (daily f)
  | _ => False
  end.
Proof. destruct f as [[c|] [d|]]; split; reflexivity. Qed.

(** The tool, after both look-ups, on a payload of the documented shape. *)
Lemma report_typed geo name f :
  display_name geo = JStr name ->
  lows_cover_highs (daily f) = true ->
  report show_float show_container geo (encode f) =
    Ok (expected_sentence show_float show_container name f).
Proof.
  intros Hname Hcover. pose proof (lookup_forecast f) as Hl.
  unfold encode in *. set (E := entry _ _ _ ++ entry _ _ _) in *.
  destruct Hl as [Hc Hd]. clearbody E.
  unfold report, expected_sentence. cbn [get]. rewrite Hc, Hd. cbn [and_then].
  assert (Hcur : match option_map encode_current (current f) with
                 | Some x => x | None => JDict [] end =
                 JDict (current_entries (or_default (current f) no_current)))
    by (destruct (current f) as [c|]; reflexivity).
  rewrite Hcur. clear Hcur.
  destruct (lookup_current (or_default (current f) no_current))
    as (Ht & Ha & Hh & Hw & Hk).
  cbn [get]. rewrite Ht, Ha, Hh, Hw, Hk. cbn [and_then].
  assert (Hcode : describe match option_map JInt (current_code (or_default (current f) no_current)) with
                           | Some x => x | None => JInt 0 end "unknown conditions" =
                  Ok (words (or_default (current_code (or_default (current f) no_current)) 0%Z)
                        "unknown conditions"))
    by (destruct (current_code _); reflexivity).
  rewrite Hcode. clear Hcode. cbn [and_then].
  assert (Hinfo : forecast_info show_float show_container
                    match option_map encode_daily (daily f) with
                    | Some x => x | None => JDict [] end =
                  Ok (expected_clause show_float show_container (daily f))).
  { destruct (daily f) as [d|]; [apply forecast_info_typed, Hcover | reflexivity]. }
  rewrite Hinfo. cbn [and_then]. rewrite Hname. reflexivity.
Qed.

Variable geocoder : string -> outcome Response.
Variable forecaster : Q -> Q -> outcome Response.

(** The geocoder look-up on an answer of the documented shape. *)
Lemma geocode_location_typed location p others la lo :
  geocoder location = answered (JList (encode_place p :: others)) ->
  parse_float (place_lat p) = Some la ->
  parse_float (place_lon p) = Some lo ->
  geocode_location parse_float geocoder location =
    Ok (Some {| lat := la; lon := lo; display_name := JStr (place_name p) |}).
Proof.
  intros Hg Hla Hlo. unfold geocode_location. rewrite Hg. unfold answered.
  cbn [and_then status json Z.eqb Pos.eqb truthy].
  assert (H0 : index (JList (encode_place p :: others)) 0 = Ok (encode_place p)).
  { unfold index, getitem. change (0 <? 0)%Z with false. cbv iota.
    change (0 <=? 0)%Z with true. rewrite andb_true_l.
    destruct (Z.ltb_spec 0 (Z.of_nat (length (encode_place p :: others)))) as [_|H];
      [reflexivity | simpl length in H; lia]. }
  rewrite H0. cbn [and_then]. unfold encode_place.
  cbn [item lookup String.eqb Ascii.eqb Bool.eqb and_then to_float].
  rewrite Hla. cbn [and_then]. rewrite Hlo. reflexivity.
Qed.

Lemma geocode_location_nothing location :
  nothing_usable (geocoder location) = true ->
  geocode_location parse_float geocoder location = Ok None.
Proof.
  unfold nothing_usable, geocode_location.
  destruct (geocoder location) as [[st js]|]; [|discriminate]. cbn [status json and_then].
  destruct (st =? 200)%Z; [|reflexivity]. cbn [negb orb].
  destruct js as [data|]; [|discriminate]. cbn [and_then].
  destruct (truthy data); [discriminate | reflexivity].
Qed.

Lemma get_weather_resolved location geo :
  geocode_location parse_float geocoder location = Ok (Some geo) ->
  get_weather parse_float show_float show_container geocoder forecaster location =
    and_then (get_weather_data forecaster (lat geo) (lon geo)) (fun weather_data =>
      match weather_data with
      | None => Ok (not_fetched location)
      | Some data =>
          if truthy data then report show_float show_container geo data
          else Ok (not_fetched location)
      end).
Proof. intros H. unfold get_weather. rewrite H. reflexivity. Qed.

Lemma get_weather_not_fetched location geo :
  geocode_location parse_float geocoder location = Ok (Some geo) ->
  nothing_usable (forecaster (lat geo) (lon geo)) = true ->
  get_weather parse_float show_float show_container geocoder forecaster location =
    Ok (not_fetched location).
Proof.
  intros Hgeo Hn. rewrite (get_weather_resolved _ _ Hgeo).
  unfold nothing_usable, get_weather_data in *.
  destruct (forecaster (lat geo) (lon geo)) as [[st js]|]; [|discriminate].
  cbn [status json and_then] in *.
  destruct (st =? 200)%Z; [|reflexivity]. cbn [negb orb] in Hn.
  destruct js as [data|]; [|discriminate]. cbn [and_then].
  destruct (truthy data); [discriminate | reflexivity].
Qed.

Lemma get_weather_typed location p others la lo f :
  geocoder location = answered (JList (encode_place p :: others)) ->
  parse_float (place_lat p) = Some la ->
  parse_float (place_lon p) = Some lo ->
  forecaster la lo = answered (encode f) ->
  truthy (encode f) = true ->
  lows_cover_highs (daily f) = true ->
  get_weather parse_float show_float show_container geocoder forecaster location =
    Ok (expected_sentence show_float show_container (place_name p) f).
Proof.
  intros Hg Hla Hlo Hf Hne Hcover.
  rewrite (get_weather_resolved _ _ (geocode_location_typed _ _ _ _ _ Hg Hla Hlo)).
  unfold get_weather_data. cbn [lat lon]. rewrite Hf. unfold answered.
  cbn [and_then status json Z.eqb Pos.eqb]. rewrite Hne.
  apply report_typed; [reflexivity | exact Hcover].
Qed.

End Facts.


(** C2, as stated, fails: an exchange that fails before a response
    arrives, or a response whose body is not a JSON document, makes
    [get_weather] raise, at the geocoder and at the weather provider. *)
Lemma get_weather_lets_errors_escape :
  get_weather parse_known plain_float plain_container refuses (forecasts true) "Paris"
    = Raise (RemoteError "connection refused") /\
  get_weather parse_known plain_float plain_container garbles (forecasts true) "Paris"
    = Raise (ContentError "not a JSON document") /\
  get_weather parse_known plain_float plain_container finds_paris drops "Paris"
    = Raise (RemoteError "connection reset").
Proof. vm_compute. repeat split; reflexivity. Qed.

(** C2, as amended: an exchange with the geocoder that completes with
    another status than 200 or with an empty result gives the apology that
    names the location; once the location is resolved, an exchange with the
    weather provider that completes with another status than 200 or with
    an empty document gives the second apology; and when both complete with
    documents of the documented shape, the daily block holding two lows
    whenever it holds [time] and two highs, the tool returns a string. *)
Theorem get_weather_apologises parse_float show_float show_container
    geocoder forecaster location :
  (nothing_usable (geocoder location) = true ->
   get_weather parse_float show_float show_container geocoder forecaster location =
     Ok (not_found location)) /\
  (forall geo,
     geocode_location parse_float geocoder location = Ok (Some geo) ->
     nothing_usable (forecaster (lat geo) (lon geo)) = true ->
     get_weather parse_float show_float show_container geocoder forecaster location =
       Ok (not_fetched location)) /\
  (forall p others la lo f,
     geocoder location = answered (JList (encode_place p :: others)) ->
     parse_float (place_lat p) = Some la ->
     parse_float (place_lon p) = Some lo ->
     forecaster la lo = answered (encode f) ->
     lows_cover_highs (daily f) = true ->
     is_ok (get_weather parse_float show_float show_container geocoder forecaster
              location) = true).
Proof.
  split; [|split].
  - intros H. unfold get_weather.
    rewrite (geocode_location_nothing parse_float geocoder location H). reflexivity.
  - intros geo Hgeo Hn. eapply get_weather_not_fetched; eassumption.
  - intros p others la lo f Hg Hla Hlo Hf Hcover.
    destruct (truthy (encode f)) eqn:Hne.
    + rewrite (get_weather_typed parse_float show_float show_container geocoder
                 forecaster location p others la lo f Hg Hla Hlo Hf Hne Hcover).
      reflexivity.
    + rewrite (get_weather_resolved parse_float show_float show_container geocoder
                 forecaster location _
                 (geocode_location_typed parse_float geocoder location p others la lo
                    Hg Hla Hlo)).
      unfold get_weather_data. cbn [lat lon]. rewrite Hf. unfold answered.
      cbn [and_then status json Z.eqb Pos.eqb]. rewrite Hne. reflexivity.
Qed.

Lemma get_weather_apologises_witness :
  get_weather parse_known plain_float plain_container finds_nothing (forecasts true)
    "Atlantis"
    = Ok "Sorry, I couldn't find the location 'Atlantis'. Please try a different city or place name." /\
  get_weather parse_known plain_float plain_container finds_paris overloaded "Paris"
    = Ok "Sorry, I couldn't fetch weather data for Paris. Please try again later." /\
  is_ok (get_weather parse_known plain_float plain_container finds_paris (forecasts true)
           "Paris") = true.
Proof.
  split; [|split].
  - exact (proj1 (get_weather_apologises parse_known plain_float plain_container
                    finds_nothing (forecasts true) "Atlantis") eq_refl).
  - exact (proj1 (proj2 (get_weather_apologises parse_known plain_float plain_container
                           finds_paris overloaded "Paris")) _ eq_refl eq_refl).
  - exact (proj2 (proj2 (get_weather_apologises parse_known plain_float plain_container
                           finds_paris (forecasts true) "Paris"))
             paris [] _ _ (sample_forecast true) eq_refl eq_refl eq_refl eq_refl eq_refl).
Defined.

(** C3, as stated, fails: a daily block with two highs and no [time] key
    gives no clause. *)
Lemma two_highs_without_time_give_no_clause :
  temperature_2m_max (sample_daily false) = Some [JInt 22; JInt 24] /\
  get_weather parse_known plain_float plain_container finds_paris (forecasts false)
    "Paris"
    = Ok "Current weather in Paris: 21 degrees Celsius, feels like 20 degrees. Conditions: clear sky. Humidity: 50%. Wind speed: 10 kilometers per hour.".
Proof. vm_compute. split; reflexivity. Qed.

(** C3, as amended: on documents of the documented shape, the sentence is
    the current conditions followed by [expected_clause]: when the daily
    block has the key [time], at least two highs and at least two lows, the
    clause built from index 1 of the highs and lows, from the text of the
    code at index 1 ("unknown" for a code outside the table, code 0 when
    there are fewer than two codes) and from the precipitation at index 1
    (0 when there are fewer than two); nothing when the block has no [time]
    key or fewer than two highs. *)
Theorem forecast_clause_needs_time_and_two_highs parse_float show_float show_container
    geocoder forecaster location p others la lo f :
  geocoder location = answered (JList (encode_place p :: others)) ->
  parse_float (place_lat p) = Some la ->
  parse_float (place_lon p) = Some lo ->
  forecaster la lo = answered (encode f) ->
  truthy (encode f) = true ->
  lows_cover_highs (daily f) = true ->
  get_weather parse_float show_float show_container geocoder forecaster location =
    Ok (expected_sentence show_float show_container (place_name p) f) /\
  expected_clause show_float show_container (daily f) =
    match daily f with
    | None => EmptyString
    | Some d =>
        match time d, or_default (temperature_2m_max d) [],
              or_default (temperature_2m_min d) [] with
        | Some _, _ :: high :: _, _ :: low :: _ =>
            " Tomorrow's forecast: high of " +:+ show show_float show_container high +:+
            " degrees, low of " +:+ show show_float show_container low +:+
            " degrees, " +:+
            words (second_or (or_default (daily_codes d) []) 0%Z) "unknown" +:+ ", " +:+
            show show_float show_container
              (second_or (or_default (precipitation_probability_max d) []) (JInt 0)) +:+
            "% chance of precipitation."
        | _, _, _ => EmptyString
        end
    end.
Proof.
  intros Hg Hla Hlo Hf Hne Hcover. split.
  - eapply get_weather_typed; eassumption.
  - reflexivity.
Qed.

Lemma forecast_clause_needs_time_and_two_highs_witness :
  get_weather parse_known plain_float plain_container finds_paris (forecasts true)
    "Paris"
    = Ok "Current weather in Paris: 21 degrees Celsius, feels like 20 degrees. Conditions: clear sky. Humidity: 50%. Wind speed: 10 kilometers per hour. Tomorrow's forecast: high of 24 degrees, low of 12 degrees, slight rain, 30% chance of precipitation.".
Proof.
  exact (proj1 (forecast_clause_needs_time_and_two_highs parse_known plain_float
                  plain_container finds_paris (forecasts true) "Paris" paris [] _ _
                  (sample_forecast true) eq_refl eq_refl eq_refl eq_refl eq_refl
                  eq_refl)).
Defined.

End WeatherFacts.

(** ** Rounding *)

Module FloatFacts.
Import Py Float.
Local Open Scope Q_scope.

Lemma pow2_pos k : 0 < pow2 k.
Proof. apply Qpower_0_lt. reflexivity. Qed.

Lemma pow2_Z k : (0 <= k)%Z -> pow2 k == inject_Z (2 ^ k).
Proof. intros H. unfold pow2. rewrite Zpower_Qpower by exact H. reflexivity. Qed.

Lemma pow2_add a b : pow2 (a + b) == pow2 a * pow2 b.
Proof. unfold pow2. apply Qpower_plus. discriminate. Qed.

Lemma pow2_sub a b : pow2 (a - b) == pow2 a / pow2 b.
Proof. unfold pow2. apply Qpower_minus. discriminate. Qed.

Lemma pow2_succ k : pow2 (k + 1) == 2 * pow2 k.
Proof. rewrite pow2_add. unfold pow2 at 2. simpl. ring. Qed.

Lemma pow2_le a b : (a <= b)%Z -> pow2 a <= pow2 b.
Proof. intros H. apply Qpower_le_compat_l; [exact H | discriminate]. Qed.

Lemma pow2_lt a b : (a < b)%Z -> pow2 a < pow2 b.
Proof. intros H. apply Qpower_lt_compat_l; [exact H | reflexivity]. Qed.

Lemma pow2_lt_inv a b : pow2 a < pow2 b -> (a < b)%Z.
Proof. intros H. eapply Qpower_lt_compat_l_inv; [exact H | reflexivity]. Qed.

Lemma pow2_le_inv a b : pow2 a <= pow2 b -> (a <= b)%Z.
Proof. intros H. eapply Qpower_le_compat_l_inv; [exact H | reflexivity]. Qed.

Lemma Qabs_frac q : Qabs q == inject_Z (Z.abs (Qnum q)) / inject_Z (Zpos (Qden q)).
Proof. destruct q as [n d]. unfold Qabs. simpl. rewrite <- Qmake_Qdiv. reflexivity. Qed.

Lemma num_pos q : ~ q == 0 -> (0 < Z.abs (Qnum q))%Z.
Proof.
  intros H. destruct q as [n d]. simpl. unfold Qeq in H. simpl in H. lia.
Qed.

Lemma binade_rough q :
  ~ q == 0 ->
  let k := (Z.log2 (Z.abs (Qnum q)) - Z.log2 (Zpos (Qden q)))%Z in
  pow2 (k - 1) < Qabs q /\ Qabs q < pow2 (k + 1).
Proof.
  intros Hq k. pose proof (num_pos q Hq) as Hn.
  set (n := Z.abs (Qnum q)) in *. set (d := Zpos (Qden q)) in *.
  assert (Hd : (0 < d)%Z) by (subst d; lia).
  destruct (Z.log2_spec n Hn) as [Hn1 Hn2].
  destruct (Z.log2_spec d Hd) as [Hd1 Hd2].
  pose proof (Z.log2_nonneg n) as Ln. pose proof (Z.log2_nonneg d) as Ld.
  rewrite Qabs_frac. fold n d.
  assert (Dpos : 0 < inject_Z d)
    by (change 0 with (inject_Z 0); rewrite <- Zlt_Qlt; exact Hd).
  split.
  - apply Qlt_shift_div_l; [exact Dpos|].
    (* pow2 (k-1) * d < n *)
    apply Qlt_le_trans with (pow2 (k - 1) * pow2 (Z.log2 d + 1)).
    + apply Qmult_lt_l; [apply pow2_pos|].
      rewrite (pow2_Z (Z.log2 d + 1)) by lia. rewrite <- Zlt_Qlt.
      replace (Z.succ (Z.log2 d)) with (Z.log2 d + 1)%Z in Hd2 by lia. exact Hd2.
    + rewrite <- pow2_add. subst k.
      replace (Z.log2 n - Z.log2 d - 1 + (Z.log2 d + 1))%Z with (Z.log2 n) by lia.
      rewrite pow2_Z by lia. rewrite <- Zle_Qle. exact Hn1.
  - apply Qlt_shift_div_r; [exact Dpos|].
    apply Qlt_le_trans with (pow2 (Z.log2 n + 1)).
    + rewrite pow2_Z by lia. rewrite <- Zlt_Qlt.
      replace (Z.succ (Z.log2 n)) with (Z.log2 n + 1)%Z in Hn2 by lia. exact Hn2.
    + apply Qle_trans with (pow2 (k + 1) * pow2 (Z.log2 d)).
      * rewrite <- pow2_add. apply pow2_le. subst k. lia.
      * apply Qmult_le_l; [apply pow2_pos|].
        rewrite pow2_Z by lia. rewrite <- Zle_Qle. exact Hd1.
Qed.

Lemma binade_spec q :
  ~ q == 0 -> pow2 (binade q) <= Qabs q /\ Qabs q < pow2 (binade q + 1).
Proof.
  intros Hq. destruct (binade_rough q Hq) as [Hlo Hhi]. unfold binade.
  set (k := (Z.log2 (Z.abs (Qnum q)) - Z.log2 (Zpos (Qden q)))%Z) in *.
  destruct (Qle_bool (pow2 k) (Qabs q)) eqn:E.
  - apply Qle_bool_iff in E. split; assumption.
  - split; [apply Qlt_le_weak, Hlo|].
    replace (k - 1 + 1)%Z with k by lia.
    apply Qnot_le_lt. intros H. apply Qle_bool_iff in H. congruence.
Qed.

Lemma binade_unique q b :
  pow2 b <= Qabs q -> Qabs q < pow2 (b + 1) -> binade q = b.
Proof.
  intros Hlo Hhi.
  assert (Hq : ~ q == 0).
  { intros H. rewrite H in Hlo. change (Qabs 0) with 0 in Hlo.
    pose proof (pow2_pos b). lra. }
  destruct (binade_spec q Hq) as [Blo Bhi].
  assert (binade q < b + 1)%Z by (apply pow2_lt_inv; lra).
  assert (b < binade q + 1)%Z by (apply pow2_lt_inv; lra).
  lia.
Qed.

Lemma half_even_error q :
  - (1 # 2) <= inject_Z (half_even q) - q /\ inject_Z (half_even q) - q <= 1 # 2.
Proof.
  unfold half_even. pose proof (Qfloor_le q) as Hlo. pose proof (Qlt_floor q) as Hhi.
  rewrite inject_Z_plus in Hhi. change (inject_Z 1) with 1 in Hhi.
  destruct (Qcompare (q - inject_Z (Qfloor q)) (1 # 2)) eqn:E.
  - apply Qeq_alt in E. destruct (Z.even (Qfloor q)).
    + lra.
    + rewrite inject_Z_plus. change (inject_Z 1) with 1. lra.
  - apply Qlt_alt in E. lra.
  - apply Qgt_alt in E. rewrite inject_Z_plus. change (inject_Z 1) with 1. lra.
Qed.

Lemma half_even_comp q q' : q == q' -> half_even q = half_even q'.
Proof.
  intros H. unfold half_even. rewrite (Qfloor_comp _ _ H).
  assert (Hc : Qcompare (q - inject_Z (Qfloor q')) (1 # 2) =
               Qcompare (q' - inject_Z (Qfloor q')) (1 # 2))
    by (apply Qcompare_comp; [rewrite H|]; reflexivity).
  rewrite Hc. reflexivity.
Qed.

Lemma half_even_Z z : half_even (inject_Z z) = z.
Proof.
  unfold half_even. rewrite Qfloor_Z.
  assert (E : Qcompare (inject_Z z - inject_Z z) (1 # 2) = Lt)
    by (rewrite <- Qlt_alt; lra).
  rewrite E. reflexivity.
Qed.

Lemma half_even_le q n : q <= inject_Z n -> (half_even q <= n)%Z.
Proof.
  intros H. pose proof (Qfloor_le q) as Hlo. pose proof (Qlt_floor q) as Hhi.
  assert (Hf : (Qfloor q <= n)%Z) by (rewrite Zle_Qle; lra).
  unfold half_even.
  destruct (Qcompare (q - inject_Z (Qfloor q)) (1 # 2)) eqn:E; try exact Hf.
  - destruct (Z.even (Qfloor q)); [exact Hf|].
    apply Qeq_alt in E.
    assert (Qfloor q < n)%Z by (rewrite Zlt_Qlt; lra). lia.
  - apply Qgt_alt in E.
    assert (Qfloor q < n)%Z by (rewrite Zlt_Qlt; lra). lia.
Qed.

Lemma half_even_ge q n : inject_Z n <= q -> (n <= half_even q)%Z.
Proof.
  intros H. assert (Hf : (n <= Qfloor q)%Z).
  { rewrite <- (Qfloor_Z n). apply Qfloor_resp_le, H. }
  unfold half_even.
  destruct (Qcompare (q - inject_Z (Qfloor q)) (1 # 2)); try destruct (Z.even _); lia.
Qed.

Lemma round_zero q : q == 0 -> round q = 0.
Proof.
  intros H. unfold round. apply Qeq_bool_iff in H. rewrite H. reflexivity.
Qed.

Lemma round_value q :
  ~ q == 0 ->
  round q == inject_Z (half_even (q / pow2 (binade q - 52))) * pow2 (binade q - 52).
Proof.
  intros H. unfold round.
  destruct (Qeq_bool q 0) eqn:E; [apply Qeq_bool_iff in E; contradiction|].
  apply Qred_correct.
Qed.

Lemma round_error q :
  - (eps * Qabs q) <= round q - q /\ round q - q <= eps * Qabs q.
Proof.
  destruct (Qeq_dec q 0) as [Hz|Hnz].
  - rewrite (round_zero q Hz). rewrite Hz. change (Qabs 0) with 0. unfold eps. lra.
  - rewrite (round_value q Hnz).
    destruct (binade_spec q Hnz) as [Blo _].
    set (e := (binade q - 52)%Z) in *.
    pose proof (pow2_pos e) as Ppos.
    pose proof (half_even_error (q / pow2 e)) as [Hl Hu].
    set (m := inject_Z (half_even (q / pow2 e))) in *.
    assert (Hq : q == (q / pow2 e) * pow2 e) by (field; lra).
    set (s := q / pow2 e) in *.
    assert (Hb : pow2 (binade q) == pow2 e * inject_Z (2 ^ 52)).
    { replace (binade q) with (e + 52)%Z by (subst e; lia).
      rewrite pow2_add, (pow2_Z 52) by lia. reflexivity. }
    rewrite Hb in Blo. unfold eps.
    change (inject_Z (2 ^ 52)) with (4503599627370496 # 1) in Blo.
    change (1 # 2 ^ 53) with (1 # 9007199254740992).
    assert (H1 : - (1 # 2) * pow2 e <= m * pow2 e - s * pow2 e) by nra.
    assert (H2 : m * pow2 e - s * pow2 e <= (1 # 2) * pow2 e) by nra.
    rewrite <- Hq in H1, H2. lra.
Qed.

Lemma eps_small : 0 < eps /\ eps < 1.
Proof. unfold eps. split; reflexivity. Qed.

Lemma round_nonneg q : 0 <= q -> 0 <= round q.
Proof.
  intros H. destruct (round_error q) as [Hl _]. rewrite (Qabs_pos q H) in Hl.
  unfold eps in Hl. change (1 # 2 ^ 53) with (1 # 9007199254740992) in Hl. lra.
Qed.

Lemma round_pos q : 0 < q -> 0 < round q.
Proof.
  intros H. destruct (round_error q) as [Hl _].
  rewrite (Qabs_pos q) in Hl by lra.
  unfold eps in Hl. change (1 # 2 ^ 53) with (1 # 9007199254740992) in Hl. lra.
Qed.

Lemma round_le_pow2 q k : 0 <= q -> q <= pow2 k -> round q <= pow2 k.
Proof.
  intros Hq Hk. destruct (Qeq_dec q 0) as [Hz|Hnz].
  - rewrite (round_zero q Hz). apply Qlt_le_weak, pow2_pos.
  - rewrite (round_value q Hnz).
    destruct (binade_spec q Hnz) as [Blo _]. rewrite (Qabs_pos q Hq) in Blo.
    assert (Hb : (binade q <= k)%Z) by (apply pow2_le_inv; lra).
    set (e := (binade q - 52)%Z) in *. pose proof (pow2_pos e) as Ppos.
    assert (Hs : q / pow2 e <= inject_Z (2 ^ (k - e))).
    { rewrite <- pow2_Z by lia. rewrite pow2_sub.
      apply Qmult_le_compat_r; [exact Hk|]. apply Qlt_le_weak, Qinv_lt_0_compat, Ppos. }
    apply half_even_le in Hs. rewrite Zle_Qle in Hs. rewrite <- pow2_Z in Hs by lia.
    rewrite pow2_sub in Hs.
    set (m := inject_Z (half_even (q / pow2 e))) in *.
    assert (Hm : m * pow2 e <= pow2 k / pow2 e * pow2 e)
      by (apply Qmult_le_compat_r; lra).
    assert (Hk' : pow2 k / pow2 e * pow2 e == pow2 k) by (field; lra).
    lra.
Qed.

Lemma Qred_inject_Z z : Qred (inject_Z z) = inject_Z z.
Proof.
  unfold inject_Z, Qred.
  pose proof (Z.ggcd_gcd z 1) as Hg. pose proof (Z.ggcd_correct_divisors z 1) as Hd.
  destruct (Z.ggcd z 1) as [g [a b]]. simpl in *. rewrite Z.gcd_1_r in Hg. subst g.
  destruct Hd as [Ha Hb]. rewrite Z.mul_1_l in Ha, Hb. subst a b. reflexivity.
Qed.

Lemma pow2_opp k : pow2 (- k) == / pow2 k.
Proof. unfold pow2. apply Qpower_opp. Qed.

Lemma of_int_exact z : (Z.abs z < 2 ^ 53)%Z -> of_int z = inject_Z z.
Proof.
  intros Hz. unfold of_int.
  destruct (Z.eq_dec z 0%Z) as [->|Hnz]; [reflexivity|].
  assert (Hq : ~ inject_Z z == 0).
  { intros H. apply Hnz. unfold Qeq in H. simpl in H. lia. }
  assert (Hv : round (inject_Z z) == inject_Z z).
  { rewrite (round_value _ Hq).
    destruct (binade_spec _ Hq) as [Blo _].
    assert (Ha : Qabs (inject_Z z) == inject_Z (Z.abs z)) by (unfold Qabs; simpl; reflexivity).
    rewrite Ha in Blo.
    assert (Hb : (binade (inject_Z z) < 53)%Z).
    { apply pow2_lt_inv. eapply Qle_lt_trans; [exact Blo|].
      rewrite (pow2_Z 53) by lia. rewrite <- Zlt_Qlt. exact Hz. }
    set (e := (binade (inject_Z z) - 52)%Z) in *. pose proof (pow2_pos e) as Ppos.
    assert (Hs : inject_Z z / pow2 e == inject_Z (z * 2 ^ (- e))).
    { rewrite inject_Z_mult, <- pow2_Z by lia. rewrite pow2_opp. reflexivity. }
    rewrite (half_even_comp _ _ Hs), half_even_Z, inject_Z_mult, <- pow2_Z by lia.
    rewrite pow2_opp. field. lra. }
  unfold round in *.
  destruct (Qeq_bool (inject_Z z) 0) eqn:E; [apply Qeq_bool_iff in E; contradiction|].
  match goal with |- Qred ?x = _ =>
    transitivity (Qred (inject_Z z)); [apply Qred_complete; rewrite <- (Qred_correct x); exact Hv|]
  end.
  apply Qred_inject_Z.
Qed.

Lemma to_int_floor x : 0 <= x -> to_int x = Qfloor x.
Proof.
  intros H. destruct x as [n d]. unfold to_int, Qfloor. simpl.
  apply Z.quot_div_nonneg; [|lia]. unfold Qle in H. simpl in H. lia.
Qed.

Lemma to_int_opp x : to_int (- x) = (- to_int x)%Z.
Proof. destruct x as [n d]. unfold to_int. simpl. apply Z.quot_opp_l. lia. Qed.

Lemma to_int_nonneg x :
  0 <= x -> (0 <= to_int x)%Z /\ inject_Z (to_int x) <= x /\ x < inject_Z (to_int x) + 1.
Proof.
  intros H. rewrite (to_int_floor x H).
  pose proof (Qfloor_le x) as Hlo. pose proof (Qlt_floor x) as Hhi.
  rewrite inject_Z_plus in Hhi. change (inject_Z 1) with 1 in Hhi.
  repeat split; try assumption.
  rewrite <- (Qfloor_Z 0). apply Qfloor_resp_le, H.
Qed.

Lemma to_int_between a b x :
  (a <= 0 <= b)%Z -> inject_Z a - 1 < x -> x < inject_Z b + 1 ->
  (a <= to_int x <= b)%Z.
Proof.
  intros [Ha Hb] Hlo Hhi. destruct (Qlt_le_dec x 0) as [Hneg|Hpos].
  - assert (Hx : 0 <= - x) by lra.
    destruct (to_int_nonneg (- x) Hx) as (H0 & H1 & _).
    rewrite to_int_opp in H0, H1. rewrite inject_Z_opp in H1.
    assert (Ht : (- to_int x < 1 - a)%Z).
    { rewrite Zlt_Qlt, inject_Z_opp. unfold Z.sub.
      rewrite inject_Z_plus, inject_Z_opp. change (inject_Z 1) with 1. lra. }
    lia.
  - destruct (to_int_nonneg x Hpos) as (H0 & H1 & _).
    assert (Ht : (to_int x < b + 1)%Z).
    { rewrite Zlt_Qlt, inject_Z_plus. change (inject_Z 1) with 1. lra. }
    lia.
Qed.

Lemma round_scaled s c :
  (-32768 <= s <= 32767)%Z -> 0 <= c ->
  - ((32768 # 1) * (1 + eps) * c) <= round (inject_Z s * c) /\
  round (inject_Z s * c) <= ((32767 # 1) + (32768 # 1) * eps) * c.
Proof.
  intros [Hlo Hhi] Hc.
  destruct (round_error (inject_Z s * c)) as [El Eu].
  assert (Hs1 : inject_Z (-32768) <= inject_Z s) by (rewrite <- Zle_Qle; exact Hlo).
  assert (Hs2 : inject_Z s <= inject_Z 32767) by (rewrite <- Zle_Qle; exact Hhi).
  change (inject_Z (-32768)) with (-32768 # 1) in Hs1.
  change (inject_Z 32767) with (32767 # 1) in Hs2.
  set (S := inject_Z s) in *.
  assert (Ha : Qabs (S * c) <= (32768 # 1) * c).
  { apply Qabs_Qle_condition. split; nra. }
  pose proof eps_small as [E0 E1].
  assert (Hp1 : S * c <= (32767 # 1) * c) by nra.
  assert (Hp2 : - ((32768 # 1) * c) <= S * c) by nra.
  assert (Hp3 : eps * Qabs (S * c) <= eps * ((32768 # 1) * c)) by nra.
  split; lra.
Qed.

Ltac eps_numeral :=
  unfold eps in *; change (1 # 2 ^ 53) with (1 # 9007199254740992) in *.

Lemma interpolate_in_range s0 s1 f :
  (-32768 <= s0 <= 32767)%Z -> (-32768 <= s1 <= 32767)%Z -> 0 <= f -> f <= 1 ->
  (-32768 <= Rec.interpolate s0 s1 f <= 32767)%Z.
Proof.
  intros H0 H1 Hf0 Hf1. unfold Rec.interpolate, add, mul, sub.
  rewrite (of_int_exact s0), (of_int_exact s1), (of_int_exact 1) by lia.
  change (inject_Z 1) with 1.
  set (c := round (1 - f)).
  assert (Hc0 : 0 <= c) by (apply round_nonneg; lra).
  assert (Hc1 : c <= (1 - f) + eps * (1 - f)).
  { destruct (round_error (1 - f)) as [_ Eu]. fold c in Eu.
    rewrite Qabs_pos in Eu by lra. lra. }
  destruct (round_scaled s0 c H0 Hc0) as [Al Au].
  destruct (round_scaled s1 f H1 Hf0) as [Bl Bu].
  set (a := round (inject_Z s0 * c)) in *. set (b := round (inject_Z s1 * f)) in *.
  destruct (round_error (a + b)) as [Rl Ru].
  set (r := round (a + b)) in *.
  eps_numeral.
  assert (Habs : Qabs (a + b) <= 32769 # 1).
  { apply Qabs_Qle_condition. split; lra. }
  apply to_int_between; [lia | |].
  - change (inject_Z (-32768)) with (-32768 # 1). lra.
  - change (inject_Z 32767) with (32767 # 1). lra.
Qed.

Lemma round_nonpos q : q <= 0 -> round q <= 0.
Proof.
  intros H. destruct (round_error q) as [_ Hu]. rewrite (Qabs_neg q H) in Hu.
  eps_numeral. lra.
Qed.

Lemma binade_comp q q' : ~ q == 0 -> q == q' -> binade q = binade q'.
Proof.
  intros Hq H. assert (Hq' : ~ q' == 0) by (rewrite <- H; exact Hq).
  destruct (binade_spec q' Hq') as [Blo Bhi].
  apply binade_unique; rewrite H; assumption.
Qed.

Lemma round_comp q q' : q == q' -> round q = round q'.
Proof.
  intros H. destruct (Qeq_dec q 0) as [Hz|Hnz].
  - rewrite (round_zero q Hz). symmetry. apply round_zero. rewrite <- H. exact Hz.
  - assert (Hnz' : ~ q' == 0) by (rewrite <- H; exact Hnz).
    unfold round.
    destruct (Qeq_bool q 0) eqn:E; [apply Qeq_bool_iff in E; contradiction|].
    destruct (Qeq_bool q' 0) eqn:E'; [apply Qeq_bool_iff in E'; contradiction|].
    apply Qred_complete. rewrite (binade_comp q q' Hnz H).
    rewrite (half_even_comp (q / pow2 (binade q' - 52)) (q' / pow2 (binade q' - 52)))
      by (rewrite H; reflexivity).
    reflexivity.
Qed.

(** A positive number with at most 53 significant bits is its own rounding. *)
Lemma round_representable m e :
  (0 < m <= 2 ^ 53)%Z -> round (inject_Z m * pow2 e) == inject_Z m * pow2 e.
Proof.
  intros [Hm0 Hm1]. pose proof (pow2_pos e) as Ppos.
  assert (Mpos : 0 < inject_Z m) by (change 0 with (inject_Z 0); rewrite <- Zlt_Qlt; exact Hm0).
  set (q := inject_Z m * pow2 e).
  assert (Hq : 0 < q) by (subst q; nra).
  assert (Hnz : ~ q == 0) by lra.
  rewrite (round_value q Hnz). destruct (binade_spec q Hnz) as [Blo _].
  rewrite Qabs_pos in Blo by lra.
  assert (Hm1' : inject_Z m <= inject_Z (2 ^ 53)) by (rewrite <- Zle_Qle; exact Hm1).
  assert (Hb : (binade q <= 53 + e)%Z).
  { apply pow2_le_inv. rewrite pow2_add, (pow2_Z 53) by lia.
    apply Qle_trans with q; [exact Blo|]. subst q. nra. }
  set (b := binade q) in *. pose proof (pow2_pos (b - 52)) as Bpos.
  destruct (Z.eq_dec b (53 + e)%Z) as [Hb53|Hb53].
  - (* the significand is 2^53 *)
    assert (Hm : m = (2 ^ 53)%Z).
    { assert (H : inject_Z (2 ^ 53) <= inject_Z m).
      { rewrite Hb53, pow2_add, (pow2_Z 53) in Blo by lia. subst q.
        apply Qmult_le_r with (pow2 e); [exact Ppos|]. lra. }
      rewrite <- Zle_Qle in H. lia. }
    assert (Hs : q / pow2 (b - 52) == inject_Z (2 ^ 52)).
    { subst q. rewrite Hm, Hb53. replace (53 + e - 52)%Z with (e + 1)%Z by lia.
      rewrite pow2_succ. change (inject_Z (2 ^ 53)) with (2 * inject_Z (2 ^ 52)).
      field. lra. }
    rewrite (half_even_comp _ _ Hs), half_even_Z.
    subst q. rewrite Hm, Hb53. replace (53 + e - 52)%Z with (e + 1)%Z by lia.
    rewrite pow2_succ. change (inject_Z (2 ^ 53)) with (2 * inject_Z (2 ^ 52)). ring.
  - assert (Hk : (0 <= e - (b - 52))%Z) by lia.
    assert (Hp : pow2 e == pow2 (e - (b - 52)) * pow2 (b - 52)).
    { rewrite <- pow2_add. replace (e - (b - 52) + (b - 52))%Z with e by lia.
      reflexivity. }
    assert (Hs : q / pow2 (b - 52) == inject_Z (m * 2 ^ (e - (b - 52)))).
    { subst q. rewrite inject_Z_mult, <- pow2_Z by exact Hk. rewrite Hp.
      field. lra. }
    rewrite (half_even_comp _ _ Hs), half_even_Z.
    rewrite inject_Z_mult, <- pow2_Z by exact Hk. subst q. rewrite Hp. ring.
Qed.

(** The fractional part that [resample] takes of a computed position lies
    in the unit interval. *)
Lemma frac_unit y :
  0 <= round y ->
  0 <= sub (round y) (of_int (to_int (round y))) /\
  sub (round y) (of_int (to_int (round y))) <= 1.
Proof.
  intros Hsrc. set (src := round y) in *.
  destruct (to_int_nonneg src Hsrc) as (Hi0 & Hi1 & Hi2).
  destruct (Qlt_le_dec src (inject_Z (2 ^ 53))) as [Hsmall|Hbig].
  - assert (Hidx : (Z.abs (to_int src) < 2 ^ 53)%Z).
    { rewrite Z.abs_eq by exact Hi0. rewrite Zlt_Qlt. lra. }
    unfold sub. rewrite (of_int_exact _ Hidx). split.
    + apply round_nonneg. lra.
    + change 1 with (pow2 0). apply round_le_pow2; [lra|]. change (pow2 0) with 1. lra.
  - assert (Hy : ~ y == 0).
    { intros H. subst src. rewrite (round_zero y H) in Hbig.
      change (inject_Z (2 ^ 53)) with (9007199254740992 # 1) in Hbig. lra. }
    assert (Hypos : 0 < y).
    { apply Qnot_le_lt. intros H. pose proof (round_nonpos y H). fold src in H0.
      change (inject_Z (2 ^ 53)) with (9007199254740992 # 1) in Hbig. lra. }
    pose proof (round_value y Hy) as Hv. fold src in Hv.
    destruct (binade_spec y Hy) as [_ Bhi]. rewrite Qabs_pos in Bhi by lra.
    set (e := (binade y - 52)%Z) in *. pose proof (pow2_pos e) as Ppos.
    set (m := half_even (y / pow2 e)) in *.
    assert (Hm1 : (m <= 2 ^ 53)%Z).
    { apply half_even_le. rewrite <- (pow2_Z 53) by lia.
      apply Qle_shift_div_r; [exact Ppos|]. rewrite <- pow2_add.
      replace (53 + e)%Z with (binade y + 1)%Z by (subst e; lia). lra. }
    assert (Hm0 : (0 < m)%Z).
    { rewrite Zlt_Qlt. apply Qnot_le_lt. intros H. change (inject_Z 0) with 0 in H.
      assert (inject_Z m * pow2 e <= 0) by nra.
      change (inject_Z (2 ^ 53)) with (9007199254740992 # 1) in Hbig. lra. }
    assert (He : (0 <= e)%Z).
    { apply pow2_le_inv. change (pow2 0) with 1.
      assert (Hm1' : inject_Z m <= inject_Z (2 ^ 53)) by (rewrite <- Zle_Qle; exact Hm1).
      assert (Hm0' : 0 < inject_Z m)
        by (change 0 with (inject_Z 0); rewrite <- Zlt_Qlt; exact Hm0).
      apply Qnot_lt_le. intros Hlt.
      assert (inject_Z m * pow2 e < inject_Z m) by nra. lra. }
    assert (Hint : src == inject_Z (m * 2 ^ e)).
    { rewrite Hv, inject_Z_mult, <- pow2_Z by exact He. reflexivity. }
    assert (Hidx : to_int src = (m * 2 ^ e)%Z).
    { rewrite (to_int_floor src Hsrc), (Qfloor_comp _ _ Hint). apply Qfloor_Z. }
    assert (Hback : of_int (to_int src) == src).
    { rewrite Hidx. unfold of_int.
      rewrite (round_comp (inject_Z (m * 2 ^ e)) (inject_Z m * pow2 e))
        by (rewrite inject_Z_mult, <- pow2_Z by exact He; reflexivity).
      rewrite round_representable by lia. symmetry. exact Hv. }
    unfold sub. rewrite (round_zero (src - of_int (to_int src))) by (rewrite Hback; ring).
    split; [apply Qle_refl | discriminate].
Qed.

End FloatFacts.

(** ** The mixdown *)

Module MixdownFacts.
Import Py Float FloatFacts Rec.
Local Open Scope Z_scope.


Lemma in_int16_iff v : in_int16 v = true <-> in16 v.
Proof. unfold in_int16, in16, int16_min, int16_max. lia. Qed.

Lemma getitem_in {A} (l : list A) i :
  0 <= i < Z.of_nat (length l) -> exists x, getitem l i = Ok x /\ In x l.
Proof.
  intros [H0 H1]. unfold getitem.
  destruct (Z.ltb_spec i 0) as [?|_]; [lia|].
  destruct (Z.leb_spec 0 i) as [_|?]; [|lia].
  destruct (Z.ltb_spec i (Z.of_nat (length l))) as [_|?]; [|lia]. simpl.
  destruct (nth_error l (Z.to_nat i)) as [x|] eqn:E.
  - exists x. split; [reflexivity | eapply nth_error_In; exact E].
  - apply nth_error_None in E. lia.
Qed.

Lemma getitem_last {A} (l : list A) :
  l <> [] -> exists x, getitem l (-1) = Ok x /\ In x l.
Proof.
  intros Hl. unfold getitem. change (-1 <? 0) with true. cbv iota.
  assert (Hn : 0 < Z.of_nat (length l)) by (destruct l; [contradiction | simpl; lia]).
  destruct (Z.leb_spec 0 (-1 + Z.of_nat (length l))) as [_|?]; [|lia].
  destruct (Z.ltb_spec (-1 + Z.of_nat (length l)) (Z.of_nat (length l))) as [_|?]; [|lia].
  simpl. destruct (nth_error l (Z.to_nat (-1 + Z.of_nat (length l)))) as [x|] eqn:E.
  - exists x. split; [reflexivity | eapply nth_error_In; exact E].
  - apply nth_error_None in E. lia.
Qed.

Lemma collect_ok {A B} (f : A -> outcome B) (P : B -> Prop) xs :
  (forall x, In x xs -> exists y, f x = Ok y /\ P y) ->
  exists ys, collect f xs = Ok ys /\ length ys = length xs /\ Forall P ys.
Proof.
  induction xs as [|x xs IH]; intros H; simpl.
  - exists []. repeat split. constructor.
  - destruct (H x (or_introl eq_refl)) as (y & Hy & Py).
    destruct IH as (ys & Hys & Hlen & HP); [intros z Hz; apply H; right; exact Hz|].
    exists (y :: ys). rewrite Hy. simpl. rewrite Hys. simpl.
    repeat split; [rewrite Hlen; reflexivity | constructor; assumption].
Qed.

Lemma range_spec n i : In i (range n) -> 0 <= i < n.
Proof.
  unfold range. intros H. apply in_map_iff in H as (k & <- & Hk).
  apply in_seq in Hk. lia.
Qed.

Lemma range_length n : length (range n) = Z.to_nat n.
Proof. unfold range. rewrite length_map, length_seq. reflexivity. Qed.

(** One output sample: never an exception, and in range when the input is. *)
Lemma resample_at_ok samples ratio i :
  samples <> [] -> (0 < ratio)%Q -> 0 <= i ->
  exists y, resample_at samples ratio i = Ok y /\ (Forall in16 samples -> in16 y).
Proof.
  intros Hne Hr Hi. unfold resample_at, truediv.
  destruct (Qeq_bool ratio 0) eqn:E; [apply Qeq_bool_iff in E; lra|]. simpl and_then.
  set (src := round (of_int i / ratio)).
  assert (Hsrc : (0 <= src)%Q).
  { apply round_nonneg. apply Qle_shift_div_l; [exact Hr|].
    assert (0 <= of_int i)%Q
      by (apply round_nonneg; change 0%Q with (inject_Z 0); rewrite <- Zle_Qle; exact Hi).
    lra. }
  destruct (to_int_nonneg src Hsrc) as (Hidx0 & Hidx1 & Hidx2).
  set (idx := to_int src) in *.
  destruct (Z.geb_spec idx (len samples - 1)) as [Hge|Hlt].
  - destruct (getitem_last samples Hne) as (x & Hx & Hin). exists x.
    split; [exact Hx|]. intros Hall. rewrite List.Forall_forall in Hall. auto.
  - unfold len in Hlt.
    destruct (getitem_in samples idx) as (x0 & Hx0 & Hin0); [lia|].
    destruct (getitem_in samples (idx + 1)) as (x1 & Hx1 & Hin1); [lia|].
    rewrite Hx0, Hx1. simpl and_then. eexists. split; [reflexivity|].
    intros Hall. rewrite List.Forall_forall in Hall.
    destruct (frac_unit (of_int i / ratio) Hsrc) as [Hf0 Hf1].
    apply interpolate_in_range; [apply Hall, Hin0 | apply Hall, Hin1 | exact Hf0 | exact Hf1].
Qed.

Lemma mul_zero ratio : mul (of_int 0) ratio = 0%Q.
Proof.
  unfold mul. change (of_int 0) with 0%Q. apply round_zero. ring.
Qed.

Lemma resample_ok samples from_rate to_rate :
  0 < from_rate -> 0 < to_rate ->
  exists l, resample samples from_rate to_rate = Ok l /\
    (Forall in16 samples -> Forall in16 l).
Proof.
  intros Hf Ht. unfold resample.
  destruct (Z.eqb_spec from_rate to_rate) as [_|Hne].
  - exists samples. split; [reflexivity | auto].
  - unfold int_truediv. destruct (Z.eqb_spec from_rate 0) as [?|_]; [lia|].
    simpl and_then. set (ratio := round (inject_Z to_rate / inject_Z from_rate)).
    assert (Hr : (0 < ratio)%Q).
    { apply round_pos. apply Qlt_shift_div_l.
      - change 0%Q with (inject_Z 0). rewrite <- Zlt_Qlt. exact Hf.
      - rewrite Qmult_0_l. change 0%Q with (inject_Z 0). rewrite <- Zlt_Qlt. exact Ht. }
    set (n := to_int (mul (of_int (len samples)) ratio)).
    destruct (collect_ok (resample_at samples ratio)
                (fun y => Forall in16 samples -> in16 y)
                (range n)) as (ys & Hys & _ & HP).
    + intros i Hi. apply range_spec in Hi. apply resample_at_ok; [|exact Hr|lia].
      intros ->. subst n. unfold len in Hi. simpl in Hi.
      rewrite mul_zero in Hi. change (to_int 0) with 0 in Hi. lia.
    + exists ys. split; [exact Hys|]. intros Hall.
      eapply List.Forall_impl; [|exact HP]. intros y Hy. apply Hy; assumption.
Qed.

Lemma byte_to_Z_range b : 0 <= byte_to_Z b < 256.
Proof. unfold byte_to_Z. pose proof (Byte.to_N_bounded b). lia. Qed.

Lemma byte_roundtrip z : byte_to_Z (byte_of_Z z) = z mod 256.
Proof.
  unfold byte_to_Z, byte_of_Z.
  pose proof (Z.mod_pos_bound z 256 ltac:(lia)) as Hm.
  pose proof (Byte.to_of_N_option_map (Z.to_N (z mod 256))) as H.
  destruct (N.leb_spec (Z.to_N (z mod 256)) 255) as [_|Hgt]; [|lia].
  destruct (Byte.of_N (Z.to_N (z mod 256))) as [b|]; [|discriminate].
  simpl in H. injection H as ->. lia.
Qed.

Lemma decode_encode v : in16 v -> decode_h (byte_of_Z v) (byte_of_Z (v / 256)) = v.
Proof.
  unfold in16, decode_h. intros Hv. rewrite !byte_roundtrip.
  pose proof (Z.div_mod v 256 ltac:(lia)) as Hd.
  pose proof (Z.mod_pos_bound v 256 ltac:(lia)) as Hm.
  assert (Hq : -128 <= v / 256 <= 127) by lia.
  destruct (Z_lt_le_dec (v / 256) 0) as [Hneg|Hpos].
  - replace ((v / 256) mod 256) with (v / 256 + 256)
      by (apply Z.mod_unique with (-1); lia).
    destruct (Z.ltb_spec (v mod 256 + 256 * (v / 256 + 256)) 32768); lia.
  - rewrite (Z.mod_small (v / 256) 256) by lia.
    destruct (Z.ltb_spec (v mod 256 + 256 * (v / 256)) 32768); lia.
Qed.

Lemma unpack_pack xs : Forall in16 xs -> unpack_pairs (flat_map encode_h xs) = xs.
Proof.
  induction 1 as [|v xs Hv _ IH]; [reflexivity|].
  simpl. rewrite IH, (decode_encode v Hv). reflexivity.
Qed.

Lemma decode_h_in16 lo hi : in16 (decode_h lo hi).
Proof.
  unfold in16, decode_h. pose proof (byte_to_Z_range lo). pose proof (byte_to_Z_range hi).
  destruct (Z.ltb_spec (byte_to_Z lo + 256 * byte_to_Z hi) 32768); lia.
Qed.

Lemma unpack_in16 data : Forall in16 (unpack_pairs data).
Proof.
  assert (H : forall n data, (length data <= n)%nat -> Forall in16 (unpack_pairs data)).
  { induction n as [|n IH]; intros [|lo [|hi rest]] Hn; simpl in *;
      try constructor; try lia; [apply decode_h_in16 | apply IH; lia]. }
  apply (H (length data)). lia.
Qed.

Lemma clamp_in16 v : in16 (clamp v).
Proof. unfold in16, clamp. lia. Qed.

Lemma clamp_id v : in16 v -> clamp v = v.
Proof. unfold in16, clamp. lia. Qed.

Lemma average_in16 u a : in16 u -> in16 a -> in16 (average u a).
Proof.
  unfold in16, average. intros Hu Ha.
  pose proof (Z.div_mod (u + a) 2 ltac:(lia)) as Hd.
  pose proof (Z.mod_pos_bound (u + a) 2 ltac:(lia)) as Hm. lia.
Qed.

Lemma zip_mix_average us as_ :
  Forall in16 us -> Forall in16 as_ -> zip_mix us as_ = zip_average us as_.
Proof.
  intros Hu. revert as_. induction Hu as [|u us Hu _ IH]; intros as_ Ha; [reflexivity|].
  destruct Ha as [|a as_ Ha Has]; [reflexivity|]. simpl.
  unfold mix. fold (average u a). rewrite clamp_id by (apply average_in16; assumption).
  rewrite IH by exact Has. reflexivity.
Qed.

Lemma zip_mix_in16 us as_ : Forall in16 (zip_mix us as_).
Proof.
  revert as_. induction us as [|u us IH]; intros [|a as_]; simpl; constructor;
    [apply clamp_in16 | apply IH].
Qed.

Lemma zip_mix_length us as_ :
  length (zip_mix us as_) = Nat.min (length us) (length as_).
Proof.
  revert as_. induction us as [|u us IH]; intros [|a as_]; simpl; try reflexivity.
  rewrite IH. reflexivity.
Qed.

Lemma zip_mix_nth us as_ i :
  (i < length us)%nat -> (i < length as_)%nat ->
  nth i (zip_mix us as_) 0 = mix (nth i us 0) (nth i as_ 0).
Proof.
  revert as_ i. induction us as [|u us IH]; intros as_ i Hu Ha.
  - simpl in Hu. lia.
  - destruct as_ as [|a as_]; [simpl in Ha; lia|].
    destruct i as [|i]; simpl in *; [reflexivity | apply IH; lia].
Qed.

Lemma pad_length samples n :
  len samples <= n -> length (pad samples n) = Z.to_nat n.
Proof.
  unfold pad, len. intros H. rewrite length_app, repeat_length. lia.
Qed.

Lemma pad_nth samples n i : nth i (pad samples n) 0 = nth i samples 0.
Proof.
  unfold pad. destruct (Nat.lt_ge_cases i (length samples)) as [H|H].
  - apply app_nth1, H.
  - rewrite app_nth2 by exact H. rewrite (nth_overflow samples) by exact H.
    apply nth_repeat.
Qed.

Lemma pad_in16 samples n : Forall in16 samples -> Forall in16 (pad samples n).
Proof.
  intros H. unfold pad. apply Forall_app. split; [exact H|].
  apply Forall_forall. intros x Hx. apply list_elem_of_In, repeat_spec in Hx. subst.
  unfold in16. lia.
Qed.

Lemma pack_ok xs :
  Forall in16 xs -> struct_pack_h (len xs) xs = Ok (flat_map encode_h xs).
Proof.
  intros H. unfold struct_pack_h, len. rewrite Z.eqb_refl. simpl.
  assert (Hb : forallb in_int16 xs = true).
  { apply forallb_forall. intros x Hx. apply in_int16_iff.
    rewrite List.Forall_forall in H. auto. }
  rewrite Hb. reflexivity.
Qed.

(** What the mixdown computes, given the two resampled sequences. *)
Lemma mixdown_spec us ur as_ ar :
  0 < ur -> 0 < ar ->
  exists ru ra mixed,
    resample us ur (Z.max ur ar) = Ok ru /\
    resample as_ ar (Z.max ur ar) = Ok ra /\
    (Forall in16 us -> Forall in16 ru) /\
    (Forall in16 as_ -> Forall in16 ra) /\
    mixdown us ur as_ ar = Ok mixed /\
    mixed = zip_mix (pad ru (Z.max (len ru) (len ra))) (pad ra (Z.max (len ru) (len ra))) /\
    len mixed = Z.max (len ru) (len ra) /\
    Forall in16 mixed /\
    (forall i, (i < length mixed)%nat ->
       nth i mixed 0 = clamp ((nth i ru 0 + nth i ra 0) / 2)).
Proof.
  intros Hu Ha.
  destruct (resample_ok us ur (Z.max ur ar)) as (ru & Hru & Pu); [lia | lia |].
  destruct (resample_ok as_ ar (Z.max ur ar)) as (ra & Hra & Pa); [lia | lia |].
  exists ru, ra. eexists. split; [exact Hru|]. split; [exact Hra|].
  split; [exact Pu|]. split; [exact Pa|].
  unfold mixdown. rewrite Hru, Hra. simpl and_then.
  split; [reflexivity|]. split; [reflexivity|].
  set (n := Z.max (len ru) (len ra)).
  assert (Hlen : length (zip_mix (pad ru n) (pad ra n)) = Z.to_nat n).
  { rewrite zip_mix_length, !pad_length by (subst n; lia). lia. }
  split; [unfold len at 1; rewrite Hlen; subst n; unfold len; lia|].
  split; [apply zip_mix_in16|].
  intros i Hi. rewrite Hlen in Hi.
  rewrite zip_mix_nth, !pad_nth; [reflexivity | |];
    rewrite pad_length by (subst n; lia); exact Hi.
Qed.

Lemma whole_frames_even n data :
  1 <= n ->
  struct_unpack_h (len (whole_frames n 2 data) / 2) (whole_frames n 2 data) =
    Ok (unpack_pairs (whole_frames n 2 data)).
Proof.
  intros Hn. unfold struct_unpack_h, whole_frames, len.
  set (k := Z.of_nat (length data) / (n * 2)).
  assert (Hk : 0 <= k) by (apply Z.div_pos; lia).
  assert (Hle : k * (n * 2) <= Z.of_nat (length data)).
  { subst k. rewrite Z.mul_comm. apply Z.mul_div_le. lia. }
  rewrite length_firstn, Nat.min_l by lia.
  rewrite Z2Nat.id by nia.
  replace (k * (n * 2)) with (k * n * 2) by lia. rewrite Z.div_mul by lia.
  destruct (Z.eqb_spec (k * n * 2) (2 * (k * n))) as [_|?]; [reflexivity | lia].
Qed.

Lemma wave_read_16 path w n rate data :
  files w !! path = Some (WavFile n 2 rate data) -> 1 <= n ->
  wave_read path w = Ok (n, 2, rate, whole_frames n 2 data).
Proof.
  intros Hf Hn. unfold wave_read. rewrite Hf.
  destruct (Z.ltb_spec n 1) as [?|_]; [lia|]. reflexivity.
Qed.

(** C10: the clamp of the mix never changes a value: the floor of the mean
    of two 16-bit samples is a 16-bit sample, the interpolation of two
    16-bit samples at a fraction of the unit interval is a 16-bit sample,
    and so, for 16-bit inputs at positive rates, both resampled sequences
    are 16-bit, the mixdown is the plain floor of the mean at every
    position, and [struct.pack] accepts it. *)
Theorem clamp_is_redundant user_samples user_rate agent_samples agent_rate :
  Forall in16 user_samples -> Forall in16 agent_samples ->
  0 < user_rate -> 0 < agent_rate ->
  (forall u a, in16 u -> in16 a ->
     in16 ((u + a) / 2) /\ clamp ((u + a) / 2) = (u + a) / 2) /\
  (forall s0 s1 frac, in16 s0 -> in16 s1 -> (0 <= frac)%Q -> (frac <= 1)%Q ->
     in16 (interpolate s0 s1 frac)) /\
  exists ru ra mixed,
    resample user_samples user_rate (Z.max user_rate agent_rate) = Ok ru /\
    resample agent_samples agent_rate (Z.max user_rate agent_rate) = Ok ra /\
    Forall in16 ru /\ Forall in16 ra /\
    mixdown user_samples user_rate agent_samples agent_rate = Ok mixed /\
    mixed = zip_average (pad ru (Z.max (len ru) (len ra)))
                        (pad ra (Z.max (len ru) (len ra))) /\
    Forall in16 mixed /\
    struct_pack_h (len mixed) mixed = Ok (flat_map encode_h mixed).
Proof.
  intros Hus Has Hur Har. split; [|split].
  - intros u a Hu Ha. pose proof (average_in16 u a Hu Ha) as H. unfold average in H.
    split; [exact H | apply clamp_id, H].
  - intros s0 s1 frac H0 H1 Hf0 Hf1. apply interpolate_in_range; assumption.
  - destruct (mixdown_spec user_samples user_rate agent_samples agent_rate Hur Har)
      as (ru & ra & mixed & Hru & Hra & Pu & Pa & Hmix & Hdef & _ & Hin & _).
    exists ru, ra, mixed. repeat split; auto.
    + rewrite Hdef. apply zip_mix_average; apply pad_in16; auto.
    + apply pack_ok, Hin.
Qed.

Lemma clamp_is_redundant_witness :
  exists mixed,
    mixdown [0; 100; -200] 8000 [32767; -32768] 16000 = Ok mixed /\
    Forall in16 mixed /\
    struct_pack_h (len mixed) mixed = Ok (flat_map encode_h mixed).
Proof.
  destruct (clamp_is_redundant [0; 100; -200] 8000 [32767; -32768] 16000)
    as (_ & _ & ru & ra & mixed & _ & _ & _ & _ & Hmix & _ & Hin & Hpack).
  - repeat constructor; unfold in16; lia.
  - repeat constructor; unfold in16; lia.
  - lia.
  - lia.
  - exists mixed. repeat split; assumption.
Defined.

(** A readable 16-bit file decodes: the premise of C1 holds for it. *)
Lemma sixteen_bit_file_decodes path w n rate data :
  files w !! path = Some (WavFile n 2 rate data) -> 1 <= n ->
  exists frames,
    wave_read path w = Ok (n, 2, rate, frames) /\
    struct_unpack_h (len frames / 2) frames = Ok (unpack_pairs frames).
Proof.
  intros Hf Hn. exists (whole_frames n 2 data).
  split; [apply wave_read_16; assumption | apply whole_frames_even, Hn].
Qed.

End MixdownFacts.

(** ** The provisioning tool: commands and single operations *)

Module ProvisioningFacts.
Import Py PyNotations Sip SipFacts.

Lemma session_run {A} (body : nat -> M World A) w :
  (lk <- LiveKitAPI ;; body lk) w =
    body (fresh (trace w)) {| trace := trace w ++ [Opened (fresh (trace w))]; stdin := stdin w |}.
Proof. reflexivity. Qed.

Lemma call_run {A} lk req (answer : list Request -> outcome A) w :
  call lk req answer w =
    (answer (requests (trace w)), {| trace := trace w ++ [Called lk req]; stdin := stdin w |}).
Proof.
  unfold call, bind, get, emit, modify, ret, raise. simpl.
  destruct (answer (requests (trace w))); reflexivity.
Qed.

(** Two facts about the same run hold together. *)
Lemma shape_both {A} (m : M World A) (P Q : outcome A -> list Event -> Prop) :
  shape m P -> shape m Q -> shape m (fun o d => P o d /\ Q o d).
Proof.
  intros HP HQ w. destruct (HP w) as (o & d & i & Hr & Hp).
  destruct (HQ w) as (o' & d' & i' & Hr' & Hq).
  unfold runs in *. rewrite Hr in Hr'. injection Hr' as <- Hd <-.
  apply app_inv_head in Hd. subst d'.
  exists o, d, i. auto.
Qed.

Lemma shape_sends_bind rs1 rs2 {A B} (m : M World A) (k : A -> M World B) :
  shape m (sends rs1) -> (forall v, shape (k v) (sends rs2)) ->
  shape (x <- m ;; k x) (sends (rs1 ++ rs2)).
Proof.
  intros Hm Hk. eapply shape_bind; [exact Hm | |].
  - intros v d1 H1. eapply shape_weaken; [apply Hk|].
    intros o d2 H2 Hok. rewrite requests_app, (H1 eq_refl), (H2 Hok). reflexivity.
  - intros e d1 _ Hok. discriminate.
Qed.

Lemma shape_sends_then rs {A B} (m : M World A) (k : A -> M World B) :
  shape m (sends []) -> (forall v, shape (k v) (sends rs)) ->
  shape (x <- m ;; k x) (sends rs).
Proof. intros Hm Hk. apply (shape_sends_bind [] rs); assumption. Qed.

Lemma shape_sends_print line : shape (print line) (sends []).
Proof. apply shape_emit. intros _. reflexivity. Qed.

Lemma shape_sends_aclose lk : shape (aclose lk) (sends []).
Proof. apply shape_emit. intros _. reflexivity. Qed.

Lemma shape_sends_call {A} lk req (answer : list Request -> outcome A) :
  shape (call lk req answer) (sends [req]).
Proof.
  intros w. exists (answer (requests (trace w))), [Called lk req], (stdin w).
  split; [apply call_run | intros _; reflexivity].
Qed.

Lemma shape_sends_for_each {A} (xs : list A) (body : A -> M World unit) :
  (forall x, shape (body x) (sends [])) -> shape (for_each xs body) (sends []).
Proof.
  intros Hb. induction xs as [|x xs IH]; simpl.
  - apply shape_ret. intros _. reflexivity.
  - apply shape_sends_then; [apply Hb | intros _; exact IH].
Qed.

Lemma shape_sends_session rs {A} (body : nat -> M World A) :
  (forall lk, shape (body lk) (sends rs)) ->
  shape (lk <- LiveKitAPI ;; body lk) (sends rs).
Proof.
  intros Hb. apply shape_sends_then; [|exact Hb].
  intros w. exists (Ok (fresh (trace w))), [Opened (fresh (trace w))], (stdin w).
  split; [reflexivity | intros _; reflexivity].
Qed.

Ltac sends_nothing :=
  repeat first
    [ apply shape_sends_print
    | apply shape_sends_aclose
    | apply shape_sends_for_each; intros ?
    | apply shape_sends_then; [|intros ?] ].

Section Runs.

Variable cp : ControlPlane.
Variable show_strings : list string -> string.
Variable show_rule : SIPDispatchRule -> string.

Lemma list_sip_trunks_sends :
  shape (list_sip_trunks cp show_strings)
        (sends [ListSIPInboundTrunkRequest; ListSIPOutboundTrunkRequest]).
Proof.
  unfold list_sip_trunks. apply shape_sends_session. intros lk.
  apply shape_sends_then; [apply shape_sends_print | intros _].
  apply (shape_sends_bind [ListSIPInboundTrunkRequest] [ListSIPOutboundTrunkRequest]);
    [apply shape_sends_call | intros ins].
  apply shape_sends_then; [sends_nothing | intros _].
  apply shape_sends_then; [apply shape_sends_print | intros _].
  apply (shape_sends_bind [ListSIPOutboundTrunkRequest] []);
    [apply shape_sends_call | intros outs].
  sends_nothing.
Qed.

Lemma list_dispatch_rules_sends :
  shape (list_dispatch_rules cp show_strings show_rule) (sends [ListSIPDispatchRuleRequest]).
Proof.
  unfold list_dispatch_rules. apply shape_sends_session. intros lk.
  apply shape_sends_then; [apply shape_sends_print | intros _].
  apply (shape_sends_bind [ListSIPDispatchRuleRequest] []);
    [apply shape_sends_call | intros rules].
  sends_nothing.
Qed.

Lemma main_list_shape prog rest :
  shape (main cp show_strings show_rule (prog :: "list" :: rest))
    (fun o d => tidy is_list o d /\
                sends [ListSIPInboundTrunkRequest; ListSIPOutboundTrunkRequest;
                       ListSIPDispatchRuleRequest] o d).
Proof.
  unfold main. cbn [String.eqb Ascii.eqb Bool.eqb]. cbv iota.
  apply shape_both.
  - apply shape_tidy_bind; [apply list_sip_trunks_shape; reflexivity | intros _].
    apply list_dispatch_rules_shape; reflexivity.
  - apply (shape_sends_bind [ListSIPInboundTrunkRequest; ListSIPOutboundTrunkRequest]
             [ListSIPDispatchRuleRequest]);
      [apply list_sip_trunks_sends | intros _; apply list_dispatch_rules_sends].
Qed.

End Runs.

(** X1: the [list] command sends nothing but listing requests, whatever
    the control plane answers and whatever follows on the command line;
    when it ends without an exception it has sent exactly the inbound, the
    outbound and the dispatch-rule listing, in this order, and has closed
    every client it opened. *)
Theorem list_command_only_lists cp show_strings show_rule prog rest w :
  exists o d i,
    main cp show_strings show_rule (prog :: "list" :: rest) w =
      (o, {| trace := trace w ++ d; stdin := i |}) /\
    Forall (fun r => r = ListSIPInboundTrunkRequest \/ r = ListSIPOutboundTrunkRequest \/
                     r = ListSIPDispatchRuleRequest) (requests d) /\
    (is_ok o = true ->
     requests d = [ListSIPInboundTrunkRequest; ListSIPOutboundTrunkRequest;
                   ListSIPDispatchRuleRequest] /\
     opened d = closed d).
Proof.
  destruct (main_list_shape cp show_strings show_rule prog rest w)
    as (o & d & i & Hr & [Hbal Hreq] & Hsends).
  exists o, d, i. split; [exact Hr|]. split.
  - rewrite forallb_forall in Hreq. apply List.Forall_forall. intros r Hin.
    specialize (Hreq r Hin). destruct r; simpl in Hreq; auto; discriminate.
  - intros Hok. split; [apply Hsends, Hok | apply Hbal, Hok].
Qed.


(** *** Exact runs of the single operations *)

Section Single.

Variable cp : ControlPlane.

Lemma create_inbound_trunk_run name numbers allowed_addresses w :
  let c := fresh (trace w) in
  let request := {| in_sip_trunk_id := EmptyString; in_name := name; in_numbers := numbers;
                    in_allowed_addresses := list_or_empty allowed_addresses |} in
  create_inbound_trunk cp name numbers allowed_addresses w =
    match create_sip_inbound_trunk cp (requests (trace w)) request with
    | Ok t =>
        (Ok t, {| trace := trace w ++
                     [Opened c; Called c (CreateSIPInboundTrunkRequest request);
                      Printed ("Created inbound trunk: " +:+ in_sip_trunk_id t); Closed c];
                  stdin := stdin w |})
    | Raise e =>
        (Raise e, {| trace := trace w ++
                        [Opened c; Called c (CreateSIPInboundTrunkRequest request)];
                     stdin := stdin w |})
    end.
Proof.
  intros c request. unfold create_inbound_trunk. rewrite session_run. fold c request.
  unfold bind at 1. rewrite call_run. cbn [trace stdin].
  rewrite requests_snoc_quiet by discriminate.
  destruct (create_sip_inbound_trunk cp (requests (trace w)) request) as [t|e].
  - unfold print, aclose, emit, bind, modify, ret. cbn [trace stdin].
    rewrite <- !app_assoc. reflexivity.
  - rewrite <- !app_assoc. reflexivity.
Qed.

Lemma create_outbound_trunk_run name address numbers auth_username auth_password w :
  let c := fresh (trace w) in
  let request := {| out_sip_trunk_id := EmptyString; out_name := name;
                    out_address := address; out_numbers := numbers;
                    out_auth_username := str_or auth_username EmptyString;
                    out_auth_password := str_or auth_password EmptyString |} in
  create_outbound_trunk cp name address numbers auth_username auth_password w =
    match create_sip_outbound_trunk cp (requests (trace w)) request with
    | Ok t =>
        (Ok t, {| trace := trace w ++
                     [Opened c; Called c (CreateSIPOutboundTrunkRequest request);
                      Printed ("Created outbound trunk: " +:+ out_sip_trunk_id t); Closed c];
                  stdin := stdin w |})
    | Raise e =>
        (Raise e, {| trace := trace w ++
                        [Opened c; Called c (CreateSIPOutboundTrunkRequest request)];
                     stdin := stdin w |})
    end.
Proof.
  intros c request. unfold create_outbound_trunk. rewrite session_run. fold c request.
  unfold bind at 1. rewrite call_run. cbn [trace stdin].
  rewrite requests_snoc_quiet by discriminate.
  destruct (create_sip_outbound_trunk cp (requests (trace w)) request) as [t|e].
  - unfold print, aclose, emit, bind, modify, ret. cbn [trace stdin].
    rewrite <- !app_assoc. reflexivity.
  - rewrite <- !app_assoc. reflexivity.
Qed.

Lemma create_dispatch_rule_run name room_prefix trunk_ids w :
  let c := fresh (trace w) in
  let request := CreateSIPDispatchRuleRequest name (list_or_empty trunk_ids)
                   (dispatch_rule_individual room_prefix) in
  create_dispatch_rule cp name room_prefix trunk_ids w =
    match create_sip_dispatch_rule cp (requests (trace w)) name (list_or_empty trunk_ids)
            (dispatch_rule_individual room_prefix) with
    | Ok r =>
        (Ok r, {| trace := trace w ++
                     [Opened c; Called c request;
                      Printed ("Created dispatch rule: " +:+ sip_dispatch_rule_id r);
                      Closed c];
                  stdin := stdin w |})
    | Raise e =>
        (Raise e, {| trace := trace w ++ [Opened c; Called c request]; stdin := stdin w |})
    end.
Proof.
  intros c request. unfold create_dispatch_rule. rewrite session_run. fold c.
  cbv zeta. unfold bind at 1. rewrite call_run. cbn [trace stdin]. fold request.
  rewrite requests_snoc_quiet by discriminate.
  destruct (create_sip_dispatch_rule cp (requests (trace w)) name _ _) as [r|e].
  - unfold print, aclose, emit, bind, modify, ret. cbn [trace stdin].
    rewrite <- !app_assoc. reflexivity.
  - rewrite <- !app_assoc. reflexivity.
Qed.

Lemma delete_inbound_trunk_run trunk_id w :
  let c := fresh (trace w) in
  delete_inbound_trunk cp trunk_id w =
    match delete_sip_trunk cp (requests (trace w)) trunk_id with
    | Ok _ =>
        (Ok tt, {| trace := trace w ++
                      [Opened c; Called c (DeleteSIPTrunkRequest trunk_id);
                       Printed ("Deleted trunk: " +:+ trunk_id); Closed c];
                   stdin := stdin w |})
    | Raise e =>
        (Raise e, {| trace := trace w ++ [Opened c; Called c (DeleteSIPTrunkRequest trunk_id)];
                     stdin := stdin w |})
    end.
Proof.
  intros c. unfold delete_inbound_trunk. rewrite session_run. fold c.
  unfold bind at 1. rewrite call_run. cbn [trace stdin].
  rewrite requests_snoc_quiet by discriminate.
  destruct (delete_sip_trunk cp (requests (trace w)) trunk_id) as [[]|e].
  - unfold print, aclose, emit, bind, modify, ret. cbn [trace stdin].
    rewrite <- !app_assoc. reflexivity.
  - rewrite <- !app_assoc. reflexivity.
Qed.

Lemma delete_dispatch_rule_run rule_id w :
  let c := fresh (trace w) in
  delete_dispatch_rule cp rule_id w =
    match delete_sip_dispatch_rule cp (requests (trace w)) rule_id with
    | Ok _ =>
        (Ok tt, {| trace := trace w ++
                      [Opened c; Called c (DeleteSIPDispatchRuleRequest rule_id);
                       Printed ("Deleted dispatch rule: " +:+ rule_id); Closed c];
                   stdin := stdin w |})
    | Raise e =>
        (Raise e, {| trace := trace w ++
                        [Opened c; Called c (DeleteSIPDispatchRuleRequest rule_id)];
                     stdin := stdin w |})
    end.
Proof.
  intros c. unfold delete_dispatch_rule. rewrite session_run. fold c.
  unfold bind at 1. rewrite call_run. cbn [trace stdin].
  rewrite requests_snoc_quiet by discriminate.
  destruct (delete_sip_dispatch_rule cp (requests (trace w)) rule_id) as [[]|e].
  - unfold print, aclose, emit, bind, modify, ret. cbn [trace stdin].
    rewrite <- !app_assoc. reflexivity.
  - rewrite <- !app_assoc. reflexivity.
Qed.

End Single.

Lemma fresh_above tr c : In c (opened tr ++ closed tr) -> (c < fresh tr)%nat.
Proof.
  intros H. unfold fresh.
  pose proof (proj1 (list_max_le (opened tr ++ closed tr) _) (Nat.le_refl _)) as Hall.
  rewrite List.Forall_forall in Hall. specialize (Hall c H). lia.
Qed.


(** X2: each operation on one resource (the two trunk creations, the
    rule creation, the two deletions) opens one client and sends one
    request, built from its arguments with an absent list as the empty list
    and an absent credential as the empty string.  When the call returns it
    closes the client and prints one line; when the call raises it prints
    nothing and leaves the client open. *)
Theorem single_operation_sends_one_request cp show_strings show_rule op req w :
  single_request op = Some req ->
  let c := fresh (trace w) in
  exists o d,
    run cp show_strings show_rule op w = (o, {| trace := trace w ++ d; stdin := stdin w |}) /\
    requests d = [req] /\
    opened d = [c] /\
    closed d = (if is_ok o then [c] else []) /\
    length (printed d) = (if is_ok o then 1%nat else 0%nat).
Proof.
  intros Hreq c. destruct op; try discriminate; injection Hreq as <-; cbn [run].
  - unfold bind. rewrite create_inbound_trunk_run.
    destruct (create_sip_inbound_trunk cp _ _) as [t|e]; eexists _, _;
      (split; [reflexivity|]); repeat split; reflexivity.
  - unfold bind. rewrite create_outbound_trunk_run.
    destruct (create_sip_outbound_trunk cp _ _) as [t|e]; eexists _, _;
      (split; [reflexivity|]); repeat split; reflexivity.
  - unfold bind. rewrite create_dispatch_rule_run.
    destruct (create_sip_dispatch_rule cp _ _ _ _) as [t|e]; eexists _, _;
      (split; [reflexivity|]); repeat split; reflexivity.
  - rewrite delete_inbound_trunk_run.
    destruct (delete_sip_trunk cp _ _) as [t|e]; eexists _, _;
      (split; [reflexivity|]); repeat split; reflexivity.
  - rewrite delete_dispatch_rule_run.
    destruct (delete_sip_dispatch_rule cp _ _) as [t|e]; eexists _, _;
      (split; [reflexivity|]); repeat split; reflexivity.
Qed.

Lemma single_operation_sends_one_request_witness :
  exists o d,
    run unreachable show_plain show_rule_plain (OpDeleteTrunk "ST_1") start =
      (o, {| trace := trace start ++ d; stdin := stdin start |}) /\
    requests d = [DeleteSIPTrunkRequest "ST_1"] /\
    opened d = [fresh (trace start)] /\
    closed d = (if is_ok o then [fresh (trace start)] else []) /\
    length (printed d) = (if is_ok o then 1%nat else 0%nat).
Proof.
  exact (single_operation_sends_one_request unreachable show_plain show_rule_plain
           (OpDeleteTrunk "ST_1") _ start eq_refl).
Defined.

(** X3: when the inbound trunk is created and the creation of the
    outbound trunk raises, [setup_twilio_trunk] ends with that exception:
    the inbound trunk stays (no request undoes it), no dispatch rule is
    requested, the summary is not printed, and the second client is left
    open. *)
Theorem setup_stops_at_first_failure cp phone domain user pass w tin e :
  let h := requests (trace w) in
  let r1 := CreateSIPInboundTrunkRequest (inbound_request phone) in
  let r2 := CreateSIPOutboundTrunkRequest (outbound_request phone domain user pass) in
  create_sip_inbound_trunk cp h (inbound_request phone) = Ok tin ->
  create_sip_outbound_trunk cp (h ++ [r1]) (outbound_request phone domain user pass)
    = Raise e ->
  exists d c1 c2,
    setup_twilio_trunk cp phone domain user pass w =
      (Raise e, {| trace := trace w ++ d; stdin := stdin w |}) /\
    requests d = [r1; r2] /\
    printed d = [ "Setting up Twilio SIP Trunk...";
                  "Created inbound trunk: " +:+ in_sip_trunk_id tin ] /\
    opened d = [c1; c2] /\ closed d = [c1] /\ c1 <> c2.
Proof.
  intros h r1 r2 H1 H2. unfold setup_twilio_trunk.
  unfold bind at 1. unfold print at 1, emit, modify.
  unfold bind at 1. rewrite create_inbound_trunk_run. cbn [trace stdin list_or_empty].
  rewrite requests_snoc_quiet by discriminate.
  fold h. fold (inbound_request phone). rewrite H1.
  unfold bind at 1. rewrite create_outbound_trunk_run. cbn [trace stdin].
  fold (outbound_request phone domain user pass).
  rewrite <- !app_assoc. cbn [app].
  replace (requests (trace w ++ _)) with (h ++ [r1]).
  2:{ rewrite requests_app. reflexivity. }
  rewrite H2.
  eexists _, _, _. split; [reflexivity|].
  repeat split.
  match goal with |- ?a <> fresh ?tr => assert (Hlt : (a < fresh tr)%nat) end.
  { apply fresh_above. rewrite opened_app. cbn [opened app].
    apply in_or_app. left. apply in_or_app. right. left. reflexivity. }
  lia.
Qed.

Lemma setup_stops_at_first_failure_witness :
  exists d c1 c2,
    setup_twilio_trunk outbound_down "+15550100" "sip.example.com" None None start =
      (Raise (RemoteError "service unavailable"),
       {| trace := trace start ++ d; stdin := stdin start |}) /\
    requests d = [ CreateSIPInboundTrunkRequest (inbound_request "+15550100");
                   CreateSIPOutboundTrunkRequest
                     (outbound_request "+15550100" "sip.example.com" None None) ] /\
    printed d = [ "Setting up Twilio SIP Trunk..."; "Created inbound trunk: ST_in" ] /\
    opened d = [c1; c2] /\ closed d = [c1] /\ c1 <> c2.
Proof.
  exact (setup_stops_at_first_failure outbound_down "+15550100" "sip.example.com" None None
           start _ _ eq_refl eq_refl).
Defined.

Lemma str_or_or_none s : str_or (or_none s) EmptyString = s.
Proof. destruct s; reflexivity. Qed.

Lemma input_run prompt tr line rest :
  input prompt {| trace := tr; stdin := line :: rest |} =
    (Ok line, {| trace := tr ++ [Prompted prompt]; stdin := rest |}).
Proof. reflexivity. Qed.

Lemma input_eof prompt tr :
  input prompt {| trace := tr; stdin := [] |} =
    (Raise EOFError, {| trace := tr ++ [Prompted prompt]; stdin := [] |}).
Proof. reflexivity. Qed.

(** X4: the [setup] command reads four lines from the operator and
    its first two requests carry them: the phone number in both trunks, the
    domain as the address of the outbound trunk, and the user name and
    password as typed, an empty line reaching the request as the empty
    string. *)
Theorem setup_command_sends_what_was_typed cp show_strings show_rule prog rest
    tr phone domain username password more tin :
  let w := {| trace := tr; stdin := phone :: domain :: username :: password :: more |} in
  let r1 := CreateSIPInboundTrunkRequest (inbound_request phone) in
  let r2 := CreateSIPOutboundTrunkRequest
              {| out_sip_trunk_id := EmptyString; out_name := "Twilio Outbound";
                 out_address := domain; out_numbers := [phone];
                 out_auth_username := username; out_auth_password := password |} in
  create_sip_inbound_trunk cp (requests tr) (inbound_request phone) = Ok tin ->
  exists o d later,
    main cp show_strings show_rule (prog :: "setup" :: rest) w =
      (o, {| trace := tr ++ d; stdin := more |}) /\
    requests d = r1 :: r2 :: later.
Proof.
  intros w r1 r2 H1. subst w. unfold main.
  cbn [String.eqb Ascii.eqb Bool.eqb]. cbv iota.
  unfold bind at 1. unfold print at 1, emit, modify. cbn [trace stdin].
  unfold bind at 1. rewrite input_run.
  unfold bind at 1. rewrite input_run.
  unfold bind at 1. rewrite input_run.
  unfold bind at 1. rewrite input_run.
  unfold bind at 1. unfold setup_twilio_trunk.
  unfold bind at 1. unfold print at 1, emit, modify. cbn [trace stdin].
  unfold bind at 1. rewrite create_inbound_trunk_run. cbn [trace stdin list_or_empty].
  fold (inbound_request phone).
  repeat (rewrite ?requests_snoc_called; rewrite ?requests_snoc_quiet by discriminate).
  rewrite H1.
  unfold bind at 1. rewrite create_outbound_trunk_run. cbn [trace stdin].
  rewrite !str_or_or_none. fold r1 r2.
  set (tr2 := (_ ++ [Opened _; Called _ r1; _; _])).
  destruct (create_sip_outbound_trunk cp (requests tr2) _) as [tout|e].
  - unfold bind at 1. rewrite create_dispatch_rule_run. cbn [trace stdin list_or_empty].
    set (tr3 := (tr2 ++ _)).
    destruct (create_sip_dispatch_rule cp (requests tr3) _ _ _) as [rl|e].
    + unfold print, emit, modify, bind, ret. cbn [trace stdin].
      eexists _, _, _. split.
      * subst tr3 tr2. rewrite <- !app_assoc. reflexivity.
      * rewrite !requests_app. cbn [requests app]. reflexivity.
    + eexists _, _, _. split.
      * subst tr3 tr2. rewrite <- !app_assoc. reflexivity.
      * rewrite !requests_app. cbn [requests app]. reflexivity.
  - eexists _, _, _. split.
    + subst tr2. rewrite <- !app_assoc. reflexivity.
    + rewrite !requests_app. cbn [requests app]. reflexivity.
Qed.

Lemma setup_command_sends_what_was_typed_witness :
  exists o d later,
    main obliging show_plain show_rule_plain ["sip_manager.py"; "setup"]
      {| trace := []; stdin := ["+15550100"; "sip.example.com"; EmptyString; EmptyString] |} =
      (o, {| trace := [] ++ d; stdin := [] |}) /\
    requests d =
      CreateSIPInboundTrunkRequest (inbound_request "+15550100") ::
      CreateSIPOutboundTrunkRequest
        {| out_sip_trunk_id := EmptyString; out_name := "Twilio Outbound";
           out_address := "sip.example.com"; out_numbers := ["+15550100"];
           out_auth_username := EmptyString; out_auth_password := EmptyString |} :: later.
Proof.
  exact (setup_command_sends_what_was_typed obliging show_plain show_rule_plain
           "sip_manager.py" [] [] "+15550100" "sip.example.com" EmptyString EmptyString []
           _ eq_refl).
Defined.

(** X5: when the input ends before the fourth answer, the
    [setup] command ends with [EOFError] and has opened no client and sent
    no request. *)
Theorem setup_command_asks_before_it_contacts cp show_strings show_rule prog rest tr lines :
  (length lines < 4)%nat ->
  exists d,
    main cp show_strings show_rule (prog :: "setup" :: rest) {| trace := tr; stdin := lines |} =
      (Raise EOFError, {| trace := tr ++ d; stdin := [] |}) /\
    silent d.
Proof.
  intros Hlen. unfold main. cbn [String.eqb Ascii.eqb Bool.eqb]. cbv iota.
  unfold bind at 1. unfold print at 1, emit, modify. cbn [trace stdin].
  destruct lines as [|l1 [|l2 [|l3 [|l4 more]]]]; [| | | |simpl in Hlen; lia];
    repeat (unfold bind at 1; rewrite ?input_run);
    rewrite input_eof;
    (eexists; split; [rewrite <- !app_assoc; reflexivity | repeat split]).
Qed.

Lemma setup_command_asks_before_it_contacts_witness :
  exists d,
    main unreachable show_plain show_rule_plain ["sip_manager.py"; "setup"]
      {| trace := []; stdin := ["+15550100"; "sip.example.com"] |} =
      (Raise EOFError, {| trace := [] ++ d; stdin := [] |}) /\
    silent d.
Proof.
  apply (setup_command_asks_before_it_contacts unreachable show_plain show_rule_plain
           "sip_manager.py" [] [] ["+15550100"; "sip.example.com"]).
  simpl. lia.
Defined.

(** X6: without a command [main] prints the usage and exits with
    status 0; with a command other than [list], [setup] and [delete-all] it
    prints that the command is unknown and returns.  Neither opens a client
    or reads a line. *)
Theorem main_needs_a_known_command cp show_strings show_rule w :
  (forall argv, (length argv < 2)%nat ->
     main cp show_strings show_rule argv w =
       (Raise (SystemExit 0), {| trace := trace w ++ [Printed usage]; stdin := stdin w |})) /\
  (forall prog command rest, known_command command = false ->
     main cp show_strings show_rule (prog :: command :: rest) w =
       (Ok tt, {| trace := trace w ++ [Printed ("Unknown command: " +:+ command)];
                  stdin := stdin w |})).
Proof.
  split.
  - intros [|a [|b argv]] Hlen; try reflexivity. simpl in Hlen. lia.
  - intros prog command rest Hk. unfold known_command in Hk.
    apply orb_false_iff in Hk as [Hk Hd]. apply orb_false_iff in Hk as [Hl Hs].
    unfold main. rewrite Hl, Hs, Hd. reflexivity.
Qed.

Lemma main_needs_a_known_command_witness :
  main unreachable show_plain show_rule_plain ["sip_manager.py"] start =
    (Raise (SystemExit 0), {| trace := [Printed usage]; stdin := [] |}) /\
  main unreachable show_plain show_rule_plain ["sip_manager.py"; "delete"] start =
    (Ok tt, {| trace := [Printed "Unknown command: delete"]; stdin := [] |}).
Proof.
  split.
  - apply (proj1 (main_needs_a_known_command unreachable show_plain show_rule_plain start)).
    simpl. lia.
  - exact (proj2 (main_needs_a_known_command unreachable show_plain show_rule_plain start)
             "sip_manager.py" "delete" [] eq_refl).
Defined.

End ProvisioningFacts.

(** ** The recorders: edge cases and invariants *)

Module RecordingFacts.
Import Py Rec FloatFacts TeardownFacts.
Local Open Scope Z_scope.

(** *** The transcript file *)

Lemma conversation_save_run self w :
  ConversationRecorder.save self w =
    let w2 := snd (now (snd (now w))) in
    match fs_error w (cr_filepath self) with
    | Some msg => (Raise (OSError msg), w2)
    | None =>
        (Ok tt,
         print ("Conversation recording saved: " +:+ cr_filepath self +:+ " (" +:+
                str_of_int (len (cr_transcript self)) +:+ " messages)")
           (store (cr_filepath self)
              (JsonFile (ConversationRecorder.recording_data self w)) w2))
    end.
Proof.
  unfold ConversationRecorder.save, ConversationRecorder.recording_data, now.
  cbn [fst snd reads clock fs_error].
  unfold Float.int_truediv. change (1000000 =? 0) with false. cbv iota.
  destruct (fs_error w (cr_filepath self)); reflexivity.
Qed.

Lemma conversation_stop_written self w :
  fs_error w (cr_filepath self) = None ->
  files (snd (ConversationRecorder.stop self w)) =
    match cr_transcript self with
    | [] => files w
    | _ :: _ =>
        <[cr_filepath self := JsonFile (ConversationRecorder.recording_data self w)]> (files w)
    end.
Proof.
  intros Hfs. unfold ConversationRecorder.stop.
  destruct (cr_transcript self) as [|m ms] eqn:E; [reflexivity|].
  rewrite conversation_save_run. cbn [cr_filepath emit fs_error]. rewrite Hfs.
  cbn [snd print emit store now files]. unfold ConversationRecorder.recording_data.
  cbn [cr_start_time cr_transcript clock reads]. rewrite E. reflexivity.
Qed.

(** X7: [ConversationRecorder.stop] on a writable path switches
    recording off and keeps the transcript.  With an empty transcript it
    writes no file and prints that nothing was recorded; otherwise it writes
    one JSON document with the start time, the end time, the duration
    rounded to a float and the messages in order, and prints the number of
    messages. *)
Theorem stop_saves_the_transcript self w :
  fs_error w (cr_filepath self) = None ->
  let path := cr_filepath self in
  let r := ConversationRecorder.stop self w in
  cr_is_recording (fst r) = false /\
  cr_transcript (fst r) = cr_transcript self /\
  files (snd r) =
    match cr_transcript self with
    | [] => files w
    | _ :: _ =>
        <[path := JsonFile
             {| start_time := cr_start_time self;
                end_time := clock w (reads w);
                duration_seconds :=
                  Float.round (inject_Z (clock w (S (reads w)) - cr_start_time self) /
                               inject_Z 1000000);
                messages := cr_transcript self |}]> (files w)
    end /\
  trace (snd r) =
    trace w ++ Stopped path ::
    match cr_transcript self with
    | [] => [Printed "No conversation recorded"]
    | _ :: _ =>
        [ Wrote path;
          Printed ("Conversation recording saved: " +:+ path +:+ " (" +:+
                   str_of_int (len (cr_transcript self)) +:+ " messages)") ]
    end.
Proof.
  intros Hfs path r. subst r.
  split; [|split; [|split; [exact (conversation_stop_written self w Hfs)|]]];
    unfold ConversationRecorder.stop;
    destruct (cr_transcript self) as [|m ms] eqn:E;
    rewrite ?conversation_save_run; cbn [cr_filepath emit fs_error]; rewrite ?Hfs;
    cbn [fst snd cr_is_recording cr_transcript print emit store now trace];
    rewrite ?E, <- ?app_assoc; reflexivity.
Qed.

Lemma stop_saves_the_transcript_witness :
  let rw := ConversationRecorder.steps
              [ConversationRecorder.CallStart;
               ConversationRecorder.CallAddUser "hello" (Some "en")]
              (ConversationRecorder.init "recordings/transcript.json" blank_world) in
  files (snd (ConversationRecorder.stop (fst rw) (snd rw))) =
    <["recordings/transcript.json" :=
        JsonFile {| start_time := 1000000; end_time := 3000000;
                    duration_seconds := Float.round (inject_Z 3000000 / inject_Z 1000000);
                    messages := [UserMessage "hello" 2000000 (Some "en")] |}]> ∅.
Proof.
  exact (proj1 (proj2 (proj2
    (stop_saves_the_transcript
       (fst (ConversationRecorder.steps
               [ConversationRecorder.CallStart;
                ConversationRecorder.CallAddUser "hello" (Some "en")]
               (ConversationRecorder.init "recordings/transcript.json" blank_world)))
       (snd (ConversationRecorder.steps
               [ConversationRecorder.CallStart;
                ConversationRecorder.CallAddUser "hello" (Some "en")]
               (ConversationRecorder.init "recordings/transcript.json" blank_world)))
       eq_refl)))).
Defined.

(** *** Chronology *)

Lemma sorted_snoc (l : list Z) t :
  StronglySorted Z.le l -> Forall (fun x => x <= t) l -> StronglySorted Z.le (l ++ [t]).
Proof.
  induction 1 as [|x l Hs IH Hx]; intros Hall; simpl.
  - repeat constructor.
  - apply Forall_cons in Hall as [Hxt Hall]. constructor; [apply IH, Hall|].
    apply Forall_app. split; [exact Hx | repeat constructor; exact Hxt].
Qed.

Lemma timely_later c r w w' :
  ConversationRecorder.monotone c ->
  ConversationRecorder.timely c (r, w) -> clock w' = c -> (reads w <= reads w')%nat -> ConversationRecorder.timely c (r, w').
Proof.
  intros Hm (Hc & Hs & Hb) Hc' Hr. split; [exact Hc'|]. split; [exact Hs|].
  cbn [fst snd] in *. eapply List.Forall_impl; [|exact Hb].
  intros t Ht. cbv beta in Ht. specialize (Hm _ _ Hr). lia.
Qed.

Lemma timely_append c r w (m : Message) :
  ConversationRecorder.monotone c ->
  ConversationRecorder.timely c (r, w) -> ConversationRecorder.message_timestamp m = c (reads w) ->
  ConversationRecorder.timely c (ConversationRecorder.append r m, snd (now w)).
Proof.
  intros Hm (Hc & Hs & Hb) Ht. cbn [fst snd] in *.
  unfold ConversationRecorder.timely, ConversationRecorder.instants, ConversationRecorder.append in *.
  cbn [fst snd now cr_start_time cr_transcript clock reads].
  split; [exact Hc|]. rewrite map_app. cbn [map]. rewrite Ht.
  change (cr_start_time r :: map ConversationRecorder.message_timestamp (cr_transcript r) ++
          [c (reads w)])
    with ((cr_start_time r :: map ConversationRecorder.message_timestamp (cr_transcript r)) ++
          [c (reads w)]).
  assert (Hstep : c (reads w) <= c (S (reads w))) by (apply Hm; lia).
  split; [apply sorted_snoc; assumption|].
  apply Forall_app. split.
  - eapply List.Forall_impl; [|exact Hb]. intros t H. cbv beta in H. lia.
  - repeat constructor. exact Hstep.
Qed.

Lemma conversation_stop_world r w :
  clock (snd (ConversationRecorder.stop r w)) = clock w /\
  (reads w <= reads (snd (ConversationRecorder.stop r w)))%nat /\
  cr_start_time (fst (ConversationRecorder.stop r w)) = cr_start_time r /\
  cr_transcript (fst (ConversationRecorder.stop r w)) = cr_transcript r.
Proof.
  unfold ConversationRecorder.stop. destruct (cr_transcript r) as [|m ms] eqn:E.
  - cbn [fst snd print emit clock reads cr_start_time cr_transcript]. rewrite ?E. auto.
  - rewrite conversation_save_run. cbn [cr_filepath emit fs_error].
    destruct (fs_error w (cr_filepath r));
      cbn [fst snd print emit store now clock reads cr_start_time cr_transcript];
      rewrite ?E; repeat split; lia.
Qed.

Lemma step_timely c call rw :
  ConversationRecorder.monotone c -> ConversationRecorder.timely c rw ->
  ConversationRecorder.timely c (ConversationRecorder.step call rw).
Proof.
  intros Hm Hrw. destruct rw as [r w]. pose proof Hrw as (Hc & Hs & Hb).
  cbn [fst snd] in Hc, Hs, Hb.
  destruct call; cbn [ConversationRecorder.step fst snd].
  - unfold ConversationRecorder.start, now, ConversationRecorder.timely, ConversationRecorder.instants.
    cbn [fst snd print emit clock reads cr_start_time cr_transcript map].
    rewrite Hc. split; [reflexivity|]. split; [repeat constructor|].
    repeat constructor. apply Hm. lia.
  - unfold ConversationRecorder.add_user_message.
    destruct (ConversationRecorder.accepts r text); [|exact Hrw].
    change (let (t, w1) := now w in
            (ConversationRecorder.append r (UserMessage text t language), w1))
      with (ConversationRecorder.append r (UserMessage text (clock w (reads w)) language),
            snd (now w)).
    apply timely_append; [exact Hm | exact Hrw |]. cbn. rewrite Hc. reflexivity.
  - unfold ConversationRecorder.add_agent_message.
    destruct (ConversationRecorder.accepts r text); [|exact Hrw].
    change (let (t, w1) := now w in (ConversationRecorder.append r (AgentMessage text t), w1))
      with (ConversationRecorder.append r (AgentMessage text (clock w (reads w))),
            snd (now w)).
    apply timely_append; [exact Hm | exact Hrw |]. cbn. rewrite Hc. reflexivity.
  - destruct (conversation_stop_world r w) as (Kc & Kr & Kt & Km).
    destruct (ConversationRecorder.stop r w) as [r' w'] eqn:E. cbn [fst snd] in *.
    assert (Hsame : ConversationRecorder.instants r' = ConversationRecorder.instants r)
      by (unfold ConversationRecorder.instants; rewrite Kt, Km; reflexivity).
    unfold ConversationRecorder.timely. cbn [fst snd]. rewrite Hsame, Kc.
    split; [exact Hc|]. split; [exact Hs|].
    eapply List.Forall_impl; [|exact Hb]. intros t Ht. cbv beta in Ht.
    specialize (Hm _ _ Kr). lia.
Qed.

Lemma steps_timely c cs rw :
  ConversationRecorder.monotone c -> ConversationRecorder.timely c rw ->
  ConversationRecorder.timely c (ConversationRecorder.steps cs rw).
Proof.
  intros Hm. revert rw. induction cs as [|call cs IH]; intros rw H; [exact H|].
  cbn [ConversationRecorder.steps fold_left]. apply IH, step_timely; assumption.
Qed.

Lemma init_timely filepath w :
  ConversationRecorder.monotone (clock w) ->
  ConversationRecorder.timely (clock w) (ConversationRecorder.init filepath w).
Proof.
  intros Hm. unfold ConversationRecorder.init, now, ConversationRecorder.timely, ConversationRecorder.instants.
  cbn [fst snd clock reads cr_start_time cr_transcript map].
  split; [reflexivity|]. split; [repeat constructor|].
  repeat constructor. apply Hm. lia.
Qed.

(** X8: under a clock that never goes back, after any sequence of
    calls on a new recorder, the document that [stop] builds is in
    chronological order (the start, then the messages in order, then the
    end) and its duration is not negative. *)
Theorem transcript_is_chronological filepath w cs :
  ConversationRecorder.monotone (clock w) ->
  let rw := ConversationRecorder.steps cs (ConversationRecorder.init filepath w) in
  let doc := ConversationRecorder.recording_data (fst rw) (snd rw) in
  StronglySorted Z.le
    (start_time doc :: map ConversationRecorder.message_timestamp (messages doc) ++
     [end_time doc]) /\
  (0 <= duration_seconds doc)%Q.
Proof.
  intros Hm rw doc.
  destruct (steps_timely (clock w) cs _ Hm (init_timely filepath w Hm)) as (Hc & Hs & Hb).
  fold rw in Hc, Hs, Hb. subst doc. unfold ConversationRecorder.recording_data.
  cbn [start_time messages end_time duration_seconds].
  unfold ConversationRecorder.instants in *. rewrite Hc. split.
  - change (cr_start_time (fst rw) ::
            map ConversationRecorder.message_timestamp (cr_transcript (fst rw)) ++
            [clock w (reads (snd rw))])
      with ((cr_start_time (fst rw) ::
             map ConversationRecorder.message_timestamp (cr_transcript (fst rw))) ++
            [clock w (reads (snd rw))]).
    apply sorted_snoc; assumption.
  - apply round_nonneg. apply Forall_cons in Hb as [Hstart _].
    assert (Hnext : clock w (reads (snd rw)) <= clock w (S (reads (snd rw))))
      by (apply Hm; lia).
    apply Qle_shift_div_l; [reflexivity|]. rewrite Qmult_0_l.
    change 0%Q with (inject_Z 0). rewrite <- Zle_Qle. lia.
Qed.

Lemma transcript_is_chronological_witness :
  let rw := ConversationRecorder.steps
              [ConversationRecorder.CallStart;
               ConversationRecorder.CallAddUser "hello" (Some "en");
               ConversationRecorder.CallAddAgent "hi there"]
              (ConversationRecorder.init "recordings/transcript.json" blank_world) in
  let doc := ConversationRecorder.recording_data (fst rw) (snd rw) in
  StronglySorted Z.le
    (start_time doc :: map ConversationRecorder.message_timestamp (messages doc) ++
     [end_time doc]) /\
  (0 <= duration_seconds doc)%Q.
Proof.
  apply (transcript_is_chronological "recordings/transcript.json" blank_world).
  intros i j Hij. simpl. lia.
Defined.


(** *** Files that cannot be written *)

Lemma wave_write_refused path n sw r data w msg :
  fs_error w path = Some msg -> wave_write path n sw r data w = (Raise (OSError msg), w).
Proof. intros H. unfold wave_write. rewrite H. reflexivity. Qed.

(** X9: when the file cannot be written, [stop] of each of the three
    recorders raises nothing: it switches recording off, leaves the files as
    they were and prints one error line. *)
Theorem refused_file_is_reported_not_raised msg :
  (forall self w,
     la_frames self <> [] -> fs_error w (la_filepath self) = Some msg ->
     let r := LocalAudioRecorder.stop self w in
     la_is_recording (fst r) = false /\ files (snd r) = files w /\
     trace (snd r) = trace w ++
       [Stopped (la_filepath self);
        PrintedError "Error saving audio recording: " (OSError msg)]) /\
  (forall self w,
     ar_frames self <> [] -> fs_error w (ar_filepath self) = Some msg ->
     let r := AudioRecorder.stop self w in
     ar_is_recording (fst r) = false /\ files (snd r) = files w /\
     trace (snd r) = trace w ++
       [Stopped (ar_filepath self);
        PrintedError "Error saving audio recording: " (OSError msg)]) /\
  (forall self w,
     cr_transcript self <> [] -> fs_error w (cr_filepath self) = Some msg ->
     let r := ConversationRecorder.stop self w in
     cr_is_recording (fst r) = false /\ files (snd r) = files w /\
     trace (snd r) = trace w ++
       [Stopped (cr_filepath self);
        PrintedError "Error saving conversation recording: " (OSError msg)]).
Proof.
  split; [|split]; intros self w Hne Hfs r; subst r.
  - unfold LocalAudioRecorder.stop. destruct (la_frames self) as [|b bs]; [contradiction|].
    unfold LocalAudioRecorder.save. cbn [la_filepath].
    rewrite (wave_write_refused _ _ _ _ _ _ msg) by exact Hfs.
    cbn [fst snd emit files trace la_is_recording]. rewrite <- app_assoc. auto.
  - unfold AudioRecorder.stop. destruct (ar_frames self) as [|b bs]; [contradiction|].
    unfold AudioRecorder.save. cbn [ar_filepath].
    rewrite (wave_write_refused _ _ _ _ _ _ msg) by exact Hfs.
    cbn [fst snd emit files trace ar_is_recording]. rewrite <- app_assoc. auto.
  - unfold ConversationRecorder.stop. destruct (cr_transcript self) as [|m ms]; [contradiction|].
    rewrite conversation_save_run. cbn [cr_filepath emit fs_error]. rewrite Hfs.
    cbn [fst snd emit now files trace cr_is_recording]. rewrite <- app_assoc. auto.
Qed.

Lemma refused_file_is_reported_not_raised_witness :
  let self := LocalAudioRecorder.add_frame
                (fst (LocalAudioRecorder.start
                        (LocalAudioRecorder.init "recordings/audio.wav" 48000 1) read_only))
                (Some one_frame) in
  let r := LocalAudioRecorder.stop self read_only in
  la_is_recording (fst r) = false /\ files (snd r) = files read_only /\
  trace (snd r) = trace read_only ++
    [Stopped "recordings/audio.wav";
     PrintedError "Error saving audio recording: " (OSError "Read-only file system")].
Proof.
  apply (proj1 (refused_file_is_reported_not_raised "Read-only file system")).
  - discriminate.
  - reflexivity.
Defined.

(** *** Frames outside a recording *)

Lemma local_add_frames_idle self frames :
  la_is_recording self = false -> LocalAudioRecorder.add_frames self frames = self.
Proof.
  intros H. unfold LocalAudioRecorder.add_frames.
  induction frames as [|f frames IH]; [reflexivity|].
  cbn [fold_left]. unfold LocalAudioRecorder.add_frame at 2. rewrite H. exact IH.
Qed.

Lemma audio_add_frames_idle self frames w :
  ar_is_recording self = false -> AudioRecorder.add_frames self frames w = (self, w).
Proof.
  intros H. unfold AudioRecorder.add_frames.
  induction frames as [|f frames IH]; [reflexivity|].
  cbn [fold_left fst snd]. unfold AudioRecorder.add_frame at 2. rewrite H. exact IH.
Qed.

Lemma local_stop_idle self w : la_is_recording (fst (LocalAudioRecorder.stop self w)) = false.
Proof.
  unfold LocalAudioRecorder.stop. destruct (la_frames self); [reflexivity|].
  destruct (LocalAudioRecorder.save _ _) as [[|] ?]; reflexivity.
Qed.

Lemma audio_stop_idle self w : ar_is_recording (fst (AudioRecorder.stop self w)) = false.
Proof.
  unfold AudioRecorder.stop. destruct (ar_frames self); [reflexivity|].
  destruct (AudioRecorder.save _ _ _) as [[|] ?]; reflexivity.
Qed.

(** X10: frames given to an audio recorder that was never started, or
    that has been stopped, are dropped, in both variants; so is an absent
    frame at any time. *)
Theorem frames_outside_a_recording_are_dropped frames :
  (forall filepath sample_rate num_channels,
     let new := LocalAudioRecorder.init filepath sample_rate num_channels in
     LocalAudioRecorder.add_frames new frames = new) /\
  (forall self w,
     let stopped := fst (LocalAudioRecorder.stop self w) in
     LocalAudioRecorder.add_frames stopped frames = stopped) /\
  (forall filepath num_channels w,
     let new := AudioRecorder.init filepath num_channels in
     AudioRecorder.add_frames new frames w = (new, w)) /\
  (forall self w w',
     let stopped := fst (AudioRecorder.stop self w) in
     AudioRecorder.add_frames stopped frames w' = (stopped, w')) /\
  (forall self, LocalAudioRecorder.add_frame self None = self) /\
  (forall self w, AudioRecorder.add_frame self None w = (self, w)).
Proof.
  repeat split; intros.
  - apply local_add_frames_idle. reflexivity.
  - apply local_add_frames_idle, local_stop_idle.
  - apply audio_add_frames_idle. reflexivity.
  - apply audio_add_frames_idle, audio_stop_idle.
Qed.

(** *** A new start *)

(** X11: [LocalAudioRecorder.start] empties the buffer: whatever the
    recorder held before, the file saved by the next [stop] holds the frames
    that arrived after the start and no other. *)
Theorem start_discards_earlier_frames self f fs w :
  fs_error w (la_filepath self) = None ->
  1 <= la_num_channels self -> 0 < la_sample_rate self ->
  let started := LocalAudioRecorder.start self w in
  let r := LocalAudioRecorder.stop
             (LocalAudioRecorder.add_frames (fst started) (f :: fs)) (snd started) in
  la_frames (fst started) = [] /\
  files (snd r) =
    <[la_filepath self :=
        WavFile (la_num_channels self) 2 (la_sample_rate self)
          (concat (map frame_data (f :: fs)))]> (files w).
Proof.
  intros Hfs Hch Hrate started r. split; [reflexivity|]. subst r started.
  unfold LocalAudioRecorder.start. cbn [fst snd].
  rewrite RecorderFacts.add_frames_recording by reflexivity.
  cbn [la_filepath la_sample_rate la_num_channels la_frames app map].
  rewrite (RecorderFacts.stop_saves _ _ (frame_data f) (map frame_data fs));
    cbn [la_filepath la_sample_rate la_num_channels la_frames print emit fs_error];
    [ | reflexivity | exact Hfs | exact Hch | exact Hrate ].
  reflexivity.
Qed.

Lemma start_discards_earlier_frames_witness :
  let old := LocalAudioRecorder.add_frames
               (fst (LocalAudioRecorder.start
                       (LocalAudioRecorder.init "recordings/audio.wav" 48000 1) blank_world))
               [one_frame; one_frame; one_frame] in
  let started := LocalAudioRecorder.start old blank_world in
  let r := LocalAudioRecorder.stop
             (LocalAudioRecorder.add_frames (fst started) [one_frame]) (snd started) in
  la_frames (fst started) = [] /\
  files (snd r) =
    <["recordings/audio.wav" := WavFile 1 2 48000 [Byte.x01; Byte.x00; Byte.xff; Byte.x7f]]> ∅.
Proof.
  exact (start_discards_earlier_frames
           (LocalAudioRecorder.add_frames
              (fst (LocalAudioRecorder.start
                      (LocalAudioRecorder.init "recordings/audio.wav" 48000 1) blank_world))
              [one_frame; one_frame; one_frame])
           one_frame [] blank_world eq_refl ltac:(cbv; discriminate) ltac:(reflexivity)).
Defined.


(** *** The recorder of variant B *)

Lemma audio_add_frames_recording self frames w rate :
  ar_is_recording self = true -> ar_sample_rate self = Some rate ->
  AudioRecorder.add_frames self frames w =
    ({| ar_filepath := ar_filepath self; ar_num_channels := ar_num_channels self;
        ar_frames := ar_frames self ++ map frame_data frames;
        ar_sample_rate := Some rate; ar_is_recording := true |}, w).
Proof.
  unfold AudioRecorder.add_frames. revert self.
  induction frames as [|f frames IH]; intros self Hrec Hrate; cbn [fold_left map fst snd].
  - rewrite app_nil_r. destruct self; simpl in *. subst. reflexivity.
  - unfold AudioRecorder.add_frame at 2. rewrite Hrec, Hrate.
    rewrite IH by reflexivity. cbn [ar_filepath ar_num_channels ar_frames].
    rewrite <- app_assoc. reflexivity.
Qed.

Lemma audio_stop_saves self w b bs rate :
  ar_frames self = b :: bs -> ar_sample_rate self = Some rate ->
  fs_error w (ar_filepath self) = None ->
  1 <= ar_num_channels self -> 0 < rate ->
  let data := concat (ar_frames self) in
  let duration :=
    Float.round (inject_Z (len data) / inject_Z (rate * ar_num_channels self * 2)) in
  snd (AudioRecorder.stop self w) =
    print ("Audio saved: " +:+ ar_filepath self +:+ " (" +:+
           Float.format_1f duration +:+ "s, " +:+ str_of_int rate +:+ "Hz, " +:+
           str_of_int (len (ar_frames self)) +:+ " frames)")
      (store (ar_filepath self) (WavFile (ar_num_channels self) 2 rate data)
         (emit (Stopped (ar_filepath self)) w)).
Proof.
  intros Hfr Hsr Hfs Hch Hrate data duration.
  unfold AudioRecorder.stop, AudioRecorder.save, wave_write. rewrite Hfr, Hsr.
  cbn [ar_filepath ar_num_channels ar_frames emit fs_error].
  rewrite Hfs.
  destruct (Z.ltb_spec (ar_num_channels self) 1) as [?|_]; [lia|].
  change ((2 <? 1) || (4 <? 2)) with false. cbv iota.
  destruct (Z.leb_spec rate 0) as [?|_]; [lia|].
  unfold Float.int_truediv.
  destruct (Z.eqb_spec (rate * ar_num_channels self * 2) 0) as [E|_]; [nia|].
  subst data duration. rewrite Hfr. reflexivity.
Qed.

Lemma audio_session_unfold filepath frames w :
  let r0 := {| ar_filepath := filepath; ar_num_channels := 1; ar_frames := [];
               ar_sample_rate := None; ar_is_recording := true |} in
  let w1 := print ("Audio recording started: " +:+ filepath) w in
  AudioRecorder.session filepath frames w =
    AudioRecorder.stop (fst (AudioRecorder.add_frames r0 frames w1))
      (snd (AudioRecorder.add_frames r0 frames w1)).
Proof.
  intros r0 w1. unfold AudioRecorder.session, AudioRecorder.start, AudioRecorder.init,
    AudioRecorder.default_num_channels. cbn [ar_filepath ar_num_channels].
  fold r0 w1. destruct (AudioRecorder.add_frames r0 frames w1). reflexivity.
Qed.

Lemma audio_add_frames_first filepath n f fs w :
  let r0 := {| ar_filepath := filepath; ar_num_channels := n; ar_frames := [];
               ar_sample_rate := None; ar_is_recording := true |} in
  AudioRecorder.add_frames r0 (f :: fs) w =
    ({| ar_filepath := filepath; ar_num_channels := n;
        ar_frames := map frame_data (f :: fs);
        ar_sample_rate := Some (frame_sample_rate f); ar_is_recording := true |},
     print ("  Detected sample rate: " +:+ str_of_int (frame_sample_rate f) +:+
            " Hz for " +:+ filepath) w).
Proof.
  intros r0. unfold AudioRecorder.add_frames. cbn [fold_left fst snd].
  change (fold_left _ fs ?x) with (AudioRecorder.add_frames (fst x) fs (snd x)).
  unfold AudioRecorder.add_frame, r0.
  cbn [ar_is_recording ar_sample_rate ar_filepath ar_num_channels ar_frames app fst snd].
  rewrite (audio_add_frames_recording _ _ _ (frame_sample_rate f)) by reflexivity.
  reflexivity.
Qed.

(** X12: a session of the recorder of variant B (start, frames,
    stop) saves one mono 16-bit file at the sample rate of the FIRST frame,
    whatever rates the later frames announce, and prints the rate once; a
    session without frames writes no file. *)
Theorem audio_recorder_keeps_the_first_rate filepath f fs w :
  fs_error w filepath = None ->
  0 < frame_sample_rate f ->
  let frames := f :: fs in
  let rate := frame_sample_rate f in
  let data := concat (map frame_data frames) in
  let duration := Float.round (inject_Z (len data) / inject_Z (rate * 1 * 2)) in
  files (snd (AudioRecorder.session filepath frames w)) =
    <[filepath := WavFile 1 2 rate data]> (files w) /\
  trace (snd (AudioRecorder.session filepath frames w)) =
    trace w ++
    [ Printed ("Audio recording started: " +:+ filepath);
      Printed ("  Detected sample rate: " +:+ str_of_int rate +:+ " Hz for " +:+ filepath);
      Stopped filepath;
      Wrote filepath;
      Printed ("Audio saved: " +:+ filepath +:+ " (" +:+ Float.format_1f duration +:+
               "s, " +:+ str_of_int rate +:+ "Hz, " +:+ str_of_int (len frames) +:+
               " frames)") ] /\
  files (snd (AudioRecorder.session filepath [] w)) = files w /\
  trace (snd (AudioRecorder.session filepath [] w)) =
    trace w ++
    [ Printed ("Audio recording started: " +:+ filepath);
      Stopped filepath;
      Printed ("No audio frames recorded for " +:+ filepath) ].
Proof.
  intros Hfs Hrate frames rate data duration.
  rewrite !audio_session_unfold. cbv zeta. subst frames.
  rewrite audio_add_frames_first. cbn [fst snd].
  rewrite (audio_stop_saves _ _ (frame_data f) (map frame_data fs) rate);
    cbn [ar_filepath ar_num_channels ar_frames ar_sample_rate print emit store
         fs_error files trace];
    [ | reflexivity | reflexivity | exact Hfs | lia | exact Hrate ].
  repeat split.
  - rewrite <- !app_assoc. subst duration data. unfold len.
    cbn [length map concat app]. rewrite length_map. reflexivity.
  - unfold AudioRecorder.add_frames. cbn [fold_left fst snd].
    unfold AudioRecorder.stop. cbn [ar_frames ar_filepath snd print emit trace].
    rewrite <- !app_assoc. reflexivity.
Qed.

Lemma audio_recorder_keeps_the_first_rate_witness :
  files (snd (AudioRecorder.session "recordings/user_audio_1.wav"
                [one_frame;
                 {| frame_data := [Byte.x02; Byte.x00]; frame_sample_rate := 16000;
                    frame_num_channels := 1 |}] blank_world)) =
    <["recordings/user_audio_1.wav" :=
        WavFile 1 2 48000 [Byte.x01; Byte.x00; Byte.xff; Byte.x7f; Byte.x02; Byte.x00]]> ∅.
Proof.
  exact (proj1 (audio_recorder_keeps_the_first_rate "recordings/user_audio_1.wav" one_frame
                  [{| frame_data := [Byte.x02; Byte.x00]; frame_sample_rate := 16000;
                      frame_num_channels := 1 |}] blank_world eq_refl eq_refl)).
Defined.

Lemma audio_step_rated c rw : AudioRecorder.rated (fst rw) -> AudioRecorder.rated (fst (AudioRecorder.step c rw)).
Proof.
  destruct rw as [r w]. cbn [fst]. intros H.
  destruct c as [|[f|]|]; cbn [AudioRecorder.step fst snd].
  - left. reflexivity.
  - unfold AudioRecorder.add_frame. destruct (ar_is_recording r); [|exact H].
    destruct (ar_sample_rate r) as [rate|]; cbn [fst]; right; eexists; reflexivity.
  - exact H.
  - unfold AudioRecorder.stop. destruct (ar_frames r) eqn:E; cbn [fst].
    + left. reflexivity.
    + destruct (AudioRecorder.save _ _ _) as [[|] ?]; cbn [fst]; right; eexists; reflexivity.
Qed.

(** X13: after any sequence of calls on a new recorder of variant B, a
    buffer that holds a frame has a known sample rate: the 48000 Hz default
    of [stop] is never used. *)
Theorem fallback_rate_is_never_needed filepath num_channels w cs :
  let r := fst (AudioRecorder.steps cs (AudioRecorder.init filepath num_channels, w)) in
  ar_frames r = [] \/ exists rate, ar_sample_rate r = Some rate.
Proof.
  cbv zeta. unfold AudioRecorder.steps.
  assert (H : forall rw, AudioRecorder.rated (fst rw) ->
                AudioRecorder.rated (fst (fold_left (fun acc c => AudioRecorder.step c acc) cs rw))).
  { induction cs as [|c cs IH]; intros rw Hrw; [exact Hrw|].
    cbn [fold_left]. apply IH, audio_step_rated, Hrw. }
  apply H. left. reflexivity.
Qed.

End RecordingFacts.

(** ** The mixdown: symmetry and what it touches *)

Module CombineFacts.
Import Py Float FloatFacts Rec MixdownFacts.
Local Open Scope Z_scope.

(** The run of [combine_try] when every step succeeds. *)
Lemma combine_try_ok up ap out w nu su ur uf us na sa ar af as_ mixed :
  wave_read up w = Ok (nu, su, ur, uf) ->
  wave_read ap w = Ok (na, sa, ar, af) ->
  struct_unpack_h (len uf / 2) uf = Ok us ->
  struct_unpack_h (len af / 2) af = Ok as_ ->
  mixdown us ur as_ ar = Ok mixed ->
  Forall in16 mixed ->
  0 < Z.max ur ar ->
  fs_error w out = None ->
  combine_try up ap out w =
    (Ok tt,
     print ("Combined audio saved: " +:+ out +:+ " (" +:+
            Float.format_1f (Float.round (inject_Z (len mixed) / inject_Z (Z.max ur ar))) +:+
            "s, " +:+ str_of_int (Z.max ur ar) +:+ "Hz)")
       (store out (WavFile 1 2 (Z.max ur ar) (flat_map encode_h mixed)) w)).
Proof.
  intros Hu Ha Hdu Hda Hmix Hin Ht Hout.
  unfold combine_try. rewrite Hu, Ha, Hdu, Hda. cbn [and_then].
  rewrite Hmix. cbn [and_then]. rewrite (pack_ok mixed Hin). cbn [and_then].
  unfold wave_write. rewrite Hout.
  change (1 <? 1) with false. change ((2 <? 1) || (4 <? 2)) with false. cbv iota.
  destruct (Z.leb_spec (Z.max ur ar) 0) as [?|_]; [lia|].
  unfold Float.int_truediv.
  destruct (Z.eqb_spec (Z.max ur ar) 0) as [?|_]; [lia|]. reflexivity.
Qed.

(** *** The two inputs play the same part *)

Lemma zip_mix_comm us as_ : zip_mix us as_ = zip_mix as_ us.
Proof.
  revert as_. induction us as [|u us IH]; intros [|a as_]; try reflexivity.
  simpl. unfold mix. rewrite (Z.add_comm u a), IH. reflexivity.
Qed.

Lemma mixdown_comm us ur as_ ar :
  0 < ur -> 0 < ar -> mixdown us ur as_ ar = mixdown as_ ar us ur.
Proof.
  intros Hu Ha.
  destruct (resample_ok us ur (Z.max ur ar)) as (ru & Hru & _); [lia | lia |].
  destruct (resample_ok as_ ar (Z.max ur ar)) as (ra & Hra & _); [lia | lia |].
  unfold mixdown. rewrite (Z.max_comm ar ur), Hru, Hra. cbn [and_then].
  rewrite (Z.max_comm (len ra) (len ru)), zip_mix_comm. reflexivity.
Qed.

(** A buffer that does not decode has an odd length, and the error names
    the even length below it. *)
Lemma struct_unpack_raises data e :
  struct_unpack_h (len data / 2) data = Raise e ->
  Z.even (len data) = false /\
  e = StructError ("unpack requires a buffer of " +:+ str_of_int (2 * (len data / 2)) +:+
                   " bytes").
Proof.
  unfold struct_unpack_h. fold (len data).
  destruct (Z.eqb_spec (len data) (2 * (len data / 2))) as [|Hne]; [discriminate|].
  intros H. injection H as <-. split; [|reflexivity].
  destruct (Z.even (len data)) eqn:E; [|reflexivity].
  apply Z.even_spec in E as [k Hk]. exfalso. apply Hne. rewrite Hk at 2.
  rewrite (Z.mul_comm 2 k), Z.div_mul by lia. lia.
Qed.

Lemma struct_unpack_odd data :
  Z.even (len data) = false ->
  struct_unpack_h (len data / 2) data =
    Raise (StructError ("unpack requires a buffer of " +:+ str_of_int (2 * (len data / 2)) +:+
                        " bytes")).
Proof.
  intros Hodd. unfold struct_unpack_h. fold (len data).
  destruct (Z.eqb_spec (len data) (2 * (len data / 2))) as [E|_]; [|reflexivity].
  rewrite E, Z.even_mul in Hodd. discriminate.
Qed.

(** X14: for two readable recordings, [combine_audio_files] succeeds or
    fails and leaves the same files whichever of the two is given as the
    user's and which as the agent's.  The printed line is the same too,
    and so is the whole world, when at least one of the two decodes or
    both have the same size; when neither decodes the error printed names
    the size of the one given first. *)
Theorem combine_is_symmetric user_audio_path agent_audio_path output_path w
    nu su ur uf na sa ar af :
  wave_read user_audio_path w = Ok (nu, su, ur, uf) ->
  wave_read agent_audio_path w = Ok (na, sa, ar, af) ->
  0 < ur -> 0 < ar ->
  let r := combine_audio_files user_audio_path agent_audio_path output_path w in
  let r' := combine_audio_files agent_audio_path user_audio_path output_path w in
  fst r = fst r' /\ files (snd r) = files (snd r') /\
  (Z.even (len uf) = true \/ Z.even (len af) = true \/ len uf = len af -> r = r') /\
  (Z.even (len uf) = false -> Z.even (len af) = false ->
   r = (false,
        emit (PrintedError "Error combining audio files: "
                (StructError ("unpack requires a buffer of " +:+
                              str_of_int (2 * (len uf / 2)) +:+ " bytes"))) w)).
Proof.
  intros Hu Ha Hur Har r r'.
  assert (Hfirst : Z.even (len uf) = false -> Z.even (len af) = false ->
            r = (false,
                 emit (PrintedError "Error combining audio files: "
                         (StructError ("unpack requires a buffer of " +:+
                                       str_of_int (2 * (len uf / 2)) +:+ " bytes"))) w)).
  { intros Ou Oa. subst r. unfold combine_audio_files, combine_try. rewrite Hu, Ha.
    rewrite (struct_unpack_odd uf Ou). reflexivity. }
  assert (H : (Z.even (len uf) = true \/ Z.even (len af) = true \/ len uf = len af ->
               r = r') /\
              (r = r' \/ exists eu ea,
                 r = (false, emit (PrintedError "Error combining audio files: " eu) w) /\
                 r' = (false, emit (PrintedError "Error combining audio files: " ea) w))).
  { subst r r'. unfold combine_audio_files, combine_try. rewrite Hu, Ha.
    rewrite (Z.max_comm ar ur).
    destruct (struct_unpack_h (len uf / 2) uf) as [us|eu] eqn:Eu;
      destruct (struct_unpack_h (len af / 2) af) as [as_|ea] eqn:Ea; cbn [and_then].
    - rewrite (mixdown_comm as_ ar us ur Har Hur). split; [reflexivity | left; reflexivity].
    - split; [reflexivity | left; reflexivity].
    - split; [reflexivity | left; reflexivity].
    - destruct (struct_unpack_raises _ _ Eu) as [Ou ->].
      destruct (struct_unpack_raises _ _ Ea) as [Oa ->].
      split.
      + intros [E|[E|E]]; [congruence | congruence | rewrite E; reflexivity].
      + right. eexists _, _. split; reflexivity. }
  destruct H as [Hsame [Heq|(eu & ea & -> & ->)]].
  - split; [|split; [|split]];
      [rewrite Heq; reflexivity | rewrite Heq; reflexivity | exact Hsame | exact Hfirst].
  - split; [|split; [|split]]; [reflexivity | reflexivity | exact Hsame | exact Hfirst].
Qed.

Lemma combine_is_symmetric_witness :
  combine_audio_files "recordings/user_audio_1.wav" "recordings/agent_audio_1.wav"
    "recordings/call_recording_1.wav" two_recordings =
  combine_audio_files "recordings/agent_audio_1.wav" "recordings/user_audio_1.wav"
    "recordings/call_recording_1.wav" two_recordings.
Proof.
  apply (combine_is_symmetric "recordings/user_audio_1.wav" "recordings/agent_audio_1.wav"
           "recordings/call_recording_1.wav" two_recordings
           1 2 8000 [Byte.x00; Byte.x00; Byte.x64; Byte.x00; Byte.x38; Byte.xff]
           1 2 16000 [Byte.xff; Byte.x7f; Byte.x00; Byte.x80]);
    [reflexivity | reflexivity | lia | lia | left; reflexivity].
Defined.


(** *** Bytes to samples and back *)

Lemma byte_of_to b : byte_of_Z (byte_to_Z b) = b.
Proof.
  unfold byte_of_Z, byte_to_Z. pose proof (Byte.to_N_bounded b) as Hb.
  rewrite Z.mod_small by lia. rewrite N2Z.id, Byte.of_to_N. reflexivity.
Qed.

Lemma byte_of_Z_back z b : z mod 256 = byte_to_Z b -> byte_of_Z z = b.
Proof.
  intros H. rewrite <- (byte_of_to b). unfold byte_of_Z at 1 2. rewrite H.
  pose proof (byte_to_Z_range b). rewrite (Z.mod_small (byte_to_Z b)) by lia. reflexivity.
Qed.

Lemma encode_decode lo hi : encode_h (decode_h lo hi) = [lo; hi].
Proof.
  unfold encode_h, decode_h.
  pose proof (byte_to_Z_range lo) as Hlo. pose proof (byte_to_Z_range hi) as Hhi.
  destruct (Z.ltb_spec (byte_to_Z lo + 256 * byte_to_Z hi) 32768) as [Hs|Hs].
  - f_equal; [|f_equal]; apply byte_of_Z_back.
    + symmetry. apply Z.mod_unique with (byte_to_Z hi); lia.
    + replace ((byte_to_Z lo + 256 * byte_to_Z hi) / 256) with (byte_to_Z hi)
        by (apply Z.div_unique with (byte_to_Z lo); lia).
      apply Z.mod_small. lia.
  - f_equal; [|f_equal]; apply byte_of_Z_back.
    + symmetry. apply Z.mod_unique with (byte_to_Z hi - 256); lia.
    + replace ((byte_to_Z lo + 256 * byte_to_Z hi - 65536) / 256) with (byte_to_Z hi - 256)
        by (apply Z.div_unique with (byte_to_Z lo); lia).
      symmetry. apply Z.mod_unique with (-1); lia.
Qed.

Lemma pack_unpack k data :
  length data = (2 * k)%nat -> flat_map encode_h (unpack_pairs data) = data.
Proof.
  revert data. induction k as [|k IH]; intros data Hlen.
  - destruct data; [reflexivity | discriminate].
  - destruct data as [|lo [|hi rest]]; simpl in Hlen; try lia.
    cbn [unpack_pairs flat_map]. rewrite encode_decode, IH by lia. reflexivity.
Qed.

Lemma whole_frames_length n data :
  1 <= n ->
  length (whole_frames n 2 data) = (2 * Z.to_nat (len data / (n * 2) * n))%nat.
Proof.
  intros Hn. unfold whole_frames, len.
  set (k := Z.of_nat (length data) / (n * 2)).
  assert (Hk : 0 <= k) by (apply Z.div_pos; lia).
  assert (Hle : k * (n * 2) <= Z.of_nat (length data)).
  { subst k. rewrite Z.mul_comm. apply Z.mul_div_le. lia. }
  rewrite length_firstn, Nat.min_l by lia. nia.
Qed.

(** *** A recording mixed with itself *)

Lemma zip_mix_self us : Forall in16 us -> zip_mix us us = us.
Proof.
  induction 1 as [|u us Hu _ IH]; [reflexivity|].
  simpl. rewrite IH. unfold mix. replace (u + u) with (u * 2) by lia.
  rewrite Z.div_mul by lia. rewrite (clamp_id u Hu). reflexivity.
Qed.

Lemma pad_self us : pad us (len us) = us.
Proof. unfold pad. rewrite Z.sub_diag. simpl. apply app_nil_r. Qed.

Lemma mixdown_self us rate : Forall in16 us -> mixdown us rate us rate = Ok us.
Proof.
  intros H. unfold mixdown, resample. rewrite Z.max_id, Z.eqb_refl. cbn [and_then].
  rewrite Z.max_id, pad_self, zip_mix_self by exact H. reflexivity.
Qed.

(** X15: a 16-bit recording mixed with itself gives its own samples
    back (the whole frames of the input), as one channel at the same
    rate. *)
Theorem mixing_a_recording_with_itself path output_path w n rate data :
  files w !! path = Some (WavFile n 2 rate data) ->
  1 <= n -> 0 < rate ->
  fs_error w output_path = None ->
  exists w',
    combine_audio_files path path output_path w = (true, w') /\
    files w' = <[output_path := WavFile 1 2 rate (whole_frames n 2 data)]> (files w).
Proof.
  intros Hf Hn Hrate Hout.
  pose proof (wave_read_16 path w n rate data Hf Hn) as Hread.
  pose proof (whole_frames_even n data Hn) as Hdec.
  set (frames := whole_frames n 2 data) in *.
  pose proof (unpack_in16 frames) as Hin.
  pose proof (combine_try_ok path path output_path w _ _ _ _ _ _ _ _ _ _ _
                Hread Hread Hdec Hdec (mixdown_self _ rate Hin) Hin) as Hrun.
  rewrite Z.max_id in Hrun. specialize (Hrun Hrate Hout).
  unfold combine_audio_files. rewrite Hrun. eexists. split; [reflexivity|].
  cbn [files print emit store]. subst frames.
  rewrite (pack_unpack _ _ (whole_frames_length n data Hn)). reflexivity.
Qed.

Lemma mixing_a_recording_with_itself_witness :
  exists w',
    combine_audio_files "recordings/user_audio_1.wav" "recordings/user_audio_1.wav"
      "recordings/call_recording_1.wav" two_recordings = (true, w') /\
    files w' =
      <["recordings/call_recording_1.wav" :=
          WavFile 1 2 8000
            (whole_frames 1 2 [Byte.x00; Byte.x00; Byte.x64; Byte.x00; Byte.x38; Byte.xff])]>
        (files two_recordings).
Proof.
  apply (mixing_a_recording_with_itself "recordings/user_audio_1.wav"
           "recordings/call_recording_1.wav" two_recordings 1 8000
           [Byte.x00; Byte.x00; Byte.x64; Byte.x00; Byte.x38; Byte.xff]);
    [reflexivity | lia | lia | reflexivity].
Defined.

(** *** What [combine_audio_files] may touch *)

Lemma wave_write_files path n sw r data w :
  let res := wave_write path n sw r data w in
  match fst res with
  | Ok _ => files (snd res) = <[path := WavFile n sw r data]> (files w) /\ 0 < r
  | Raise _ => files (snd res) = files w \/ files (snd res) = <[path := RawFile []]> (files w)
  end.
Proof.
  unfold wave_write. destruct (fs_error w path); [left; reflexivity|].
  destruct (n <? 1); [right; reflexivity|].
  destruct ((sw <? 1) || (4 <? sw)); [right; reflexivity|].
  destruct (Z.leb_spec r 0); [right; reflexivity|]. split; [reflexivity | assumption].
Qed.

Lemma combine_try_files up ap out w :
  let res := combine_try up ap out w in
  match fst res with
  | Ok _ => exists rate data, files (snd res) = <[out := WavFile 1 2 rate data]> (files w)
  | Raise _ => files (snd res) = files w \/ files (snd res) = <[out := RawFile []]> (files w)
  end.
Proof.
  cbv zeta. unfold combine_try.
  destruct (wave_read up w) as [[[[nu su] ur] uf]|eu]; [|left; reflexivity].
  destruct (wave_read ap w) as [[[[na sa] ar] af]|ea]; [|left; reflexivity].
  match goal with |- context [match ?x with Ok _ => _ | Raise _ => _ end] =>
    destruct x as [[ms mb]|e1] end; [|left; reflexivity].
  match goal with |- context [wave_write ?a ?b ?c ?d ?e w] =>
    pose proof (wave_write_files a b c d e w) as Hw; cbv zeta in Hw;
    destruct (wave_write a b c d e w) as [[[]|e2] w1] end; cbn [fst snd] in *;
    [|exact Hw].
  destruct Hw as [Hw Hpos]. unfold Float.int_truediv.
  destruct (Z.eqb_spec (Z.max ur ar) 0) as [?|_]; [lia|].
  cbn [fst snd print emit files]. eauto.
Qed.

(** X16: [combine_audio_files] changes no file but the output: when it
    returns [True] the output is a mono 16-bit recording; when it returns
    [False] the files are as before, or the output was opened and left
    empty.  When an input cannot be read nothing is written and the error
    is printed. *)
Theorem combine_touches_only_the_output user_audio_path agent_audio_path output_path w :
  let r := combine_audio_files user_audio_path agent_audio_path output_path w in
  (fst r = true ->
   exists rate data, files (snd r) = <[output_path := WavFile 1 2 rate data]> (files w)) /\
  (fst r = false ->
   files (snd r) = files w \/ files (snd r) = <[output_path := RawFile []]> (files w)) /\
  (forall path, path <> output_path -> files (snd r) !! path = files w !! path) /\
  (forall e, wave_read user_audio_path w = Raise e \/
             (is_ok (wave_read user_audio_path w) = true /\
              wave_read agent_audio_path w = Raise e) ->
     r = (false, emit (PrintedError "Error combining audio files: " e) w)).
Proof.
  cbv zeta.
  pose proof (combine_try_files user_audio_path agent_audio_path output_path w) as H.
  cbv zeta in H. unfold combine_audio_files.
  assert (Hread : forall e,
            wave_read user_audio_path w = Raise e \/
            (is_ok (wave_read user_audio_path w) = true /\
             wave_read agent_audio_path w = Raise e) ->
            combine_try user_audio_path agent_audio_path output_path w = (Raise e, w)).
  { intros e He. unfold combine_try.
    destruct (wave_read user_audio_path w) as [[[[nu su] ur] uf]|eu].
    - destruct He as [He|[_ He]]; [discriminate|]. rewrite He. reflexivity.
    - destruct He as [He|[He _]]; [|discriminate]. injection He as <-. reflexivity. }
  destruct (combine_try user_audio_path agent_audio_path output_path w) as [[[]|e1] w1];
    cbn [fst snd emit files] in *.
  - split; [intros _; exact H|]. split; [discriminate|]. split.
    + intros path Hp. destruct H as (rate & data & ->).
      apply lookup_insert_ne. congruence.
    + intros e He. specialize (Hread e He). discriminate.
  - split; [discriminate|]. split; [intros _; exact H|]. split.
    + intros path Hp. destruct H as [-> | ->]; [reflexivity|].
      apply lookup_insert_ne. congruence.
    + intros e He. specialize (Hread e He). injection Hread as -> ->. reflexivity.
Qed.

End CombineFacts.

(** ** Resampling to a multiple of the rate *)

Module ResampleFacts.
Import Py Float FloatFacts Rec MixdownFacts.
Local Open Scope Z_scope.

Lemma to_int_Z z : to_int (inject_Z z) = z.
Proof. unfold to_int, inject_Z. simpl. apply Z.quot_1_r. Qed.

Lemma round_Z z : Z.abs z < 2 ^ 53 -> round (inject_Z z) = inject_Z z.
Proof. apply of_int_exact. Qed.

Lemma inject_Z_nonzero b : b <> 0 -> ~ (inject_Z b == 0)%Q.
Proof.
  intros Hb H. apply Hb. unfold Qeq in H. simpl in H. lia.
Qed.

Lemma round_quotient a b :
  b <> 0 -> Z.abs a < 2 ^ 53 -> round (inject_Z (a * b) / inject_Z b) = inject_Z a.
Proof.
  intros Hb Ha. rewrite (round_comp _ (inject_Z a)); [apply round_Z, Ha|].
  rewrite inject_Z_mult. field. apply inject_Z_nonzero, Hb.
Qed.

Lemma getitem_nth {A} (l : list A) i d :
  0 <= i < len l -> getitem l i = Ok (nth (Z.to_nat i) l d).
Proof.
  intros [H0 H1]. unfold getitem, len in *.
  destruct (Z.ltb_spec i 0) as [?|_]; [lia|].
  destruct (Z.leb_spec 0 i) as [_|?]; [|lia].
  destruct (Z.ltb_spec i (Z.of_nat (length l))) as [_|?]; [|lia]. simpl.
  destruct (nth_error l (Z.to_nat i)) as [x|] eqn:E.
  - rewrite (nth_error_nth _ _ d E). reflexivity.
  - apply nth_error_None in E. lia.
Qed.

Lemma getitem_last_nth {A} (l : list A) d :
  l <> [] -> getitem l (-1) = Ok (nth (Z.to_nat (len l - 1)) l d).
Proof.
  intros Hl. unfold getitem, len. change (-1 <? 0) with true. cbv iota.
  assert (Hn : 0 < Z.of_nat (length l)) by (destruct l; [contradiction | simpl; lia]).
  destruct (Z.leb_spec 0 (-1 + Z.of_nat (length l))) as [_|?]; [|lia].
  destruct (Z.ltb_spec (-1 + Z.of_nat (length l)) (Z.of_nat (length l))) as [_|?]; [|lia].
  simpl. replace (Z.of_nat (length l) - 1) with (-1 + Z.of_nat (length l)) by lia.
  destruct (nth_error l (Z.to_nat (-1 + Z.of_nat (length l)))) as [x|] eqn:E.
  - rewrite (nth_error_nth _ _ d E). reflexivity.
  - apply nth_error_None in E. lia.
Qed.

Lemma collect_nth {A B} (f : A -> outcome B) xs ys dx dy :
  collect f xs = Ok ys ->
  length ys = length xs /\
  forall i, (i < length xs)%nat -> f (nth i xs dx) = Ok (nth i ys dy).
Proof.
  revert ys. induction xs as [|x xs IH]; intros ys H; simpl in H.
  - injection H as <-. split; [reflexivity|]. intros i Hi. simpl in Hi. lia.
  - destruct (f x) as [y|] eqn:Ey; [|discriminate]. simpl in H.
    destruct (collect f xs) as [ys'|] eqn:Eys; [|discriminate]. simpl in H.
    injection H as <-. destruct (IH ys' eq_refl) as [Hlen Hnth].
    split; [simpl; rewrite Hlen; reflexivity|].
    intros [|i] Hi; simpl; [exact Ey | apply Hnth; simpl in Hi; lia].
Qed.

Lemma range_nth n i : (i < Z.to_nat n)%nat -> nth i (range n) 0 = Z.of_nat i.
Proof.
  intros Hi. unfold range. change 0 with (Z.of_nat 0).
  rewrite map_nth, seq_nth by exact Hi. reflexivity.
Qed.

Lemma interpolate_zero s0 s1 :
  Z.abs s0 < 2 ^ 53 -> Z.abs s1 < 2 ^ 53 -> interpolate s0 s1 0 = s0.
Proof.
  intros H0 H1. unfold interpolate, add, mul, sub.
  rewrite (of_int_exact s0 H0), (of_int_exact s1 H1), (of_int_exact 1) by (simpl; lia).
  rewrite (round_comp (inject_Z 1 - 0) (inject_Z 1)) by ring.
  rewrite (round_Z 1) by (simpl; lia).
  rewrite (round_comp (inject_Z s0 * inject_Z 1) (inject_Z s0)) by ring.
  rewrite (round_Z s0 H0).
  rewrite (round_zero (inject_Z s1 * 0)) by ring.
  rewrite (round_comp (inject_Z s0 + 0) (inject_Z s0)) by ring.
  rewrite (round_Z s0 H0). apply to_int_Z.
Qed.

(** The output sample at a multiple of the factor is an input sample. *)
Lemma resample_at_grid samples k j :
  1 <= k -> Forall in16 samples -> 0 <= j < len samples -> j * k < 2 ^ 53 ->
  resample_at samples (inject_Z k) (j * k) = Ok (nth (Z.to_nat j) samples 0).
Proof.
  intros Hk Hall Hj Hsmall. unfold resample_at, truediv.
  destruct (Qeq_bool (inject_Z k) 0) eqn:E.
  { apply Qeq_bool_iff in E. exfalso. revert E. apply inject_Z_nonzero. lia. }
  cbn [and_then].
  assert (Hjs : Z.abs j < 2 ^ 53) by nia.
  rewrite (of_int_exact (j * k)) by nia.
  rewrite (round_quotient j k) by (try exact Hjs; lia).
  rewrite to_int_Z.
  destruct (Z.geb_spec j (len samples - 1)) as [Hlast|Hin].
  - assert (Hne : samples <> []) by (intros ->; unfold len in Hj; simpl in Hj; lia).
    rewrite (getitem_last_nth samples 0 Hne).
    replace (len samples - 1) with j by lia. reflexivity.
  - rewrite (of_int_exact j Hjs). unfold sub.
    rewrite (round_zero (inject_Z j - inject_Z j)) by ring.
    rewrite (getitem_nth samples j 0), (getitem_nth samples (j + 1) 0) by lia.
    cbn [and_then]. f_equal.
    rewrite List.Forall_forall in Hall.
    assert (H0 : in16 (nth (Z.to_nat j) samples 0))
      by (apply Hall, nth_In; unfold len in *; lia).
    assert (H1 : in16 (nth (Z.to_nat (j + 1)) samples 0))
      by (apply Hall, nth_In; unfold len in *; lia).
    unfold in16 in *. apply interpolate_zero; lia.
Qed.

(** X17: resampling to a whole multiple [k] of the rate keeps every
    input sample: the result is [k] times as long and its sample at
    position [j * k] is the input sample at position [j], without rounding
    error. *)
Theorem upsampling_keeps_the_samples samples from_rate k :
  0 < from_rate -> 2 <= k ->
  Forall in16 samples ->
  len samples * k < 2 ^ 53 ->
  exists resampled,
    resample samples from_rate (k * from_rate) = Ok resampled /\
    len resampled = k * len samples /\
    forall j, 0 <= j < len samples ->
      nth (Z.to_nat (j * k)) resampled 0 = nth (Z.to_nat j) samples 0.
Proof.
  intros Hf Hk Hall Hsmall.
  destruct (resample_ok samples from_rate (k * from_rate)) as (l & Hl & _); [lia | nia |].
  exists l. split; [exact Hl|].
  unfold resample in Hl.
  destruct (Z.eqb_spec from_rate (k * from_rate)) as [Heq|_]; [nia|].
  unfold int_truediv in Hl. destruct (Z.eqb_spec from_rate 0) as [?|_]; [lia|].
  cbn [and_then] in Hl.
  destruct samples as [|s samples'] eqn:Es.
  { unfold len in Hl. cbn [length Z.of_nat] in Hl. rewrite mul_zero in Hl.
    change (to_int 0) with 0 in Hl. cbn in Hl. injection Hl as <-.
    split; [unfold len; simpl; lia|]. intros j Hj. unfold len in Hj. simpl in Hj. lia. }
  rewrite <- Es in *. assert (Hlen : 1 <= len samples) by (rewrite Es; unfold len; simpl; lia).
  clear Es s samples'.
  assert (Hks : Z.abs k < 2 ^ 53) by nia.
  rewrite (round_quotient k from_rate) in Hl by (try exact Hks; lia).
  unfold mul in Hl. rewrite (of_int_exact (len samples)) in Hl by nia.
  rewrite (round_comp _ (inject_Z (len samples * k))) in Hl by (rewrite inject_Z_mult; ring).
  rewrite (round_Z (len samples * k)) in Hl by nia.
  rewrite to_int_Z in Hl.
  destruct (collect_nth _ _ _ 0 0 Hl) as [Hlength Hnth].
  rewrite range_length in Hlength, Hnth.
  split; [unfold len at 1; rewrite Hlength; nia|].
  intros j Hj.
  assert (Hi : (Z.to_nat (j * k) < Z.to_nat (len samples * k))%nat) by nia.
  specialize (Hnth _ Hi). rewrite range_nth in Hnth by exact Hi.
  rewrite Z2Nat.id in Hnth by nia.
  rewrite resample_at_grid in Hnth by (try assumption; nia).
  injection Hnth as ->. reflexivity.
Qed.

Lemma upsampling_keeps_the_samples_witness :
  exists resampled,
    resample [0; 100; -200] 8000 (2 * 8000) = Ok resampled /\
    len resampled = 2 * len [0; 100; -200] /\
    forall j, 0 <= j < len [0; 100; -200] ->
      nth (Z.to_nat (j * 2)) resampled 0 = nth (Z.to_nat j) [0; 100; -200] 0.
Proof.
  apply (upsampling_keeps_the_samples [0; 100; -200] 8000 2); try lia.
  - repeat constructor; unfold in16; lia.
  - unfold len. simpl. lia.
Defined.

End ResampleFacts.

(** ** The mixdown against its specification *)

Module RefinementFacts.
Import Py Float FloatFacts Rec MixdownFacts ResampleFacts.
Local Open Scope Z_scope.

Lemma collect_map {A B} (f : A -> outcome B) (g : A -> B) xs :
  (forall x, In x xs -> f x = Ok (g x)) -> collect f xs = Ok (map g xs).
Proof.
  induction xs as [|x xs IH]; intros H; [reflexivity|].
  cbn [collect map]. rewrite (H x (or_introl eq_refl)). cbn [and_then].
  rewrite IH by (intros y Hy; apply H; right; exact Hy). reflexivity.
Qed.

(** The body of the loop computes the sample of the specification. *)
Lemma resample_at_spec samples ratio i :
  samples <> [] -> (0 < ratio)%Q -> 0 <= i ->
  resample_at samples ratio i = Ok (MixdownSpec.sample_at samples ratio i).
Proof.
  intros Hne Hr Hi. unfold resample_at, MixdownSpec.sample_at, truediv.
  destruct (Qeq_bool ratio 0) eqn:E; [apply Qeq_bool_iff in E; lra|]. cbn [and_then].
  set (src := round (of_int i / ratio)).
  assert (Hsrc : (0 <= src)%Q).
  { apply round_nonneg. apply Qle_shift_div_l; [exact Hr|].
    assert (0 <= of_int i)%Q
      by (apply round_nonneg; change 0%Q with (inject_Z 0); rewrite <- Zle_Qle; exact Hi).
    lra. }
  rewrite <- (to_int_floor src Hsrc).
  destruct (to_int_nonneg src Hsrc) as (Hidx0 & _ & _).
  set (idx := to_int src) in *. fold (len samples).
  destruct (Z.geb_spec idx (len samples - 1)) as [Hge|Hlt];
    destruct (Z.leb_spec (len samples - 1) idx) as [Hle|Hgt]; try lia.
  - apply getitem_last_nth, Hne.
  - rewrite (getitem_nth samples idx 0), (getitem_nth samples (idx + 1) 0) by lia.
    reflexivity.
Qed.

Lemma range_seq n : range n = map Z.of_nat (seq 0 (Z.to_nat n)).
Proof. reflexivity. Qed.

(** At different rates [resample] computes the sequence of the
    specification. *)
Lemma resample_other_rate samples from_rate to_rate :
  0 < from_rate -> 0 < to_rate -> from_rate <> to_rate ->
  resample samples from_rate to_rate = Ok (MixdownSpec.resampled samples from_rate to_rate).
Proof.
  intros Hf Ht Hne. unfold resample, MixdownSpec.resampled.
  destruct (Z.eqb_spec from_rate to_rate) as [?|_]; [contradiction|].
  unfold int_truediv. destruct (Z.eqb_spec from_rate 0) as [?|_]; [lia|].
  cbn [and_then]. set (ratio := round (inject_Z to_rate / inject_Z from_rate)).
  assert (Hr : (0 < ratio)%Q).
  { apply round_pos. apply Qlt_shift_div_l.
    - change 0%Q with (inject_Z 0). rewrite <- Zlt_Qlt. exact Hf.
    - rewrite Qmult_0_l. change 0%Q with (inject_Z 0). rewrite <- Zlt_Qlt. exact Ht. }
  fold (len samples).
  assert (Hn : (0 <= mul (of_int (len samples)) ratio)%Q).
  { apply round_nonneg. apply Qmult_le_0_compat; [|lra].
    apply round_nonneg. change 0%Q with (inject_Z 0). rewrite <- Zle_Qle. unfold len. lia. }
  rewrite <- (to_int_floor _ Hn).
  set (n := to_int (mul (of_int (len samples)) ratio)).
  rewrite range_seq, <- (map_map Z.of_nat (MixdownSpec.sample_at samples ratio)).
  apply collect_map. intros i Hi. fold (range n) in Hi. apply range_spec in Hi.
  apply resample_at_spec; [|exact Hr|lia].
  intros ->. subst n. unfold len in Hi. simpl in Hi.
  rewrite mul_zero in Hi. change (to_int 0) with 0 in Hi. lia.
Qed.

Lemma round_one : round 1 = 1%Q.
Proof. apply (round_Z 1). simpl. lia. Qed.

(** At equal rates the sequence of the specification is the input. *)
Lemma resampled_same_rate samples rate :
  0 < rate -> Forall in16 samples -> len samples < 2 ^ 53 ->
  MixdownSpec.resampled samples rate rate = samples.
Proof.
  intros Hr Hall Hlen. unfold MixdownSpec.resampled. fold (len samples).
  rewrite (round_comp (inject_Z rate / inject_Z rate) 1)
    by (field; apply inject_Z_nonzero; lia).
  rewrite round_one. unfold mul.
  assert (Hl : Z.abs (len samples) < 2 ^ 53) by (unfold len in *; lia).
  rewrite (of_int_exact _ Hl).
  rewrite (round_comp (inject_Z (len samples) * 1) (inject_Z (len samples))) by ring.
  rewrite (round_Z _ Hl), Qfloor_Z.
  apply (nth_ext _ _ 0 0).
  - rewrite length_map, length_seq. unfold len. lia.
  - intros i Hi. rewrite length_map, length_seq in Hi.
    rewrite (nth_indep _ 0 (MixdownSpec.sample_at samples 1 (Z.of_nat 0)))
      by (rewrite length_map, length_seq; exact Hi).
    rewrite (map_nth (fun i => MixdownSpec.sample_at samples 1 (Z.of_nat i))), seq_nth
      by exact Hi.
    cbn [Nat.add].
    assert (Hne : samples <> []) by (intros ->; unfold len in Hi; simpl in Hi; lia).
    pose proof (resample_at_spec samples 1 (Z.of_nat i) Hne ltac:(lra) ltac:(lia)) as Hs.
    pose proof (resample_at_grid samples 1 (Z.of_nat i) ltac:(lia) Hall) as Hg.
    rewrite Z.mul_1_r in Hg. change (inject_Z 1) with 1%Q in Hg.
    rewrite Hg in Hs by (unfold len in *; lia).
    rewrite Nat2Z.id in Hs. injection Hs as <-. reflexivity.
Qed.

(** [resample] computes the sequence of the specification. *)
Lemma resample_refines samples from_rate to_rate :
  0 < from_rate -> 0 < to_rate -> Forall in16 samples -> len samples < 2 ^ 53 ->
  resample samples from_rate to_rate = Ok (MixdownSpec.resampled samples from_rate to_rate).
Proof.
  intros Hf Ht Hall Hlen. destruct (Z.eq_dec from_rate to_rate) as [<-|Hne].
  - rewrite resampled_same_rate by assumption. unfold resample. rewrite Z.eqb_refl.
    reflexivity.
  - apply resample_other_rate; assumption.
Qed.

Lemma unpack_pairs_length data : (length (unpack_pairs data) <= length data)%nat.
Proof.
  assert (H : forall n data, (length data <= n)%nat ->
                (length (unpack_pairs data) <= length data)%nat).
  { induction n as [|n IH]; intros [|lo [|hi rest]] Hn; simpl in *; try lia.
    specialize (IH rest ltac:(lia)). lia. }
  apply (H (length data)). lia.
Qed.

Lemma struct_unpack_samples n data samples :
  struct_unpack_h n data = Ok samples ->
  Forall in16 samples /\ len samples <= len data.
Proof.
  unfold struct_unpack_h. destruct (_ =? _); [|discriminate]. intros H.
  injection H as <-. split; [apply unpack_in16|].
  unfold len. pose proof (unpack_pairs_length data). lia.
Qed.

(** C1: for two WAV files that can be read and whose frames decode as
    little-endian signed 16-bit samples, with rates and sizes that a WAV
    header can hold, and an output path that can be written,
    [combine_audio_files] returns [True].  Its [resample] yields for each
    input the sequence that the specification describes: linear
    interpolation to the larger of the two rates, which leaves an input
    that is already at that rate as it is.  At the output path it leaves a
    WAV file of 1 channel, 2-byte samples and the larger rate; its data
    decodes to a sequence as long as the longer of the two resampled
    sequences, whose value at each position is the clamped floor of the
    mean of the two resampled values there, a missing value counting as
    0. *)
Theorem combine_writes_clamped_mean user_audio_path agent_audio_path output_path w
    nu su ur uf user_samples na sa ar af agent_samples :
  wave_read user_audio_path w = Ok (nu, su, ur, uf) ->
  wave_read agent_audio_path w = Ok (na, sa, ar, af) ->
  struct_unpack_h (len uf / 2) uf = Ok user_samples ->
  struct_unpack_h (len af / 2) af = Ok agent_samples ->
  0 < ur < 2 ^ 31 -> 0 < ar < 2 ^ 31 ->
  len uf < 2 ^ 32 -> len af < 2 ^ 32 ->
  fs_error w output_path = None ->
  let target := Z.max ur ar in
  let ru := MixdownSpec.resampled user_samples ur target in
  let ra := MixdownSpec.resampled agent_samples ar target in
  2 * Z.max (len ru) (len ra) + 36 < 2 ^ 32 ->
  exists mixed w',
    resample user_samples ur target = Ok ru /\
    resample agent_samples ar target = Ok ra /\
    (ur = target -> ru = user_samples) /\
    (ar = target -> ra = agent_samples) /\
    combine_audio_files user_audio_path agent_audio_path output_path w = (true, w') /\
    files w' !! output_path = Some (WavFile 1 2 target (flat_map encode_h mixed)) /\
    unpack_pairs (flat_map encode_h mixed) = mixed /\
    len mixed = Z.max (len ru) (len ra) /\
    (forall i, (i < length mixed)%nat ->
       nth i mixed 0 = clamp ((nth i ru 0 + nth i ra 0) / 2)).
Proof.
  intros Hu Ha Hdu Hda [Hur _] [Har _] Lu La Hout target ru ra _.
  destruct (struct_unpack_samples _ _ _ Hdu) as [Iu Su].
  destruct (struct_unpack_samples _ _ _ Hda) as [Ia Sa].
  assert (Ru : resample user_samples ur target = Ok ru)
    by (apply resample_refines; subst target; try assumption; lia).
  assert (Ra : resample agent_samples ar target = Ok ra)
    by (apply resample_refines; subst target; try assumption; lia).
  destruct (mixdown_spec user_samples ur agent_samples ar Hur Har)
    as (ru' & ra' & mixed & Hru & Hra & _ & _ & Hmix & _ & Hlen & Hin & Hnth).
  fold target in Hru, Hra. rewrite Ru in Hru. rewrite Ra in Hra.
  injection Hru as <-. injection Hra as <-.
  exists mixed.
  assert (Hrun : combine_try user_audio_path agent_audio_path output_path w =
    (Ok tt,
     print ("Combined audio saved: " +:+ output_path +:+ " (" +:+
            Float.format_1f (Float.round (inject_Z (len mixed) / inject_Z target)) +:+
            "s, " +:+ str_of_int target +:+ "Hz)")
       (store output_path (WavFile 1 2 target (flat_map encode_h mixed)) w))).
  { unfold combine_try. rewrite Hu, Ha, Hdu, Hda. cbn [and_then].
    rewrite Hmix. cbn [and_then].
    rewrite (pack_ok mixed Hin). cbn [and_then]. fold target.
    unfold wave_write. rewrite Hout.
    change (1 <? 1) with false. change ((2 <? 1) || (4 <? 2)) with false. cbv iota.
    destruct (Z.leb_spec target 0) as [?|_]; [subst target; lia|].
    unfold Float.int_truediv.
    destruct (Z.eqb_spec target 0) as [?|_]; [subst target; lia|]. reflexivity. }
  eexists. split; [exact Ru|]. split; [exact Ra|].
  split; [intros E; subst ru; rewrite <- E; apply resampled_same_rate; try assumption; lia|].
  split; [intros E; subst ra; rewrite <- E; apply resampled_same_rate; try assumption; lia|].
  split; [unfold combine_audio_files; rewrite Hrun; reflexivity|].
  split; [cbn [files print emit store]; apply lookup_insert_eq|].
  split; [apply unpack_pack, Hin|]. split; [exact Hlen | exact Hnth].
Qed.

Lemma combine_writes_clamped_mean_witness :
  exists w',
    combine_audio_files "recordings/user_audio_1.wav" "recordings/agent_audio_1.wav"
      "recordings/call_recording_1.wav" two_recordings = (true, w') /\
    exists data,
      files w' !! "recordings/call_recording_1.wav" = Some (WavFile 1 2 16000 data) /\
      unpack_pairs data = [16383; -16359; 50; -25; -100; -100].
Proof.
  destruct (combine_writes_clamped_mean "recordings/user_audio_1.wav"
              "recordings/agent_audio_1.wav" "recordings/call_recording_1.wav"
              two_recordings 1 2 8000
              [Byte.x00; Byte.x00; Byte.x64; Byte.x00; Byte.x38; Byte.xff] [0; 100; -200]
              1 2 16000 [Byte.xff; Byte.x7f; Byte.x00; Byte.x80] [32767; -32768]
              eq_refl eq_refl eq_refl eq_refl ltac:(lia) ltac:(lia)
              ltac:(vm_compute; reflexivity) ltac:(vm_compute; reflexivity) eq_refl
              ltac:(vm_compute; reflexivity))
    as (mixed & w' & Ru & _ & _ & _ & Hrun & Hfile & Hdec & Hlen & Hnth).
  exists w'. split; [exact Hrun|]. eexists. split; [exact Hfile|].
  rewrite Hdec.
  assert (Hr : MixdownSpec.resampled [0; 100; -200] 8000 (Z.max 8000 16000) =
               [0; 50; 100; -50; -200; -200]) by (vm_compute; reflexivity).
  assert (Ha : MixdownSpec.resampled [32767; -32768] 16000 (Z.max 8000 16000) =
               [32767; -32768]) by (vm_compute; reflexivity).
  rewrite Hr, Ha in Hlen, Hnth.
  assert (L : length mixed = 6%nat) by (unfold len in Hlen; simpl in Hlen; lia).
  destruct mixed as [|m0 [|m1 [|m2 [|m3 [|m4 [|m5 [|m6 rest]]]]]]]; try discriminate L.
  pose proof (Hnth 0%nat ltac:(simpl; lia)) as E0.
  pose proof (Hnth 1%nat ltac:(simpl; lia)) as E1.
  pose proof (Hnth 2%nat ltac:(simpl; lia)) as E2.
  pose proof (Hnth 3%nat ltac:(simpl; lia)) as E3.
  pose proof (Hnth 4%nat ltac:(simpl; lia)) as E4.
  pose proof (Hnth 5%nat ltac:(simpl; lia)) as E5.
  cbn in E0, E1, E2, E3, E4, E5. subst. reflexivity.
Defined.

End RefinementFacts.

(** ** The weather tool: what the look-ups let escape *)

Module LookupFacts.
Import Py Weather WeatherFacts.

Section Facts.

Variable parse_float : string -> option Q.
Variable show_float : Q -> string.
Variable show_container : JSON -> string.
Variable geocoder : string -> outcome Response.
Variable forecaster : Q -> Q -> outcome Response.

Lemma index_0 (a : JSON) l : index (JList (a :: l)) 0 = Ok a.
Proof.
  unfold index, getitem. change (0 <? 0)%Z with false. cbv iota.
  change (0 <=? 0)%Z with true. rewrite andb_true_l.
  destruct (Z.ltb_spec 0 (Z.of_nat (length (a :: l)))) as [_|H];
    [reflexivity | simpl length in H; lia].
Qed.

(** The geocoder look-up reads the first match and nothing else. *)
Lemma geocode_location_first location first others :
  geocoder location = answered (JList (first :: others)) ->
  geocode_location parse_float geocoder location =
    and_then (item first "lat") (fun v =>
    and_then (to_float parse_float v) (fun la =>
    and_then (item first "lon") (fun v' =>
    and_then (to_float parse_float v') (fun lo =>
    and_then (item first "display_name") (fun name =>
    Ok (Some {| lat := la; lon := lo; display_name := name |})))))).
Proof.
  intros Hg. unfold geocode_location. rewrite Hg. unfold answered.
  cbn [and_then status json Z.eqb Pos.eqb truthy]. rewrite !index_0. reflexivity.
Qed.

Lemma index_1_short (l : list JSON) :
  match l with _ :: _ :: _ => False | _ => True end ->
  index (JList l) 1 = Raise IndexError.
Proof. destruct l as [|a [|b l]]; [reflexivity | reflexivity | contradiction]. Qed.

Lemma forecast_info_short_lows d :
  lows_cover_highs (Some d) = false ->
  forecast_info show_float show_container (encode_daily d) = Raise IndexError.
Proof.
  intros Hcover.
  destruct (lookup_daily d) as (Ht & Hmx & Hmn & Hpr & Hcs).
  change (encode_daily d) with (JDict (daily_entries d)).
  generalize dependent (daily_entries d). intros E Ht Hmx Hmn Hpr Hcs.
  unfold forecast_info, lows_cover_highs in *.
  cbn [contains get].
  destruct (time d) as [t|]; [|discriminate].
  rewrite (lookup_truthy _ _ _ Ht), Ht. cbn [and_then].
  rewrite Hmx, Hmn, Hpr, Hcs.
  change (match option_map JList ?x with Some v => v | None => JList [] end)
    with (or_default (option_map JList x) (JList [])).
  change (match option_map ?f (daily_codes d) with Some v => v | None => JList [] end)
    with (or_default (option_map f (daily_codes d)) (JList [])).
  rewrite !get_list, get_codes. cbn [len and_then].
  rewrite len_ge_2.
  destruct (or_default (temperature_2m_max d) []) as [|h1 [|h2 mx]]; try discriminate.
  rewrite !second_or_zero_list, second_or_map. cbn [and_then].
  rewrite describe_code. cbn [and_then]. rewrite index_1. cbn [and_then].
  rewrite index_1_short; [reflexivity|].
  destruct (or_default (temperature_2m_min d) []) as [|l1 [|l2 mn]];
    [exact I | exact I | discriminate].
Qed.

Lemma report_short_lows geo f :
  lows_cover_highs (daily f) = false ->
  report show_float show_container geo (encode f) = Raise IndexError.
Proof.
  intros Hcover. pose proof (lookup_forecast f) as Hl.
  unfold encode in *. set (E := entry _ _ _ ++ entry _ _ _) in *.
  destruct Hl as [Hc Hd]. clearbody E.
  unfold report. cbn [get]. rewrite Hc, Hd. cbn [and_then].
  assert (Hcur : match option_map encode_current (current f) with
                 | Some x => x | None => JDict [] end =
                 JDict (current_entries (or_default (current f) no_current)))
    by (destruct (current f) as [c|]; reflexivity).
  rewrite Hcur. clear Hcur.
  destruct (lookup_current (or_default (current f) no_current))
    as (Ht & Ha & Hh & Hw & Hk).
  cbn [get]. rewrite Ht, Ha, Hh, Hw, Hk. cbn [and_then].
  assert (Hcode : describe match option_map JInt (current_code (or_default (current f) no_current)) with
                           | Some x => x | None => JInt 0 end "unknown conditions" =
                  Ok (words (or_default (current_code (or_default (current f) no_current)) 0%Z)
                        "unknown conditions"))
    by (destruct (current_code _); reflexivity).
  rewrite Hcode. clear Hcode. cbn [and_then].
  destruct (daily f) as [d|]; [|discriminate]. cbn [option_map].
  rewrite (forecast_info_short_lows d Hcover). reflexivity.
Qed.

End Facts.

(** X18: [geocode_location] reads the first match of the geocoder
    and ignores the others.  When that match has [lat], [lon] and
    [display_name] it returns them, the coordinates as floats; a match
    without [lat] or [lon] raises [KeyError] and a latitude that is not a
    number raises [ValueError]; neither is caught. *)
Theorem geocode_reads_the_first_match parse_float geocoder location entries others :
  geocoder location = answered (JList (JDict entries :: others)) ->
  (forall slat slon la lo name,
     lookup "lat" entries = Some (JStr slat) -> parse_float slat = Some la ->
     lookup "lon" entries = Some (JStr slon) -> parse_float slon = Some lo ->
     lookup "display_name" entries = Some name ->
     geocode_location parse_float geocoder location =
       Ok (Some {| lat := la; lon := lo; display_name := name |})) /\
  (lookup "lat" entries = None \/
   (exists v la, lookup "lat" entries = Some v /\ to_float parse_float v = Ok la /\
                 lookup "lon" entries = None) ->
   geocode_location parse_float geocoder location = Raise KeyError) /\
  (forall s, lookup "lat" entries = Some (JStr s) -> parse_float s = None ->
     geocode_location parse_float geocoder location = Raise ValueError).
Proof.
  intros Hg. rewrite (geocode_location_first parse_float geocoder location _ _ Hg).
  cbn [item]. split; [|split].
  - intros slat slon la lo name Hlat Hla Hlon Hlo Hname.
    rewrite Hlat. cbn [and_then to_float]. rewrite Hla. cbn [and_then].
    rewrite Hlon. cbn [and_then to_float]. rewrite Hlo. cbn [and_then].
    rewrite Hname. reflexivity.
  - intros [Hlat | (v & la & Hlat & Hla & Hlon)]; rewrite Hlat; [reflexivity|].
    cbn [and_then]. rewrite Hla. cbn [and_then]. rewrite Hlon. reflexivity.
  - intros s Hlat Hs. rewrite Hlat. cbn [and_then to_float]. rewrite Hs. reflexivity.
Qed.

Lemma geocode_reads_the_first_match_witness :
  geocode_location parse_known
    (fun _ => answered (JList [encode_place paris; JStr "not a match"; JNull])) "Paris" =
    Ok (Some {| lat := Float.round (4885 # 100); lon := Float.round (235 # 100);
                display_name := JStr "Paris, Ile-de-France, France" |}) /\
  geocode_location parse_known
    (fun _ => answered (JList [JDict [("display_name", JStr "Paris")]])) "Paris" =
    Raise KeyError.
Proof.
  split.
  - exact (proj1 (geocode_reads_the_first_match parse_known
                    (fun _ => answered (JList [encode_place paris; JStr "not a match"; JNull]))
                    "Paris" _ _ eq_refl)
             "48.85" "2.35" _ _ _ eq_refl eq_refl eq_refl eq_refl eq_refl).
  - exact (proj1 (proj2 (geocode_reads_the_first_match parse_known
                    (fun _ => answered (JList [JDict [("display_name", JStr "Paris")]]))
                    "Paris" _ _ eq_refl))
             (or_introl eq_refl)).
Defined.

(** X19: when the daily block has [time] and two highs but fewer than
    two lows, [get_weather] returns no sentence: it raises [IndexError]. *)
Theorem forecast_without_low_raises parse_float show_float show_container
    geocoder forecaster location p others la lo f :
  geocoder location = answered (JList (encode_place p :: others)) ->
  parse_float (place_lat p) = Some la ->
  parse_float (place_lon p) = Some lo ->
  forecaster la lo = answered (encode f) ->
  lows_cover_highs (daily f) = false ->
  get_weather parse_float show_float show_container geocoder forecaster location =
    Raise IndexError.
Proof.
  intros Hg Hla Hlo Hf Hcover.
  rewrite (get_weather_resolved _ _ _ _ _ _ _
             (geocode_location_typed _ _ _ _ _ _ _ Hg Hla Hlo)).
  unfold get_weather_data. cbn [lat lon]. rewrite Hf. unfold answered.
  cbn [and_then status json Z.eqb Pos.eqb].
  assert (Hne : truthy (encode f) = true).
  { destruct f as [c [d|]]; [|discriminate]. destruct c; reflexivity. }
  rewrite Hne. apply report_short_lows, Hcover.
Qed.

Lemma forecast_without_low_raises_witness :
  get_weather parse_known plain_float plain_container finds_paris
    (fun _ _ => answered (encode lowless_forecast)) "Paris" = Raise IndexError.
Proof.
  exact (forecast_without_low_raises parse_known plain_float plain_container finds_paris
           (fun _ _ => answered (encode lowless_forecast)) "Paris" paris [] _ _
           lowless_forecast eq_refl eq_refl eq_refl eq_refl eq_refl).
Defined.

End LookupFacts.

(** ** A whole call, variant B *)

Module CallFacts.
Import Py Rec AgentB MixdownFacts RecordingFacts CombineFacts.
Local Open Scope Z_scope.
Local Arguments String.append !s1 s2 : simpl nomatch.

Lemma prefix_nil s : String.prefix EmptyString s = true.
Proof. destruct s; reflexivity. Qed.

(** *** The names of the files of a call *)

Lemma stamp_char_not_u c : stamp_char c = true -> c <> "u"%char.
Proof. intros H ->. discriminate. Qed.

Lemma replace_from_stamp new ts :
  timestamp_like ts ->
  replace_from "user_audio_" new 0 (ts +:+ ".wav") = ts +:+ ".wav".
Proof.
  unfold timestamp_like. induction ts as [|c ts IH]; intros H.
  - reflexivity.
  - cbn [list_ascii_of_string] in H. apply Forall_cons in H as [Hc H].
    change (String c ts +:+ ".wav") with (String c (ts +:+ ".wav")).
    cbn [replace_from String.prefix].
    destruct (ascii_dec "u" c) as [E|_].
    + exfalso. apply (stamp_char_not_u c Hc). symmetry. exact E.
    + rewrite IH by exact H. reflexivity.
Qed.

Lemma combined_path_of_call ts :
  timestamp_like ts -> combined_path (user_audio_filepath ts) = call_recording_path ts.
Proof.
  intros H. unfold combined_path, user_audio_filepath, call_recording_path, replace,
    recordings_dir.
  simpl. rewrite prefix_nil, replace_from_stamp by exact H. reflexivity.
Qed.

Lemma call_paths_differ ts :
  user_audio_filepath ts <> agent_audio_filepath ts /\
  call_recording_path ts <> user_audio_filepath ts /\
  call_recording_path ts <> agent_audio_filepath ts /\
  transcript_filepath ts <> user_audio_filepath ts /\
  transcript_filepath ts <> agent_audio_filepath ts /\
  transcript_filepath ts <> call_recording_path ts.
Proof.
  unfold user_audio_filepath, agent_audio_filepath, call_recording_path,
    transcript_filepath, recordings_dir.
  repeat split; simpl; discriminate.
Qed.



(** *** The start of a call *)

Lemma ensure_dir path d w :
  path_exists path d w = true \/ mkdir_error d path = None ->
  exists d1,
    (if path_exists path d w then (Ok tt, d) else makedirs path d w) = (Ok tt, d1) /\
    path_exists path d1 w = true /\
    (path_exists path d w = true -> d1 = d).
Proof.
  intros H. destruct (path_exists path d w) eqn:E.
  - exists d. auto.
  - destruct H as [H|H]; [discriminate|]. unfold makedirs. rewrite E, H.
    eexists. split; [reflexivity|]. split; [|discriminate].
    unfold path_exists. cbn [dirs]. rewrite bool_decide_eq_true_2 by set_solver.
    reflexivity.
Qed.

Section Start.

Variable strftime : Z -> string.

(** The run of [start_recording] in a job, once the directory is there. *)
Lemma start_recording_run room d s :
  is_some (job_context s) = true ->
  path_exists recordings_dir d (world s) = true \/ mkdir_error d recordings_dir = None ->
  let w := world s in
  let ts := strftime (clock w (reads w)) in
  let r1 := {| cr_filepath := transcript_filepath ts; cr_transcript := [];
               cr_start_time := clock w (S (S (reads w))); cr_is_recording := true |} in
  let fresh path := {| ar_filepath := path; ar_num_channels := 1; ar_frames := [];
                       ar_sample_rate := None; ar_is_recording := true |} in
  exists d1 w',
    start_recording strftime room d s =
      (Ok tt, d1,
       if String.prefix "FAKE_" room then
         {| conversation_recorder := Some r1;
            user_audio_recorder := user_audio_recorder s;
            agent_audio_recorder := agent_audio_recorder s;
            job_context := job_context s; world := w' |}
       else
         {| conversation_recorder := Some r1;
            user_audio_recorder := Some (fresh (user_audio_filepath ts));
            agent_audio_recorder := Some (fresh (agent_audio_filepath ts));
            job_context := job_context s; world := w' |}) /\
    path_exists recordings_dir d1 w' = true /\
    (path_exists recordings_dir d (world s) = true -> d1 = d) /\
    files w' = files w /\ fs_error w' = fs_error w /\ clock w' = clock w /\
    reads w' = S (S (S (reads w))) /\
    stops (trace w') = stops (trace w) /\ writes (trace w') = writes (trace w).
Proof.
  intros Hjob Hdir w ts r1 fresh.
  destruct (ensure_dir recordings_dir d (world s) Hdir) as (d1 & Hd & Hex & Hsame).
  unfold start_recording. rewrite Hd.
  unfold now, ConversationRecorder.init, ConversationRecorder.start, AudioRecorder.start,
    AudioRecorder.init, AudioRecorder.default_num_channels, now, get_job_context, with_world.
  cbn [fst snd clock reads cr_filepath ar_filepath ar_num_channels files fs_error trace
       job_context conversation_recorder user_audio_recorder agent_audio_recorder world orb].
  fold w. fold ts.
  destruct (job_context s) as [ctx|] eqn:Ej; [|discriminate Hjob].
  destruct (String.prefix "FAKE_" room);
    eexists d1, _; (split; [reflexivity|]);
    unfold path_exists, exists_ in *;
    cbn [print emit files fs_error clock reads trace];
    repeat split; auto;
    rewrite ?TeardownFacts.stops_app, ?TeardownFacts.writes_app; cbn [stops writes app];
    rewrite ?app_nil_r; reflexivity.
Qed.

(** Without a job [get_job_context()] raises, after the transcript recorder
    has been started. *)
Lemma start_recording_no_job room d s :
  job_context s = None ->
  path_exists recordings_dir d (world s) = true \/ mkdir_error d recordings_dir = None ->
  let w := world s in
  let ts := strftime (clock w (reads w)) in
  let r1 := {| cr_filepath := transcript_filepath ts; cr_transcript := [];
               cr_start_time := clock w (S (S (reads w))); cr_is_recording := true |} in
  exists d1 w',
    start_recording strftime room d s =
      (Raise RuntimeError, d1,
       {| conversation_recorder := Some r1;
          user_audio_recorder := user_audio_recorder s;
          agent_audio_recorder := agent_audio_recorder s;
          job_context := None; world := w' |}) /\
    path_exists recordings_dir d1 w' = true /\
    files w' = files w /\ stops (trace w') = stops (trace w).
Proof.
  intros Hjob Hdir w ts r1.
  destruct (ensure_dir recordings_dir d (world s) Hdir) as (d1 & Hd & Hex & Hsame).
  unfold start_recording. rewrite Hd.
  unfold now, ConversationRecorder.init, ConversationRecorder.start, get_job_context.
  cbn [fst snd clock reads cr_filepath files fs_error trace
       job_context conversation_recorder user_audio_recorder agent_audio_recorder world].
  fold w. fold ts. rewrite Hjob.
  eexists d1, _. split; [reflexivity|].
  unfold path_exists, exists_ in *. cbn [print emit files fs_error clock reads trace].
  repeat split; auto.
  rewrite ?TeardownFacts.stops_app; cbn [stops app]; rewrite ?app_nil_r; reflexivity.
Qed.

End Start.


(** *** The frames of a call *)

Lemma add_frame_fed r f w :
  ar_is_recording r = true ->
  fst (AudioRecorder.add_frame r (Some f) w) = AudioRecorder.fed r [f] /\
  ar_is_recording (fst (AudioRecorder.add_frame r (Some f) w)) = true /\
  files (snd (AudioRecorder.add_frame r (Some f) w)) = files w /\
  fs_error (snd (AudioRecorder.add_frame r (Some f) w)) = fs_error w /\
  stops (trace (snd (AudioRecorder.add_frame r (Some f) w))) = stops (trace w) /\
  writes (trace (snd (AudioRecorder.add_frame r (Some f) w))) = writes (trace w).
Proof.
  intros Hrec. unfold AudioRecorder.add_frame, AudioRecorder.fed. rewrite Hrec.
  destruct (ar_sample_rate r) as [rate|]; cbn [fst snd print emit files fs_error trace map head
    option_map ar_is_recording];
    rewrite ?TeardownFacts.stops_app, ?TeardownFacts.writes_app; cbn [stops writes];
    rewrite ?app_nil_r; repeat split; reflexivity.
Qed.

Lemma fed_fed r f frames :
  AudioRecorder.fed (AudioRecorder.fed r [f]) frames = AudioRecorder.fed r (f :: frames).
Proof.
  unfold AudioRecorder.fed.
  cbn [ar_filepath ar_num_channels ar_frames ar_sample_rate ar_is_recording map head
       option_map].
  rewrite <- app_assoc. destruct (ar_sample_rate r); reflexivity.
Qed.

Lemma add_message_keeps r w :
  (forall text language,
     let rw := ConversationRecorder.add_user_message r text language w in
     cr_filepath (fst rw) = cr_filepath r /\ files (snd rw) = files w /\
     fs_error (snd rw) = fs_error w) /\
  (forall text,
     let rw := ConversationRecorder.add_agent_message r text w in
     cr_filepath (fst rw) = cr_filepath r /\ files (snd rw) = files w /\
     fs_error (snd rw) = fs_error w).
Proof.
  split; intros; subst rw;
    unfold ConversationRecorder.add_user_message, ConversationRecorder.add_agent_message;
    destruct (ConversationRecorder.accepts r text); cbn; auto.
Qed.

Lemma handles_fed evs : forall s c u a,
  conversation_recorder s = Some c ->
  user_audio_recorder s = Some u -> agent_audio_recorder s = Some a ->
  ar_is_recording u = true -> ar_is_recording a = true ->
  exists c' w',
    handles evs s =
      {| conversation_recorder := Some c';
         user_audio_recorder := Some (AudioRecorder.fed u (frames_of UserTrack evs));
         agent_audio_recorder := Some (AudioRecorder.fed a (frames_of AgentTrack evs));
         job_context := job_context s; world := w' |} /\
    cr_filepath c' = cr_filepath c /\
    files w' = files (world s) /\ fs_error w' = fs_error (world s).
Proof.
  induction evs as [|ev evs IH]; intros s c u a Hc Hu Ha Ru Ra.
  - exists c, (world s). split; [|auto]. unfold handles, AudioRecorder.fed.
    cbn [fold_left frames_of map head option_map]. rewrite !app_nil_r.
    destruct s as [c0 u0 a0 j w]. cbn in *. subst.
    destruct u as [? ? ? [|] ?], a as [? ? ? [|] ?]; reflexivity.
  - unfold handles. cbn [fold_left]. fold (handles evs (handle ev s)).
    destruct ev as [[|] f | is_final text language | role text]; cbn [handle frames_of same_track].
    + unfold capture_user_audio_frames. rewrite Hu, Ru.
      destruct (add_frame_fed u f (world s) Ru) as (Hf & Hr & Hfi & Hfs & _).
      destruct (AudioRecorder.add_frame u (Some f) (world s)) as [u' w1]. cbn [fst snd] in *.
      destruct (IH {| conversation_recorder := conversation_recorder s;
                      user_audio_recorder := Some u';
                      agent_audio_recorder := agent_audio_recorder s;
                      job_context := job_context s; world := w1 |} c u' a
                  Hc eq_refl Ha Hr Ra) as (c' & w' & Hh & Kc & Kfi & Kfs).
      cbn [conversation_recorder job_context world] in *.
      exists c', w'. split; [|split; [|split]]; try congruence.
      rewrite Hh, Hf, fed_fed. reflexivity.
    + unfold capture_agent_audio_frames. rewrite Ha, Ra.
      destruct (add_frame_fed a f (world s) Ra) as (Hf & Hr & Hfi & Hfs & _).
      destruct (AudioRecorder.add_frame a (Some f) (world s)) as [a' w1]. cbn [fst snd] in *.
      destruct (IH {| conversation_recorder := conversation_recorder s;
                      user_audio_recorder := user_audio_recorder s;
                      agent_audio_recorder := Some a';
                      job_context := job_context s; world := w1 |} c u a'
                  Hc Hu eq_refl Ru Hr) as (c' & w' & Hh & Kc & Kfi & Kfs).
      cbn [conversation_recorder job_context world] in *.
      exists c', w'. split; [|split; [|split]]; try congruence.
      rewrite Hh, Hf, fed_fed. reflexivity.
    + unfold on_user_transcribed. rewrite Hc.
      destruct is_final; [|eapply IH; eassumption].
      destruct (proj1 (add_message_keeps c (world s)) text language) as (Hp & Hfi & Hfs).
      destruct (ConversationRecorder.add_user_message c text language (world s)) as [c1 w1].
      cbn [fst snd] in *.
      destruct (IH {| conversation_recorder := Some c1;
                      user_audio_recorder := user_audio_recorder s;
                      agent_audio_recorder := agent_audio_recorder s;
                      job_context := job_context s; world := w1 |} c1 u a
                  eq_refl Hu Ha Ru Ra) as (c' & w' & Hh & Kc & Kfi & Kfs).
      cbn [conversation_recorder job_context world] in *.
      exists c', w'. split; [exact Hh|]. split; [|split]; congruence.
    + unfold on_conversation_item. rewrite Hc.
      destruct text as [text|]; [|eapply IH; eassumption].
      destruct (String.eqb role "assistant" && truthy_str text); [|eapply IH; eassumption].
      destruct (proj2 (add_message_keeps c (world s)) text) as (Hp & Hfi & Hfs).
      destruct (ConversationRecorder.add_agent_message c text (world s)) as [c1 w1].
      cbn [fst snd] in *.
      destruct (IH {| conversation_recorder := Some c1;
                      user_audio_recorder := user_audio_recorder s;
                      agent_audio_recorder := agent_audio_recorder s;
                      job_context := job_context s; world := w1 |} c1 u a
                  eq_refl Hu Ha Ru Ra) as (c' & w' & Hh & Kc & Kfi & Kfs).
      cbn [conversation_recorder job_context world] in *.
      exists c', w'. split; [exact Hh|]. split; [|split]; congruence.
Qed.

(** *** The end of a call *)

Lemma conversation_stop_files r w :
  fs_error (snd (ConversationRecorder.stop r w)) = fs_error w /\
  forall path, path <> cr_filepath r ->
    files (snd (ConversationRecorder.stop r w)) !! path = files w !! path.
Proof.
  unfold ConversationRecorder.stop. destruct (cr_transcript r) as [|m ms].
  - cbn [snd print emit fs_error files]. auto.
  - rewrite conversation_save_run. cbn [cr_filepath emit fs_error].
    destruct (fs_error w (cr_filepath r));
      cbn [fst snd print emit store now fs_error files]; split; auto.
    intros path Hp. apply lookup_insert_ne. congruence.
Qed.

Lemma stop_conversation_files s :
  exists w1,
    stop_conversation s =
      {| conversation_recorder := None; user_audio_recorder := user_audio_recorder s;
         agent_audio_recorder := agent_audio_recorder s; job_context := job_context s;
         world := w1 |} /\
    fs_error w1 = fs_error (world s) /\
    forall path,
      (forall r, conversation_recorder s = Some r -> path <> cr_filepath r) ->
      files w1 !! path = files (world s) !! path.
Proof.
  unfold stop_conversation. destruct (conversation_recorder s) as [r|] eqn:E.
  - destruct (conversation_stop_files r (world s)) as [Hfs Hfi].
    destruct (ConversationRecorder.stop r (world s)) as [r' w1]. cbn [snd] in *.
    exists w1. split; [reflexivity|]. split; [exact Hfs|].
    intros path Hp. apply Hfi, Hp. reflexivity.
  - exists (world s). split; [|auto]. destruct s; cbn in *. subst. reflexivity.
Qed.

(** The two audio stops and the mixdown, on recorders that hold frames. *)
Lemma teardown_mixes s u a bu bsu ru ba bsa ra :
  user_audio_recorder s = Some u -> agent_audio_recorder s = Some a ->
  ar_frames u = bu :: bsu -> ar_sample_rate u = Some ru -> ar_num_channels u = 1 ->
  ar_frames a = ba :: bsa -> ar_sample_rate a = Some ra -> ar_num_channels a = 1 ->
  0 < ru -> 0 < ra ->
  let up := ar_filepath u in
  let ap := ar_filepath a in
  let out := combined_path up in
  truthy_str up = true -> truthy_str ap = true ->
  up <> ap -> out <> up -> out <> ap ->
  fs_error (world s) up = None -> fs_error (world s) ap = None ->
  fs_error (world s) out = None ->
  let user_wav := WavFile 1 2 ru (concat (ar_frames u)) in
  let agent_wav := WavFile 1 2 ra (concat (ar_frames a)) in
  exists mixed w1 w2 w3 w4,
    mixdown (unpack_pairs (whole_frames 1 2 (concat (ar_frames u)))) ru
            (unpack_pairs (whole_frames 1 2 (concat (ar_frames a)))) ra = Ok mixed /\
    stop_conversation s =
      {| conversation_recorder := None; user_audio_recorder := Some u;
         agent_audio_recorder := Some a; job_context := job_context s; world := w1 |} /\
    stop_user_audio
      {| conversation_recorder := None; user_audio_recorder := Some u;
         agent_audio_recorder := Some a; job_context := job_context s; world := w1 |} =
      (Some up,
       {| conversation_recorder := None; user_audio_recorder := None;
          agent_audio_recorder := Some a; job_context := job_context s; world := w2 |}) /\
    stop_agent_audio
      {| conversation_recorder := None; user_audio_recorder := None;
         agent_audio_recorder := Some a; job_context := job_context s; world := w2 |} =
      (Some ap,
       {| conversation_recorder := None; user_audio_recorder := None;
          agent_audio_recorder := None; job_context := job_context s; world := w3 |}) /\
    combine_if_both (Some up) (Some ap)
      {| conversation_recorder := None; user_audio_recorder := None;
         agent_audio_recorder := None; job_context := job_context s; world := w3 |} =
      {| conversation_recorder := None; user_audio_recorder := None;
         agent_audio_recorder := None; job_context := job_context s; world := w4 |} /\
    files w4 =
      <[out := WavFile 1 2 (Z.max ru ra) (flat_map encode_h mixed)]>
        (<[ap := agent_wav]> (<[up := user_wav]> (files w1))) /\
    forall path,
      (forall r, conversation_recorder s = Some r -> path <> cr_filepath r) ->
      files w1 !! path = files (world s) !! path.
Proof.
  intros Hu Ha Fu Ru Cu Fa Ra Ca Pu Pa up ap out Tu Ta Dua Dou Doa Eu Ea Eo
    user_wav agent_wav.
  destruct (mixdown_spec (unpack_pairs (whole_frames 1 2 (concat (ar_frames u)))) ru
              (unpack_pairs (whole_frames 1 2 (concat (ar_frames a)))) ra Pu Pa)
    as (xu & xa & mixed & _ & _ & _ & _ & Hmix & _ & _ & Hin & _).
  destruct (stop_conversation_files s) as (w1 & H1 & Hfs1 & Hfi1).
  rewrite Hu, Ha in H1.
  exists mixed, w1.
  (* the user recorder *)
  pose proof (audio_stop_saves u w1 bu bsu ru Fu Ru) as Su.
  rewrite Hfs1, Cu in Su. specialize (Su Eu ltac:(lia) Pu). cbv zeta in Su.
  set (w2 := snd (AudioRecorder.stop u w1)) in *.
  assert (H2 : files w2 = <[up := user_wav]> (files w1) /\ fs_error w2 = fs_error (world s)).
  { rewrite Su. cbn [print emit store files fs_error]. auto. }
  destruct H2 as [Hfi2 Hfs2].
  (* the agent recorder *)
  pose proof (audio_stop_saves a w2 ba bsa ra Fa Ra) as Sa.
  rewrite Hfs2, Ca in Sa. specialize (Sa Ea ltac:(lia) Pa). cbv zeta in Sa.
  set (w3 := snd (AudioRecorder.stop a w2)) in *.
  assert (H3 : files w3 = <[ap := agent_wav]> (files w2) /\ fs_error w3 = fs_error (world s)).
  { rewrite Sa. cbn [print emit store files fs_error]. auto. }
  destruct H3 as [Hfi3 Hfs3].
  (* the mixdown *)
  assert (Lu : files w3 !! up = Some user_wav).
  { rewrite Hfi3, lookup_insert_ne by congruence. rewrite Hfi2. apply lookup_insert_eq. }
  assert (La : files w3 !! ap = Some agent_wav).
  { rewrite Hfi3. apply lookup_insert_eq. }
  pose proof (combine_try_ok up ap out w3 _ _ _ _ _ _ _ _ _ _ mixed
                (wave_read_16 up w3 1 ru _ Lu ltac:(lia))
                (wave_read_16 ap w3 1 ra _ La ltac:(lia))
                (whole_frames_even 1 _ ltac:(lia)) (whole_frames_even 1 _ ltac:(lia))
                Hmix Hin ltac:(lia)) as Hrun.
  rewrite Hfs3 in Hrun. specialize (Hrun Eo).
  eexists w2, w3, _. split; [exact Hmix|]. split; [exact H1|]. split.
  { unfold stop_user_audio. cbn [user_audio_recorder world conversation_recorder
      agent_audio_recorder job_context].
    subst w2. destruct (AudioRecorder.stop u w1). reflexivity. }
  split.
  { unfold stop_agent_audio. cbn [user_audio_recorder world conversation_recorder
      agent_audio_recorder job_context].
    subst w3. destruct (AudioRecorder.stop a w2). reflexivity. }
  split.
  { unfold combine_if_both, exists_, with_world.
    cbn [user_audio_recorder world conversation_recorder agent_audio_recorder job_context].
    rewrite Tu, Ta, Lu, La. cbn [andb].
    change (replace "user_audio_" "call_recording_" up) with out.
    unfold combine_audio_files. rewrite Hrun. cbn [snd]. reflexivity. }
  split.
  { cbn [print emit store files]. rewrite Hfi3, Hfi2. reflexivity. }
  exact Hfi1.
Qed.


Lemma truthy_paths ts :
  truthy_str (user_audio_filepath ts) = true /\ truthy_str (agent_audio_filepath ts) = true.
Proof. split; reflexivity. Qed.

(** X20: in a job, when the recordings directory is there or can be
    created, [start_recording] creates it if needed and leaves a started,
    empty transcript recorder on [recordings/transcript_<timestamp>.json];
    in room mode also two started, empty audio recorders on the user and
    agent paths, while for a room named [FAKE_...] (console mode) the audio
    recorders are left as they were.  It writes no file.  Without a job it
    raises [RuntimeError], after the directory has been created and the
    transcript recorder started.  When the directory cannot be created the
    [OSError] escapes and nothing has changed. *)
Theorem start_recording_prepares_the_call strftime room d s :
  let w := world s in
  let ts := strftime (clock w (reads w)) in
  let console := String.prefix "FAKE_" room in
  let fresh path := {| ar_filepath := path; ar_num_channels := 1; ar_frames := [];
                       ar_sample_rate := None; ar_is_recording := true |} in
  let transcript :=
    {| cr_filepath := transcript_filepath ts; cr_transcript := [];
       cr_start_time := clock w (S (S (reads w))); cr_is_recording := true |} in
  (is_some (job_context s) = true ->
   path_exists recordings_dir d w = true \/ mkdir_error d recordings_dir = None ->
   exists d1 s1,
     start_recording strftime room d s = (Ok tt, d1, s1) /\
     path_exists recordings_dir d1 (world s1) = true /\
     (path_exists recordings_dir d w = true -> d1 = d) /\
     conversation_recorder s1 = Some transcript /\
     user_audio_recorder s1 =
       (if console then user_audio_recorder s else Some (fresh (user_audio_filepath ts))) /\
     agent_audio_recorder s1 =
       (if console then agent_audio_recorder s else Some (fresh (agent_audio_filepath ts))) /\
     job_context s1 = job_context s /\
     files (world s1) = files w /\
     stops (trace (world s1)) = stops (trace w)) /\
  (job_context s = None ->
   path_exists recordings_dir d w = true \/ mkdir_error d recordings_dir = None ->
   exists d1 s1,
     start_recording strftime room d s = (Raise RuntimeError, d1, s1) /\
     path_exists recordings_dir d1 (world s1) = true /\
     conversation_recorder s1 = Some transcript /\
     user_audio_recorder s1 = user_audio_recorder s /\
     agent_audio_recorder s1 = agent_audio_recorder s /\
     files (world s1) = files w /\
     stops (trace (world s1)) = stops (trace w)) /\
  (forall msg,
     path_exists recordings_dir d w = false -> mkdir_error d recordings_dir = Some msg ->
     start_recording strftime room d s = (Raise (OSError msg), d, s)).
Proof.
  intros w ts console fresh transcript. split; [|split].
  - intros Hjob Hdir.
    destruct (start_recording_run strftime room d s Hjob Hdir)
      as (d1 & w' & Hstart & Hex & Hsame & Hfi & _ & _ & _ & Hst & _).
    fold w ts console in Hstart. eexists d1, _. split; [exact Hstart|].
    destruct console; cbn [world conversation_recorder user_audio_recorder
      agent_audio_recorder job_context]; repeat split; assumption.
  - intros Hjob Hdir.
    destruct (start_recording_no_job strftime room d s Hjob Hdir)
      as (d1 & w' & Hstart & Hex & Hfi & Hst).
    fold w ts in Hstart. eexists d1, _. split; [exact Hstart|].
    cbn [world conversation_recorder user_audio_recorder agent_audio_recorder].
    repeat split; assumption.
  - intros msg Hno Herr. unfold start_recording, makedirs. fold w. rewrite Hno, Herr.
    reflexivity.
Qed.

Lemma start_recording_prepares_the_call_witness :
  (exists d1 s1,
     start_recording (fun _ => "20240501_120000") "FAKE_console" empty_disk
       (before_call blank_world) = (Ok tt, d1, s1) /\
     path_exists recordings_dir d1 (world s1) = true /\
     user_audio_recorder s1 = None /\ agent_audio_recorder s1 = None) /\
  (exists d1 s1,
     start_recording (fun _ => "20240501_120000") "room-1" empty_disk
       (without_job blank_world) = (Raise RuntimeError, d1, s1) /\
     is_some (conversation_recorder s1) = true).
Proof.
  split.
  - destruct (proj1 (start_recording_prepares_the_call (fun _ => "20240501_120000")
                       "FAKE_console" empty_disk (before_call blank_world))
                eq_refl (or_intror eq_refl))
      as (d1 & s1 & Hstart & Hex & _ & _ & Hu & Ha & _).
    exists d1, s1. auto.
  - destruct (proj1 (proj2 (start_recording_prepares_the_call (fun _ => "20240501_120000")
                              "room-1" empty_disk (without_job blank_world)))
                eq_refl (or_intror eq_refl))
      as (d1 & s1 & Hstart & _ & Hc & _).
    exists d1, s1. split; [exact Hstart|]. rewrite Hc. reflexivity.
Defined.

(** X21: a call of variant B in room mode, from [start_recording]
    through the events to the first teardown, with a timestamp of digits
    and underscores and writable paths: when both tracks delivered a frame
    of positive rate, the user file and the agent file hold the frames of their own
    track in order of arrival at the rate of its first frame, and
    [call_recording_<timestamp>.wav] holds their mixdown at the higher of
    the two rates.  But for these three files and the transcript no file
    has changed, and no recorder is referenced any more. *)
Theorem call_leaves_a_combined_recording strftime room d s evs t fu fus fa fas :
  let w := world s in
  let ts := strftime (clock w (reads w)) in
  timestamp_like ts ->
  is_some (job_context s) = true -> String.prefix "FAKE_" room = false ->
  path_exists recordings_dir d w = true \/ mkdir_error d recordings_dir = None ->
  fs_error w (user_audio_filepath ts) = None ->
  fs_error w (agent_audio_filepath ts) = None ->
  fs_error w (call_recording_path ts) = None ->
  frames_of UserTrack evs = fu :: fus -> frames_of AgentTrack evs = fa :: fas ->
  0 < frame_sample_rate fu -> 0 < frame_sample_rate fa ->
  let ru := frame_sample_rate fu in
  let ra := frame_sample_rate fa in
  let user_data := concat (map frame_data (fu :: fus)) in
  let agent_data := concat (map frame_data (fa :: fas)) in
  exists d1 s1 mixed,
    start_recording strftime room d s = (Ok tt, d1, s1) /\
    mixdown (unpack_pairs (whole_frames 1 2 user_data)) ru
            (unpack_pairs (whole_frames 1 2 agent_data)) ra = Ok mixed /\
    let s3 := teardown t (handles evs s1) in
    files (world s3) !! user_audio_filepath ts = Some (WavFile 1 2 ru user_data) /\
    files (world s3) !! agent_audio_filepath ts = Some (WavFile 1 2 ra agent_data) /\
    files (world s3) !! call_recording_path ts =
      Some (WavFile 1 2 (Z.max ru ra) (flat_map encode_h mixed)) /\
    (forall path,
       path <> user_audio_filepath ts -> path <> agent_audio_filepath ts ->
       path <> call_recording_path ts -> path <> transcript_filepath ts ->
       files (world s3) !! path = files w !! path) /\
    referenced s3 = [].
Proof.
  intros w ts Hts Hjob Hroom Hdir Eu Ea Eo Fu Fa Pu Pa ru ra user_data agent_data.
  destruct (start_recording_run strftime room d s Hjob Hdir)
    as (d1 & w' & Hstart & _ & _ & Hfi' & Hfs' & _).
  fold w ts in Hstart, Hfi', Hfs'. rewrite Hroom in Hstart.
  match type of Hstart with _ = (_, _, ?x) => set (s1 := x) in * end.
  exists d1, s1.
  destruct (handles_fed evs s1 _ _ _ eq_refl eq_refl eq_refl eq_refl eq_refl)
    as (c' & w2 & Hh & Hc' & Hfi2 & Hfs2).
  cbn [cr_filepath job_context world s1] in Hh, Hc', Hfi2, Hfs2.
  rewrite Fu, Fa in Hh.
  set (u := AudioRecorder.fed _ (fu :: fus)) in Hh.
  set (a := AudioRecorder.fed _ (fa :: fas)) in Hh.
  destruct (call_paths_differ ts) as (Dua & Dou & Doa & Dtu & Dta & Dto).
  pose proof (combined_path_of_call ts Hts) as Hout.
  destruct (truthy_paths ts) as [Tu Ta].
  destruct (teardown_mixes (handles evs s1) u a (frame_data fu) (map frame_data fus) ru
              (frame_data fa) (map frame_data fas) ra)
    as (mixed & w3 & w4 & w5 & w6 & Hmix & H1 & H2 & H3 & H4 & Hfi6 & Hfi3);
    try (rewrite Hh; reflexivity); try reflexivity; try assumption;
    cbn [u a AudioRecorder.fed ar_filepath]; rewrite ?Hout, ?Hh; cbn [world];
    rewrite ?Hfs2, ?Hfs'; try assumption.
  cbn [u a AudioRecorder.fed ar_filepath ar_frames app map] in Hmix, Hfi6, H2, H3, H4.
  rewrite Hout in Hfi6. rewrite Hh in H1, H2, H3, H4, Hfi3.
  cbn [job_context conversation_recorder world] in *.
  exists mixed. split; [exact Hstart|]. split; [exact Hmix|].
  assert (Hw : world (teardown t (handles evs s1)) = w6 /\
               referenced (teardown t (handles evs s1)) = []).
  { rewrite Hh. destruct t; unfold teardown, stop_recording_on_shutdown, stop_recording,
      hangup_call, get_job_context; cbn [job_context].
    - rewrite H1, H2, H3, H4. split; reflexivity.
    - destruct (job_context s) as [ctx|] eqn:Ej; [|discriminate Hjob].
      rewrite H1, H2, H3, H4. unfold request_shutdown. cbn [job_context snd].
      split; reflexivity. }
  destruct Hw as [Hw Href]. rewrite Hh in Hw, Href. cbv zeta. rewrite Hw, Hfi6.
  split; [|split; [|split; [|split]]].
  - rewrite lookup_insert_ne, lookup_insert_ne by congruence. apply lookup_insert_eq.
  - rewrite lookup_insert_ne by congruence. apply lookup_insert_eq.
  - apply lookup_insert_eq.
  - intros path Nu Na No Nt. rewrite !lookup_insert_ne by congruence.
    rewrite Hfi3, Hfi2, Hfi'; [reflexivity|].
    intros r Hr. injection Hr as <-. rewrite Hc'. exact Nt.
  - exact Href.
Qed.


Lemma call_leaves_a_combined_recording_witness :
  let evs := [FrameArrived UserTrack one_frame;
              UserTranscribed true "hello" (Some "en");
              FrameArrived AgentTrack one_frame] in
  exists d1 s1 mixed,
    start_recording (fun _ => "20240501_120000") "room-1" empty_disk (before_call blank_world)
      = (Ok tt, d1, s1) /\
    files (world (teardown Shutdown (handles evs s1)))
      !! "recordings/call_recording_20240501_120000.wav" =
      Some (WavFile 1 2 48000 (flat_map encode_h mixed)).
Proof.
  destruct (call_leaves_a_combined_recording (fun _ => "20240501_120000") "room-1"
              empty_disk (before_call blank_world)
              [FrameArrived UserTrack one_frame;
               UserTranscribed true "hello" (Some "en");
               FrameArrived AgentTrack one_frame]
              Shutdown one_frame [] one_frame [])
    as (d1 & s1 & mixed & Hstart & _ & _ & _ & Hfile & _);
    try reflexivity.
  - repeat constructor.
  - right. reflexivity.
  - exists d1, s1, mixed. split; [exact Hstart | exact Hfile].
Defined.

(** *** A call in the console *)

Lemma on_item_accepts r role text w :
  cr_is_recording r = true ->
  (if String.eqb role "assistant" && truthy_str text
   then ConversationRecorder.add_agent_message r text w else (r, w)) =
  (if String.eqb role "assistant" && negb (ConversationRecorder.blank text)
   then ConversationRecorder.add_agent_message r text w else (r, w)).
Proof.
  intros Hrec. destruct (String.eqb role "assistant"); [|reflexivity]. cbn [andb].
  destruct text as [|c text]; [reflexivity|].
  cbn [truthy_str]. destruct (ConversationRecorder.blank (String c text)) eqn:E;
    [|reflexivity].
  cbn [negb]. unfold ConversationRecorder.add_agent_message.
  rewrite TranscriptFacts.accepts_spec, Hrec, E. reflexivity.
Qed.

Lemma handles_transcript evs : forall s c,
  conversation_recorder s = Some c -> cr_is_recording c = true ->
  user_audio_recorder s = None -> agent_audio_recorder s = None ->
  exists c' w',
    handles evs s =
      {| conversation_recorder := Some c'; user_audio_recorder := None;
         agent_audio_recorder := None; job_context := job_context s; world := w' |} /\
    cr_filepath c' = cr_filepath c /\
    map ConversationRecorder.summary (cr_transcript c') =
      map ConversationRecorder.summary (cr_transcript c) ++ said evs /\
    files w' = files (world s) /\ fs_error w' = fs_error (world s).
Proof.
  induction evs as [|ev evs IH]; intros s c Hc Hrec Hu Ha.
  - exists c, (world s). split; [|rewrite app_nil_r; auto].
    destruct s; cbn in *. subst. reflexivity.
  - unfold handles. cbn [fold_left]. fold (handles evs (handle ev s)).
    destruct ev as [[|] f | is_final text language | role text]; cbn [handle said].
    + unfold capture_user_audio_frames. rewrite Hu. eapply IH; eassumption.
    + unfold capture_agent_audio_frames. rewrite Ha. eapply IH; eassumption.
    + unfold on_user_transcribed. rewrite Hc.
      destruct is_final; [|eapply IH; eassumption].
      unfold ConversationRecorder.add_user_message.
      rewrite TranscriptFacts.accepts_spec, Hrec. cbn [andb].
      destruct (ConversationRecorder.blank text); cbn [negb].
      * destruct (IH {| conversation_recorder := Some c;
                        user_audio_recorder := user_audio_recorder s;
                        agent_audio_recorder := agent_audio_recorder s;
                        job_context := job_context s; world := world s |} c
                    eq_refl Hrec Hu Ha) as (c' & w' & Hh & K).
        exists c', w'. split; [exact Hh | exact K].
      * cbn [now].
        destruct (IH {| conversation_recorder :=
                          Some (ConversationRecorder.append c
                                  (UserMessage text (clock (world s) (reads (world s)))
                                     language));
                        user_audio_recorder := user_audio_recorder s;
                        agent_audio_recorder := agent_audio_recorder s;
                        job_context := job_context s; world := snd (now (world s)) |} _
                    eq_refl Hrec Hu Ha) as (c' & w' & Hh & Kp & Kt & Kfi & Kfs).
        exists c', w'. split; [exact Hh|]. split; [exact Kp|]. split; [|auto].
        rewrite Kt. cbn [ConversationRecorder.append cr_transcript]. rewrite map_app.
        rewrite <- app_assoc. reflexivity.
    + unfold on_conversation_item. rewrite Hc.
      destruct text as [text|]; [|eapply IH; eassumption].
      pose proof (on_item_accepts c role text (world s) Hrec) as Hacc.
      destruct (String.eqb role "assistant" && negb (ConversationRecorder.blank text)) eqn:E.
      * assert (Ht : String.eqb role "assistant" && truthy_str text = true).
        { apply andb_true_iff in E as [-> E]. destruct text; [discriminate | reflexivity]. }
        rewrite Ht. apply andb_true_iff in E as [_ E]. apply negb_true_iff in E.
        unfold ConversationRecorder.add_agent_message.
        rewrite TranscriptFacts.accepts_spec, Hrec, E. cbn [andb negb now].
        destruct (IH {| conversation_recorder :=
                          Some (ConversationRecorder.append c
                                  (AgentMessage text (clock (world s) (reads (world s)))));
                        user_audio_recorder := user_audio_recorder s;
                        agent_audio_recorder := agent_audio_recorder s;
                        job_context := job_context s; world := snd (now (world s)) |} _
                    eq_refl Hrec Hu Ha) as (c' & w' & Hh & Kp & Kt & Kfi & Kfs).
        exists c', w'. split; [exact Hh|]. split; [exact Kp|]. split; [|auto].
        rewrite Kt. cbn [ConversationRecorder.append cr_transcript]. rewrite map_app.
        rewrite <- app_assoc. reflexivity.
      * assert (Hsame : (if String.eqb role "assistant" && truthy_str text
                         then let (r', w0) :=
                                ConversationRecorder.add_agent_message c text (world s) in
                              {| conversation_recorder := Some r';
                                 user_audio_recorder := user_audio_recorder s;
                                 agent_audio_recorder := agent_audio_recorder s;
                                 job_context := job_context s; world := w0 |}
                         else s) = s).
        { destruct (String.eqb role "assistant" && truthy_str text) eqn:E2; [|reflexivity].
          rewrite Hacc. destruct s; cbn in *. subst. reflexivity. }
        rewrite Hsame. eapply IH; eassumption.
Qed.

(** X22: a call of variant B in console mode (a job whose room is named
    [FAKE_...]) leaves no audio file: after the first teardown the files
    are those of before the call, plus the transcript when something was
    said, whose messages are the final user transcripts and the assistant
    items that are not blank, in order of arrival. *)
Theorem console_call_leaves_the_transcript strftime room d s evs t :
  let w := world s in
  let ts := strftime (clock w (reads w)) in
  is_some (job_context s) = true -> String.prefix "FAKE_" room = true ->
  user_audio_recorder s = None -> agent_audio_recorder s = None ->
  path_exists recordings_dir d w = true \/ mkdir_error d recordings_dir = None ->
  fs_error w (transcript_filepath ts) = None ->
  exists d1 s1,
    start_recording strftime room d s = (Ok tt, d1, s1) /\
    let s3 := teardown t (handles evs s1) in
    match said evs with
    | [] => files (world s3) = files w
    | _ :: _ =>
        exists doc,
          files (world s3) = <[transcript_filepath ts := JsonFile doc]> (files w) /\
          map ConversationRecorder.summary (messages doc) = said evs
    end /\
    referenced s3 = [].
Proof.
  intros w ts Hjob Hconsole Hu Ha Hdir Hfs.
  destruct (start_recording_run strftime room d s Hjob Hdir)
    as (d1 & w' & Hstart & _ & _ & Hfi' & Hfs' & _).
  fold w ts in Hstart, Hfi', Hfs'. rewrite Hconsole, Hu, Ha in Hstart.
  match type of Hstart with _ = (_, _, ?x) => set (s1 := x) in * end.
  exists d1, s1. split; [exact Hstart|].
  destruct (handles_transcript evs s1 _ eq_refl eq_refl eq_refl eq_refl)
    as (c' & w2 & Hh & Hp & Ht & Hfi2 & Hfs2).
  cbn [s1 cr_filepath cr_transcript map app job_context world] in Hh, Hp, Ht, Hfi2, Hfs2.
  pose proof (conversation_stop_written c' w2) as Hstop.
  rewrite Hp, Hfs2, Hfs' in Hstop. specialize (Hstop Hfs).
  unfold ConversationRecorder.recording_data in Hstop.
  assert (Hw : world (teardown t (handles evs s1)) = snd (ConversationRecorder.stop c' w2) /\
               referenced (teardown t (handles evs s1)) = []).
  { rewrite Hh. destruct (job_context s) as [ctx|] eqn:Ej; [|discriminate Hjob].
    destruct t; unfold teardown, stop_recording_on_shutdown, stop_recording,
      hangup_call, get_job_context, stop_conversation, stop_user_audio, stop_agent_audio,
      combine_if_both, request_shutdown;
      cbn [conversation_recorder user_audio_recorder agent_audio_recorder job_context world
           is_some orb fst snd];
      destruct (ConversationRecorder.stop c' w2) as [c'' w3];
      cbn [conversation_recorder user_audio_recorder agent_audio_recorder job_context world
           fst snd]; split; reflexivity. }
  destruct Hw as [Hw Href]. cbv zeta. rewrite Hw, Hstop, Hfi2, Hfi'.
  split; [|exact Href].
  rewrite <- Ht. destruct (cr_transcript c') as [|m ms]; [reflexivity|].
  eexists. split; [reflexivity|]. reflexivity.
Qed.

Lemma console_call_leaves_the_transcript_witness :
  let evs := [UserTranscribed false "hel" (Some "en");
              UserTranscribed true "hello" (Some "en");
              ItemAdded "user" (Some "hello");
              ItemAdded "assistant" (Some "Hi, how can I help?")] in
  exists d1 s1 doc,
    start_recording (fun _ => "20240501_120000") "FAKE_console" empty_disk
      (before_call blank_world) = (Ok tt, d1, s1) /\
    files (world (teardown Hangup (handles evs s1))) =
      <["recordings/transcript_20240501_120000.json" := JsonFile doc]> ∅ /\
    map ConversationRecorder.summary (messages doc) =
      [("user", "hello"); ("assistant", "Hi, how can I help?")].
Proof.
  destruct (console_call_leaves_the_transcript (fun _ => "20240501_120000") "FAKE_console"
              empty_disk (before_call blank_world)
              [UserTranscribed false "hel" (Some "en");
               UserTranscribed true "hello" (Some "en");
               ItemAdded "user" (Some "hello");
               ItemAdded "assistant" (Some "Hi, how can I help?")] Hangup
              eq_refl eq_refl eq_refl eq_refl (or_intror eq_refl) eq_refl)
    as (d1 & s1 & Hstart & (doc & Hfile & Hmsgs) & _).
  exists d1, s1, doc. auto.
Defined.

End CallFacts.

(** ** Events after a teardown *)

Module HookFacts.
Import Py Rec TeardownFacts.





End HookFacts.

(** ** A whole call, variant A *)

Module UnifiedCallFacts.
Import Py Rec AgentA RecordingFacts CallFacts.
Local Open Scope Z_scope.
Local Arguments String.append !s1 s2 : simpl nomatch.

(** *** The names of the files *)

Lemma append_cancel a x y : a +:+ x = a +:+ y -> x = y.
Proof.
  induction a as [|c a IH]; simpl; intros H; [exact H|].
  injection H as H. apply IH, H.
Qed.

Lemma path_join_differ dir x y :
  String.prefix "/" x = false -> String.prefix "/" y = false -> x <> y ->
  path_join dir x <> path_join dir y.
Proof.
  intros Hx Hy Hne. unfold path_join. rewrite Hx, Hy.
  destruct (negb (truthy_str dir) || ends_with "/" dir); intros H;
    apply append_cancel in H; [|apply append_cancel in H]; contradiction.
Qed.

Lemma call_a_paths_differ script_dir ts :
  transcript_filepath script_dir ts <> audio_filepath script_dir ts.
Proof.
  unfold transcript_filepath, audio_filepath. apply path_join_differ;
    [reflexivity | reflexivity | simpl; discriminate].
Qed.


(** *** The start of a call *)

Section Start.

Variable script_dir : string.
Variable strftime : Z -> string.

Lemma my_agent_run d s :
  path_exists (recordings_dir script_dir) d (world s) = true \/
  mkdir_error d (recordings_dir script_dir) = None ->
  let w := world s in
  let ts := strftime (clock w (reads w)) in
  exists d1 w',
    my_agent script_dir strftime d s =
      (Ok tt, d1,
       {| conversation_recorder :=
            Some {| cr_filepath := transcript_filepath script_dir ts; cr_transcript := [];
                    cr_start_time := clock w (S (S (reads w))); cr_is_recording := true |};
          audio_recorder :=
            Some {| la_filepath := audio_filepath script_dir ts; la_sample_rate := 48000;
                    la_num_channels := 1; la_frames := []; la_is_recording := true |};
          job_context := job_context s; world := w' |}) /\
    path_exists (recordings_dir script_dir) d1 w' = true /\
    (path_exists (recordings_dir script_dir) d (world s) = true -> d1 = d) /\
    files w' = files w /\ fs_error w' = fs_error w /\
    stops (trace w') = stops (trace w).
Proof.
  intros Hdir w ts.
  destruct (ensure_dir _ d (world s) Hdir) as (d1 & Hd & Hex & Hsame).
  unfold my_agent. rewrite Hd.
  unfold now, ConversationRecorder.init, ConversationRecorder.start,
    LocalAudioRecorder.start, LocalAudioRecorder.init, now.
  cbn [fst snd clock reads cr_filepath la_filepath la_sample_rate la_num_channels
       files fs_error trace].
  fold w. fold ts. eexists d1, _. split; [reflexivity|].
  unfold path_exists, exists_ in *. cbn [print emit files fs_error clock reads trace].
  repeat split; auto.
  rewrite !TeardownFacts.stops_app. cbn [stops app]. rewrite !app_nil_r. reflexivity.
Qed.

End Start.

(** *** The events of a call *)

Lemma handles_a evs : forall s c a,
  conversation_recorder s = Some c -> cr_is_recording c = true ->
  audio_recorder s = Some a -> la_is_recording a = true ->
  exists c' w',
    handles evs s =
      {| conversation_recorder := Some c';
         audio_recorder :=
           Some {| la_filepath := la_filepath a; la_sample_rate := la_sample_rate a;
                   la_num_channels := la_num_channels a;
                   la_frames := la_frames a ++ map frame_data (frames_of evs);
                   la_is_recording := true |};
         job_context := job_context s; world := w' |} /\
    cr_filepath c' = cr_filepath c /\
    map ConversationRecorder.summary (cr_transcript c') =
      map ConversationRecorder.summary (cr_transcript c) ++ said evs /\
    files w' = files (world s) /\ fs_error w' = fs_error (world s).
Proof.
  induction evs as [|ev evs IH]; intros s c a Hc Hrec Ha Ra.
  - exists c, (world s). split; [|rewrite app_nil_r; auto].
    cbn [handles fold_left frames_of map]. rewrite app_nil_r.
    destruct s, a; cbn in *. subst. reflexivity.
  - unfold handles. cbn [fold_left]. fold (handles evs (handle ev s)).
    destruct ev as [[f|] | is_final text language | role text]; cbn [handle said frames_of].
    + unfold capture_audio. rewrite Ha, Ra. unfold LocalAudioRecorder.add_frame. rewrite Ra.
      destruct (IH {| conversation_recorder := conversation_recorder s;
                      audio_recorder :=
                        Some {| la_filepath := la_filepath a;
                                la_sample_rate := la_sample_rate a;
                                la_num_channels := la_num_channels a;
                                la_frames := la_frames a ++ [frame_data f];
                                la_is_recording := true |};
                      job_context := job_context s; world := world s |} c _
                  Hc Hrec eq_refl eq_refl) as (c' & w' & Hh & K).
      exists c', w'. split; [|exact K]. rewrite Hh.
      cbn [la_filepath la_sample_rate la_num_channels la_frames job_context map].
      rewrite <- app_assoc. reflexivity.
    + unfold capture_audio. rewrite Ha, Ra. cbn [LocalAudioRecorder.add_frame].
      destruct (IH {| conversation_recorder := conversation_recorder s;
                      audio_recorder := Some a;
                      job_context := job_context s; world := world s |} c a
                  Hc Hrec eq_refl Ra) as (c' & w' & Hh & K).
      exists c', w'. split; [exact Hh | exact K].
    + unfold on_user_transcribed. rewrite Hc.
      destruct is_final; [|eapply IH; eassumption].
      unfold ConversationRecorder.add_user_message.
      rewrite TranscriptFacts.accepts_spec, Hrec. cbn [andb].
      destruct (ConversationRecorder.blank text); cbn [negb].
      * destruct (IH {| conversation_recorder := Some c;
                        audio_recorder := audio_recorder s;
                        job_context := job_context s; world := world s |} c a
                    eq_refl Hrec Ha Ra) as (c' & w' & Hh & K).
        exists c', w'. split; [exact Hh | exact K].
      * cbn [now].
        destruct (IH {| conversation_recorder :=
                          Some (ConversationRecorder.append c
                                  (UserMessage text (clock (world s) (reads (world s)))
                                     language));
                        audio_recorder := audio_recorder s;
                        job_context := job_context s; world := snd (now (world s)) |} _ a
                    eq_refl Hrec Ha Ra) as (c' & w' & Hh & Kp & Kt & Kfi & Kfs).
        exists c', w'. split; [exact Hh|]. split; [exact Kp|]. split; [|auto].
        rewrite Kt. cbn [ConversationRecorder.append cr_transcript]. rewrite map_app.
        rewrite <- app_assoc. reflexivity.
    + unfold on_conversation_item. rewrite Hc.
      destruct text as [text|]; [|eapply IH; eassumption].
      pose proof (on_item_accepts c role text (world s) Hrec) as Hacc.
      destruct (String.eqb role "assistant" && negb (ConversationRecorder.blank text)) eqn:E.
      * assert (Ht : String.eqb role "assistant" && truthy_str text = true).
        { apply andb_true_iff in E as [-> E]. destruct text; [discriminate | reflexivity]. }
        rewrite Ht. apply andb_true_iff in E as [_ E]. apply negb_true_iff in E.
        unfold ConversationRecorder.add_agent_message.
        rewrite TranscriptFacts.accepts_spec, Hrec, E. cbn [andb negb now].
        destruct (IH {| conversation_recorder :=
                          Some (ConversationRecorder.append c
                                  (AgentMessage text (clock (world s) (reads (world s)))));
                        audio_recorder := audio_recorder s;
                        job_context := job_context s; world := snd (now (world s)) |} _ a
                    eq_refl Hrec Ha Ra) as (c' & w' & Hh & Kp & Kt & Kfi & Kfs).
        exists c', w'. split; [exact Hh|]. split; [exact Kp|]. split; [|auto].
        rewrite Kt. cbn [ConversationRecorder.append cr_transcript]. rewrite map_app.
        rewrite <- app_assoc. reflexivity.
      * assert (Hsame : (if String.eqb role "assistant" && truthy_str text
                         then let (r', w0) :=
                                ConversationRecorder.add_agent_message c text (world s) in
                              {| conversation_recorder := Some r';
                                 audio_recorder := audio_recorder s;
                                 job_context := job_context s; world := w0 |}
                         else s) = s).
        { destruct (String.eqb role "assistant" && truthy_str text) eqn:E2; [|reflexivity].
          rewrite Hacc. destruct s; cbn in *. subst. reflexivity. }
        rewrite Hsame. eapply IH; eassumption.
Qed.

(** X24: a call of variant A, from the recording set-up of
    [my_agent] through the events to the first teardown that runs (the
    shutdown callback, or the hang-up in a job), the two paths being
    writable: when a frame arrived, [audio_<timestamp>.wav] in the
    [recordings] directory beside the script holds all frames in order of
    arrival as one channel of 16 bits at 48000 Hz, whatever rate the frames
    announce; the transcript file holds what was said, or is untouched when
    nothing was; no other file has changed and no recorder is referenced
    any more. *)
Theorem unified_call_leaves_its_recordings script_dir strftime d s evs t f fs :
  let w := world s in
  let ts := strftime (clock w (reads w)) in
  let audio_path := audio_filepath script_dir ts in
  let transcript_path := transcript_filepath script_dir ts in
  path_exists (recordings_dir script_dir) d w = true \/
    mkdir_error d (recordings_dir script_dir) = None ->
  fs_error w audio_path = None -> fs_error w transcript_path = None ->
  frames_of evs = f :: fs ->
  returns t s = true ->
  exists d1 s1,
    my_agent script_dir strftime d s = (Ok tt, d1, s1) /\
    let s3 := teardown t (handles evs s1) in
    files (world s3) !! audio_path =
      Some (WavFile 1 2 48000 (concat (map frame_data (f :: fs)))) /\
    match said evs with
    | [] => files (world s3) !! transcript_path = files w !! transcript_path
    | _ :: _ =>
        exists doc,
          files (world s3) !! transcript_path = Some (JsonFile doc) /\
          map ConversationRecorder.summary (messages doc) = said evs
    end /\
    (forall path, path <> audio_path -> path <> transcript_path ->
       files (world s3) !! path = files w !! path) /\
    referenced s3 = [].
Proof.
  intros w ts audio_path transcript_path Hdir Ea Et Hfr Hret.
  destruct (my_agent_run script_dir strftime d s Hdir)
    as (d1 & w' & Hstart & _ & _ & Hfi' & Hfs' & _).
  fold w ts in Hstart, Hfi', Hfs'. fold audio_path transcript_path in Hstart.
  match type of Hstart with _ = (_, _, ?x) => set (s1 := x) in * end.
  exists d1, s1. split; [exact Hstart|].
  destruct (handles_a evs s1 _ _ eq_refl eq_refl eq_refl eq_refl)
    as (c' & w2 & Hh & Hp & Ht & Hfi2 & Hfs2).
  cbn [s1 cr_filepath cr_transcript map app job_context world la_filepath la_sample_rate
       la_num_channels la_frames] in Hh, Hp, Ht, Hfi2, Hfs2.
  rewrite Hfr in Hh.
  pose proof (call_a_paths_differ script_dir ts) as Hne. fold audio_path transcript_path in Hne.
  (* the transcript *)
  pose proof (conversation_stop_written c' w2) as Hstop.
  rewrite Hp, Hfs2, Hfs' in Hstop. specialize (Hstop Et).
  unfold ConversationRecorder.recording_data in Hstop.
  destruct (conversation_stop_files c' w2) as [Kfs _]. rewrite Hfs2, Hfs' in Kfs.
  set (w3 := snd (ConversationRecorder.stop c' w2)) in *.
  (* the audio *)
  set (a := {| la_filepath := audio_path; la_sample_rate := 48000; la_num_channels := 1;
               la_frames := map frame_data (f :: fs); la_is_recording := true |}) in *.
  pose proof (RecorderFacts.stop_saves a w3 (frame_data f) (map frame_data fs) eq_refl) as Hs.
  cbn [a la_filepath la_num_channels la_sample_rate la_frames] in Hs.
  rewrite Kfs in Hs. specialize (Hs Ea ltac:(lia) ltac:(lia)). cbv zeta in Hs.
  assert (Hw : world (teardown t (handles evs s1)) = snd (LocalAudioRecorder.stop a w3) /\
               referenced (teardown t (handles evs s1)) = []).
  { rewrite Hh.
    assert (Hj : t = Hangup -> exists ctx, job_context s = Some ctx).
    { intros ->. unfold returns in Hret. destruct (job_context s) as [ctx|];
        [exists ctx; reflexivity | discriminate Hret]. }
    destruct t; unfold teardown, on_shutdown, hangup_call, get_job_context,
      stop_conversation, stop_audio, request_shutdown;
      cbn [conversation_recorder audio_recorder job_context world];
      [|destruct (Hj eq_refl) as [ctx ->]];
      subst w3; destruct (ConversationRecorder.stop c' w2) as [c'' w3];
      cbn [conversation_recorder audio_recorder job_context world snd];
      destruct (LocalAudioRecorder.stop a w3) as [a' w4];
      cbn [conversation_recorder audio_recorder job_context world snd];
      split; reflexivity. }
  destruct Hw as [Hw Href]. cbv zeta. rewrite Hw, Hs. cbn [print emit store files].
  split; [apply lookup_insert_eq|]. split; [|split; [|exact Href]].
  - rewrite lookup_insert_ne by congruence. rewrite Hstop, Hfi2, Hfi', <- Ht.
    destruct (cr_transcript c') as [|m ms]; [reflexivity|].
    eexists. split; [apply lookup_insert_eq | reflexivity].
  - intros path Na Nt. rewrite lookup_insert_ne by congruence.
    rewrite Hstop, Hfi2, Hfi'.
    destruct (cr_transcript c') as [|m ms]; [reflexivity|].
    apply lookup_insert_ne. congruence.
Qed.

Lemma unified_call_leaves_its_recordings_witness :
  let evs := [AgentA.FrameArrived (Some one_frame);
              AgentA.UserTranscribed true "hello" (Some "en");
              AgentA.FrameArrived None;
              AgentA.FrameArrived (Some one_frame)] in
  exists d1 s1,
    my_agent "/srv/agent" (fun _ => "20240501_120000") empty_disk (before_call blank_world)
      = (Ok tt, d1, s1) /\
    files (world (teardown Shutdown (handles evs s1)))
      !! "/srv/agent/recordings/audio_20240501_120000.wav" =
      Some (WavFile 1 2 48000
              [Byte.x01; Byte.x00; Byte.xff; Byte.x7f; Byte.x01; Byte.x00; Byte.xff; Byte.x7f]).
Proof.
  destruct (unified_call_leaves_its_recordings "/srv/agent" (fun _ => "20240501_120000")
              empty_disk (before_call blank_world)
              [AgentA.FrameArrived (Some one_frame);
               AgentA.UserTranscribed true "hello" (Some "en");
               AgentA.FrameArrived None;
               AgentA.FrameArrived (Some one_frame)]
              Shutdown one_frame [one_frame] (or_intror eq_refl) eq_refl eq_refl eq_refl
              eq_refl)
    as (d1 & s1 & Hstart & Hfile & _).
  exists d1, s1. split; [exact Hstart | exact Hfile].
Defined.

End UnifiedCallFacts.
